(** * DostyqTV support bot: a shallow embedding of [main.py]

    The development follows the layout of the Python source: Python
    strings and the Unicode lower-casing of [str.lower], the keyword
    responder [get_fallback_response], the JSON values and exceptions
    met by [_call_gemini], the SQLite store behind [save_user] and
    [create_ticket], the handlers with their dispatch table, and
    [run].  Definitions come first, the properties follow. *)

From Stdlib Require Import ZArith String Lia.
From stdpp Require Import gmap list.
Local Open Scope Z_scope.

(** ** Python strings

    A Python [str] is a sequence of Unicode code points; a code point is
    a [Z] in [0, 0x10FFFF].  Literals are written as UTF-8 text and
    decoded once by [utf8]. *)

Definition str : Type := list Z.

Definition bytes_of (s : string) : list Z :=
  map (fun b => Z.of_N (Byte.to_N b)) (list_byte_of_string s).

Fixpoint utf8_decode (bs : list Z) : list Z :=
  match bs with
  | [] => []
  | b0 :: t0 =>
      if b0 <? 0x80 then b0 :: utf8_decode t0 else
      match t0 with
      | [] => []
      | b1 :: t1 =>
          if b0 <? 0xE0 then
            ((b0 - 0xC0) * 64 + (b1 - 0x80)) :: utf8_decode t1
          else
          match t1 with
          | [] => []
          | b2 :: t2 =>
              if b0 <? 0xF0 then
                ((b0 - 0xE0) * 4096 + (b1 - 0x80) * 64 + (b2 - 0x80))
                  :: utf8_decode t2
              else
              match t2 with
              | [] => []
              | b3 :: t3 =>
                  ((b0 - 0xF0) * 262144 + (b1 - 0x80) * 4096
                   + (b2 - 0x80) * 64 + (b3 - 0x80)) :: utf8_decode t3
              end
          end
      end
  end.

Definition utf8 (s : string) : str := utf8_decode (bytes_of s).

(** The line feed written [\n] in the source, and the double quote. *)
Definition nl : str := [10].
Definition dquote : str := [34].

(** [str_eqb a b]: [a == b]. *)
Fixpoint str_eqb (a b : str) : bool :=
  match a, b with
  | [], [] => true
  | x :: a', y :: b' => (x =? y) && str_eqb a' b'
  | _, _ => false
  end.

(** [startswith w s]: [s.startswith(w)]. *)
Fixpoint startswith (w s : str) : bool :=
  match w, s with
  | [], _ => true
  | _ :: _, [] => false
  | a :: w', b :: s' => (a =? b) && startswith w' s'
  end.

(** [contains w s]: the substring test [w in s] of Python. *)
Fixpoint contains (w s : str) : bool :=
  startswith w s ||
  match s with
  | [] => false
  | _ :: s' => contains w s'
  end.

(** [any_in words s]: [any(word in s for word in words)]. *)
Definition any_in (words : list str) (s : str) : bool :=
  existsb (fun word => contains word s) words.

(** ** Unicode case data behind [str.lower]

    CPython lower-cases a string code point by code point
    ([do_lower] and [lower_ucs4] in Objects/unicodeobject.c): U+03A3 is
    mapped by its Final_Sigma context, every other code point by the
    full lower-case mapping of the Unicode database.  The three tables
    are those of Unicode 14.0.0 (CPython 3.11): [lower_table] lists
    arithmetic runs [(first, last, stride, delta)] of code points whose
    lower-case form is [c + delta]; [cased_table] and
    [case_ignorable_table] list the inclusive runs of the Cased and
    Case_Ignorable properties. *)

Module Unicode.

Definition lower_table : list (Z * Z * Z * Z) :=
  [
    (0x41, 0x5A, 1, 32); (0xC0, 0xD6, 1, 32); (0xD8, 0xDE, 1, 32);
    (0x100, 0x12E, 2, 1); (0x132, 0x136, 2, 1); (0x139, 0x147, 2, 1);
    (0x14A, 0x176, 2, 1); (0x178, 0x178, 1, -121); (0x179, 0x17D, 2, 1);
    (0x181, 0x181, 1, 210); (0x182, 0x184, 2, 1); (0x186, 0x186, 1, 206);
    (0x187, 0x187, 1, 1); (0x189, 0x18A, 1, 205); (0x18B, 0x18B, 1, 1);
    (0x18E, 0x18E, 1, 79); (0x18F, 0x18F, 1, 202); (0x190, 0x190, 1, 203);
    (0x191, 0x191, 1, 1); (0x193, 0x193, 1, 205); (0x194, 0x194, 1, 207);
    (0x196, 0x196, 1, 211); (0x197, 0x197, 1, 209); (0x198, 0x198, 1, 1);
    (0x19C, 0x19C, 1, 211); (0x19D, 0x19D, 1, 213); (0x19F, 0x19F, 1, 214);
    (0x1A0, 0x1A4, 2, 1); (0x1A6, 0x1A6, 1, 218); (0x1A7, 0x1A7, 1, 1);
    (0x1A9, 0x1A9, 1, 218); (0x1AC, 0x1AC, 1, 1); (0x1AE, 0x1AE, 1, 218);
    (0x1AF, 0x1AF, 1, 1); (0x1B1, 0x1B2, 1, 217); (0x1B3, 0x1B5, 2, 1);
    (0x1B7, 0x1B7, 1, 219); (0x1B8, 0x1B8, 1, 1); (0x1BC, 0x1BC, 1, 1);
    (0x1C4, 0x1C4, 1, 2); (0x1C5, 0x1C5, 1, 1); (0x1C7, 0x1C7, 1, 2);
    (0x1C8, 0x1C8, 1, 1); (0x1CA, 0x1CA, 1, 2); (0x1CB, 0x1DB, 2, 1);
    (0x1DE, 0x1EE, 2, 1); (0x1F1, 0x1F1, 1, 2); (0x1F2, 0x1F4, 2, 1);
    (0x1F6, 0x1F6, 1, -97); (0x1F7, 0x1F7, 1, -56); (0x1F8, 0x21E, 2, 1);
    (0x220, 0x220, 1, -130); (0x222, 0x232, 2, 1); (0x23A, 0x23A, 1, 10795);
    (0x23B, 0x23B, 1, 1); (0x23D, 0x23D, 1, -163); (0x23E, 0x23E, 1, 10792);
    (0x241, 0x241, 1, 1); (0x243, 0x243, 1, -195); (0x244, 0x244, 1, 69);
    (0x245, 0x245, 1, 71); (0x246, 0x24E, 2, 1); (0x370, 0x372, 2, 1);
    (0x376, 0x376, 1, 1); (0x37F, 0x37F, 1, 116); (0x386, 0x386, 1, 38);
    (0x388, 0x38A, 1, 37); (0x38C, 0x38C, 1, 64); (0x38E, 0x38F, 1, 63);
    (0x391, 0x3A1, 1, 32); (0x3A3, 0x3AB, 1, 32); (0x3CF, 0x3CF, 1, 8);
    (0x3D8, 0x3EE, 2, 1); (0x3F4, 0x3F4, 1, -60); (0x3F7, 0x3F7, 1, 1);
    (0x3F9, 0x3F9, 1, -7); (0x3FA, 0x3FA, 1, 1); (0x3FD, 0x3FF, 1, -130);
    (0x400, 0x40F, 1, 80); (0x410, 0x42F, 1, 32); (0x460, 0x480, 2, 1);
    (0x48A, 0x4BE, 2, 1); (0x4C0, 0x4C0, 1, 15); (0x4C1, 0x4CD, 2, 1);
    (0x4D0, 0x52E, 2, 1); (0x531, 0x556, 1, 48); (0x10A0, 0x10C5, 1, 7264);
    (0x10C7, 0x10C7, 1, 7264); (0x10CD, 0x10CD, 1, 7264); (0x13A0, 0x13EF, 1, 38864);
    (0x13F0, 0x13F5, 1, 8); (0x1C90, 0x1CBA, 1, -3008); (0x1CBD, 0x1CBF, 1, -3008);
    (0x1E00, 0x1E94, 2, 1); (0x1E9E, 0x1E9E, 1, -7615); (0x1EA0, 0x1EFE, 2, 1);
    (0x1F08, 0x1F0F, 1, -8); (0x1F18, 0x1F1D, 1, -8); (0x1F28, 0x1F2F, 1, -8);
    (0x1F38, 0x1F3F, 1, -8); (0x1F48, 0x1F4D, 1, -8); (0x1F59, 0x1F5F, 2, -8);
    (0x1F68, 0x1F6F, 1, -8); (0x1F88, 0x1F8F, 1, -8); (0x1F98, 0x1F9F, 1, -8);
    (0x1FA8, 0x1FAF, 1, -8); (0x1FB8, 0x1FB9, 1, -8); (0x1FBA, 0x1FBB, 1, -74);
    (0x1FBC, 0x1FBC, 1, -9); (0x1FC8, 0x1FCB, 1, -86); (0x1FCC, 0x1FCC, 1, -9);
    (0x1FD8, 0x1FD9, 1, -8); (0x1FDA, 0x1FDB, 1, -100); (0x1FE8, 0x1FE9, 1, -8);
    (0x1FEA, 0x1FEB, 1, -112); (0x1FEC, 0x1FEC, 1, -7); (0x1FF8, 0x1FF9, 1, -128);
    (0x1FFA, 0x1FFB, 1, -126); (0x1FFC, 0x1FFC, 1, -9); (0x2126, 0x2126, 1, -7517);
    (0x212A, 0x212A, 1, -8383); (0x212B, 0x212B, 1, -8262); (0x2132, 0x2132, 1, 28);
    (0x2160, 0x216F, 1, 16); (0x2183, 0x2183, 1, 1); (0x24B6, 0x24CF, 1, 26);
    (0x2C00, 0x2C2F, 1, 48); (0x2C60, 0x2C60, 1, 1); (0x2C62, 0x2C62, 1, -10743);
    (0x2C63, 0x2C63, 1, -3814); (0x2C64, 0x2C64, 1, -10727); (0x2C67, 0x2C6B, 2, 1);
    (0x2C6D, 0x2C6D, 1, -10780); (0x2C6E, 0x2C6E, 1, -10749); (0x2C6F, 0x2C6F, 1, -10783);
    (0x2C70, 0x2C70, 1, -10782); (0x2C72, 0x2C72, 1, 1); (0x2C75, 0x2C75, 1, 1);
    (0x2C7E, 0x2C7F, 1, -10815); (0x2C80, 0x2CE2, 2, 1); (0x2CEB, 0x2CED, 2, 1);
    (0x2CF2, 0x2CF2, 1, 1); (0xA640, 0xA66C, 2, 1); (0xA680, 0xA69A, 2, 1);
    (0xA722, 0xA72E, 2, 1); (0xA732, 0xA76E, 2, 1); (0xA779, 0xA77B, 2, 1);
    (0xA77D, 0xA77D, 1, -35332); (0xA77E, 0xA786, 2, 1); (0xA78B, 0xA78B, 1, 1);
    (0xA78D, 0xA78D, 1, -42280); (0xA790, 0xA792, 2, 1); (0xA796, 0xA7A8, 2, 1);
    (0xA7AA, 0xA7AA, 1, -42308); (0xA7AB, 0xA7AB, 1, -42319); (0xA7AC, 0xA7AC, 1, -42315);
    (0xA7AD, 0xA7AD, 1, -42305); (0xA7AE, 0xA7AE, 1, -42308); (0xA7B0, 0xA7B0, 1, -42258);
    (0xA7B1, 0xA7B1, 1, -42282); (0xA7B2, 0xA7B2, 1, -42261); (0xA7B3, 0xA7B3, 1, 928);
    (0xA7B4, 0xA7C2, 2, 1); (0xA7C4, 0xA7C4, 1, -48); (0xA7C5, 0xA7C5, 1, -42307);
    (0xA7C6, 0xA7C6, 1, -35384); (0xA7C7, 0xA7C9, 2, 1); (0xA7D0, 0xA7D0, 1, 1);
    (0xA7D6, 0xA7D8, 2, 1); (0xA7F5, 0xA7F5, 1, 1); (0xFF21, 0xFF3A, 1, 32);
    (0x10400, 0x10427, 1, 40); (0x104B0, 0x104D3, 1, 40); (0x10570, 0x1057A, 1, 39);
    (0x1057C, 0x1058A, 1, 39); (0x1058C, 0x10592, 1, 39); (0x10594, 0x10595, 1, 39);
    (0x10C80, 0x10CB2, 1, 64); (0x118A0, 0x118BF, 1, 32); (0x16E40, 0x16E5F, 1, 32);
    (0x1E900, 0x1E921, 1, 34)
  ].

Definition cased_table : list (Z * Z) :=
  [
    (0x41, 0x5A); (0x61, 0x7A); (0xAA, 0xAA); (0xB5, 0xB5); (0xBA, 0xBA);
    (0xC0, 0xD6); (0xD8, 0xF6); (0xF8, 0x1BA); (0x1BC, 0x1BF); (0x1C4, 0x293);
    (0x295, 0x2B8); (0x2C0, 0x2C1); (0x2E0, 0x2E4); (0x345, 0x345); (0x370, 0x373);
    (0x376, 0x377); (0x37A, 0x37D); (0x37F, 0x37F); (0x386, 0x386); (0x388, 0x38A);
    (0x38C, 0x38C); (0x38E, 0x3A1); (0x3A3, 0x3F5); (0x3F7, 0x481); (0x48A, 0x52F);
    (0x531, 0x556); (0x560, 0x588); (0x10A0, 0x10C5); (0x10C7, 0x10C7); (0x10CD, 0x10CD);
    (0x10D0, 0x10FA); (0x10FD, 0x10FF); (0x13A0, 0x13F5); (0x13F8, 0x13FD); (0x1C80, 0x1C88);
    (0x1C90, 0x1CBA); (0x1CBD, 0x1CBF); (0x1D00, 0x1DBF); (0x1E00, 0x1F15); (0x1F18, 0x1F1D);
    (0x1F20, 0x1F45); (0x1F48, 0x1F4D); (0x1F50, 0x1F57); (0x1F59, 0x1F59); (0x1F5B, 0x1F5B);
    (0x1F5D, 0x1F5D); (0x1F5F, 0x1F7D); (0x1F80, 0x1FB4); (0x1FB6, 0x1FBC); (0x1FBE, 0x1FBE);
    (0x1FC2, 0x1FC4); (0x1FC6, 0x1FCC); (0x1FD0, 0x1FD3); (0x1FD6, 0x1FDB); (0x1FE0, 0x1FEC);
    (0x1FF2, 0x1FF4); (0x1FF6, 0x1FFC); (0x2071, 0x2071); (0x207F, 0x207F); (0x2090, 0x209C);
    (0x2102, 0x2102); (0x2107, 0x2107); (0x210A, 0x2113); (0x2115, 0x2115); (0x2119, 0x211D);
    (0x2124, 0x2124); (0x2126, 0x2126); (0x2128, 0x2128); (0x212A, 0x212D); (0x212F, 0x2134);
    (0x2139, 0x2139); (0x213C, 0x213F); (0x2145, 0x2149); (0x214E, 0x214E); (0x2160, 0x217F);
    (0x2183, 0x2184); (0x24B6, 0x24E9); (0x2C00, 0x2CE4); (0x2CEB, 0x2CEE); (0x2CF2, 0x2CF3);
    (0x2D00, 0x2D25); (0x2D27, 0x2D27); (0x2D2D, 0x2D2D); (0xA640, 0xA66D); (0xA680, 0xA69D);
    (0xA722, 0xA787); (0xA78B, 0xA78E); (0xA790, 0xA7CA); (0xA7D0, 0xA7D1); (0xA7D3, 0xA7D3);
    (0xA7D5, 0xA7D9); (0xA7F5, 0xA7F6); (0xA7F8, 0xA7FA); (0xAB30, 0xAB5A); (0xAB5C, 0xAB68);
    (0xAB70, 0xABBF); (0xFB00, 0xFB06); (0xFB13, 0xFB17); (0xFF21, 0xFF3A); (0xFF41, 0xFF5A);
    (0x10400, 0x1044F); (0x104B0, 0x104D3); (0x104D8, 0x104FB); (0x10570, 0x1057A); (0x1057C, 0x1058A);
    (0x1058C, 0x10592); (0x10594, 0x10595); (0x10597, 0x105A1); (0x105A3, 0x105B1); (0x105B3, 0x105B9);
    (0x105BB, 0x105BC); (0x10780, 0x10780); (0x10783, 0x10785); (0x10787, 0x107B0); (0x107B2, 0x107BA);
    (0x10C80, 0x10CB2); (0x10CC0, 0x10CF2); (0x118A0, 0x118DF); (0x16E40, 0x16E7F); (0x1D400, 0x1D454);
    (0x1D456, 0x1D49C); (0x1D49E, 0x1D49F); (0x1D4A2, 0x1D4A2); (0x1D4A5, 0x1D4A6); (0x1D4A9, 0x1D4AC);
    (0x1D4AE, 0x1D4B9); (0x1D4BB, 0x1D4BB); (0x1D4BD, 0x1D4C3); (0x1D4C5, 0x1D505); (0x1D507, 0x1D50A);
    (0x1D50D, 0x1D514); (0x1D516, 0x1D51C); (0x1D51E, 0x1D539); (0x1D53B, 0x1D53E); (0x1D540, 0x1D544);
    (0x1D546, 0x1D546); (0x1D54A, 0x1D550); (0x1D552, 0x1D6A5); (0x1D6A8, 0x1D6C0); (0x1D6C2, 0x1D6DA);
    (0x1D6DC, 0x1D6FA); (0x1D6FC, 0x1D714); (0x1D716, 0x1D734); (0x1D736, 0x1D74E); (0x1D750, 0x1D76E);
    (0x1D770, 0x1D788); (0x1D78A, 0x1D7A8); (0x1D7AA, 0x1D7C2); (0x1D7C4, 0x1D7CB); (0x1DF00, 0x1DF09);
    (0x1DF0B, 0x1DF1E); (0x1E900, 0x1E943); (0x1F130, 0x1F149); (0x1F150, 0x1F169); (0x1F170, 0x1F189)
  ].

Definition case_ignorable_table : list (Z * Z) :=
  [
    (0x27, 0x27); (0x2E, 0x2E); (0x3A, 0x3A); (0x5E, 0x5E); (0x60, 0x60);
    (0xA8, 0xA8); (0xAD, 0xAD); (0xAF, 0xAF); (0xB4, 0xB4); (0xB7, 0xB8);
    (0x2B0, 0x36F); (0x374, 0x375); (0x37A, 0x37A); (0x384, 0x385); (0x387, 0x387);
    (0x483, 0x489); (0x559, 0x559); (0x55F, 0x55F); (0x591, 0x5BD); (0x5BF, 0x5BF);
    (0x5C1, 0x5C2); (0x5C4, 0x5C5); (0x5C7, 0x5C7); (0x5F4, 0x5F4); (0x600, 0x605);
    (0x610, 0x61A); (0x61C, 0x61C); (0x640, 0x640); (0x64B, 0x65F); (0x670, 0x670);
    (0x6D6, 0x6DD); (0x6DF, 0x6E8); (0x6EA, 0x6ED); (0x70F, 0x70F); (0x711, 0x711);
    (0x730, 0x74A); (0x7A6, 0x7B0); (0x7EB, 0x7F5); (0x7FA, 0x7FA); (0x7FD, 0x7FD);
    (0x816, 0x82D); (0x859, 0x85B); (0x888, 0x888); (0x890, 0x891); (0x898, 0x89F);
    (0x8C9, 0x902); (0x93A, 0x93A); (0x93C, 0x93C); (0x941, 0x948); (0x94D, 0x94D);
    (0x951, 0x957); (0x962, 0x963); (0x971, 0x971); (0x981, 0x981); (0x9BC, 0x9BC);
    (0x9C1, 0x9C4); (0x9CD, 0x9CD); (0x9E2, 0x9E3); (0x9FE, 0x9FE); (0xA01, 0xA02);
    (0xA3C, 0xA3C); (0xA41, 0xA42); (0xA47, 0xA48); (0xA4B, 0xA4D); (0xA51, 0xA51);
    (0xA70, 0xA71); (0xA75, 0xA75); (0xA81, 0xA82); (0xABC, 0xABC); (0xAC1, 0xAC5);
    (0xAC7, 0xAC8); (0xACD, 0xACD); (0xAE2, 0xAE3); (0xAFA, 0xAFF); (0xB01, 0xB01);
    (0xB3C, 0xB3C); (0xB3F, 0xB3F); (0xB41, 0xB44); (0xB4D, 0xB4D); (0xB55, 0xB56);
    (0xB62, 0xB63); (0xB82, 0xB82); (0xBC0, 0xBC0); (0xBCD, 0xBCD); (0xC00, 0xC00);
    (0xC04, 0xC04); (0xC3C, 0xC3C); (0xC3E, 0xC40); (0xC46, 0xC48); (0xC4A, 0xC4D);
    (0xC55, 0xC56); (0xC62, 0xC63); (0xC81, 0xC81); (0xCBC, 0xCBC); (0xCBF, 0xCBF);
    (0xCC6, 0xCC6); (0xCCC, 0xCCD); (0xCE2, 0xCE3); (0xD00, 0xD01); (0xD3B, 0xD3C);
    (0xD41, 0xD44); (0xD4D, 0xD4D); (0xD62, 0xD63); (0xD81, 0xD81); (0xDCA, 0xDCA);
    (0xDD2, 0xDD4); (0xDD6, 0xDD6); (0xE31, 0xE31); (0xE34, 0xE3A); (0xE46, 0xE4E);
    (0xEB1, 0xEB1); (0xEB4, 0xEBC); (0xEC6, 0xEC6); (0xEC8, 0xECD); (0xF18, 0xF19);
    (0xF35, 0xF35); (0xF37, 0xF37); (0xF39, 0xF39); (0xF71, 0xF7E); (0xF80, 0xF84);
    (0xF86, 0xF87); (0xF8D, 0xF97); (0xF99, 0xFBC); (0xFC6, 0xFC6); (0x102D, 0x1030);
    (0x1032, 0x1037); (0x1039, 0x103A); (0x103D, 0x103E); (0x1058, 0x1059); (0x105E, 0x1060);
    (0x1071, 0x1074); (0x1082, 0x1082); (0x1085, 0x1086); (0x108D, 0x108D); (0x109D, 0x109D);
    (0x10FC, 0x10FC); (0x135D, 0x135F); (0x1712, 0x1714); (0x1732, 0x1733); (0x1752, 0x1753);
    (0x1772, 0x1773); (0x17B4, 0x17B5); (0x17B7, 0x17BD); (0x17C6, 0x17C6); (0x17C9, 0x17D3);
    (0x17D7, 0x17D7); (0x17DD, 0x17DD); (0x180B, 0x180F); (0x1843, 0x1843); (0x1885, 0x1886);
    (0x18A9, 0x18A9); (0x1920, 0x1922); (0x1927, 0x1928); (0x1932, 0x1932); (0x1939, 0x193B);
    (0x1A17, 0x1A18); (0x1A1B, 0x1A1B); (0x1A56, 0x1A56); (0x1A58, 0x1A5E); (0x1A60, 0x1A60);
    (0x1A62, 0x1A62); (0x1A65, 0x1A6C); (0x1A73, 0x1A7C); (0x1A7F, 0x1A7F); (0x1AA7, 0x1AA7);
    (0x1AB0, 0x1ACE); (0x1B00, 0x1B03); (0x1B34, 0x1B34); (0x1B36, 0x1B3A); (0x1B3C, 0x1B3C);
    (0x1B42, 0x1B42); (0x1B6B, 0x1B73); (0x1B80, 0x1B81); (0x1BA2, 0x1BA5); (0x1BA8, 0x1BA9);
    (0x1BAB, 0x1BAD); (0x1BE6, 0x1BE6); (0x1BE8, 0x1BE9); (0x1BED, 0x1BED); (0x1BEF, 0x1BF1);
    (0x1C2C, 0x1C33); (0x1C36, 0x1C37); (0x1C78, 0x1C7D); (0x1CD0, 0x1CD2); (0x1CD4, 0x1CE0);
    (0x1CE2, 0x1CE8); (0x1CED, 0x1CED); (0x1CF4, 0x1CF4); (0x1CF8, 0x1CF9); (0x1D2C, 0x1D6A);
    (0x1D78, 0x1D78); (0x1D9B, 0x1DFF); (0x1FBD, 0x1FBD); (0x1FBF, 0x1FC1); (0x1FCD, 0x1FCF);
    (0x1FDD, 0x1FDF); (0x1FED, 0x1FEF); (0x1FFD, 0x1FFE); (0x200B, 0x200F); (0x2018, 0x2019);
    (0x2024, 0x2024); (0x2027, 0x2027); (0x202A, 0x202E); (0x2060, 0x2064); (0x2066, 0x206F);
    (0x2071, 0x2071); (0x207F, 0x207F); (0x2090, 0x209C); (0x20D0, 0x20F0); (0x2C7C, 0x2C7D);
    (0x2CEF, 0x2CF1); (0x2D6F, 0x2D6F); (0x2D7F, 0x2D7F); (0x2DE0, 0x2DFF); (0x2E2F, 0x2E2F);
    (0x3005, 0x3005); (0x302A, 0x302D); (0x3031, 0x3035); (0x303B, 0x303B); (0x3099, 0x309E);
    (0x30FC, 0x30FE); (0xA015, 0xA015); (0xA4F8, 0xA4FD); (0xA60C, 0xA60C); (0xA66F, 0xA672);
    (0xA674, 0xA67D); (0xA67F, 0xA67F); (0xA69C, 0xA69F); (0xA6F0, 0xA6F1); (0xA700, 0xA721);
    (0xA770, 0xA770); (0xA788, 0xA78A); (0xA7F2, 0xA7F4); (0xA7F8, 0xA7F9); (0xA802, 0xA802);
    (0xA806, 0xA806); (0xA80B, 0xA80B); (0xA825, 0xA826); (0xA82C, 0xA82C); (0xA8C4, 0xA8C5);
    (0xA8E0, 0xA8F1); (0xA8FF, 0xA8FF); (0xA926, 0xA92D); (0xA947, 0xA951); (0xA980, 0xA982);
    (0xA9B3, 0xA9B3); (0xA9B6, 0xA9B9); (0xA9BC, 0xA9BD); (0xA9CF, 0xA9CF); (0xA9E5, 0xA9E6);
    (0xAA29, 0xAA2E); (0xAA31, 0xAA32); (0xAA35, 0xAA36); (0xAA43, 0xAA43); (0xAA4C, 0xAA4C);
    (0xAA70, 0xAA70); (0xAA7C, 0xAA7C); (0xAAB0, 0xAAB0); (0xAAB2, 0xAAB4); (0xAAB7, 0xAAB8);
    (0xAABE, 0xAABF); (0xAAC1, 0xAAC1); (0xAADD, 0xAADD); (0xAAEC, 0xAAED); (0xAAF3, 0xAAF4);
    (0xAAF6, 0xAAF6); (0xAB5B, 0xAB5F); (0xAB69, 0xAB6B); (0xABE5, 0xABE5); (0xABE8, 0xABE8);
    (0xABED, 0xABED); (0xFB1E, 0xFB1E); (0xFBB2, 0xFBC2); (0xFE00, 0xFE0F); (0xFE13, 0xFE13);
    (0xFE20, 0xFE2F); (0xFE52, 0xFE52); (0xFE55, 0xFE55); (0xFEFF, 0xFEFF); (0xFF07, 0xFF07);
    (0xFF0E, 0xFF0E); (0xFF1A, 0xFF1A); (0xFF3E, 0xFF3E); (0xFF40, 0xFF40); (0xFF70, 0xFF70);
    (0xFF9E, 0xFF9F); (0xFFE3, 0xFFE3); (0xFFF9, 0xFFFB); (0x101FD, 0x101FD); (0x102E0, 0x102E0);
    (0x10376, 0x1037A); (0x10780, 0x10785); (0x10787, 0x107B0); (0x107B2, 0x107BA); (0x10A01, 0x10A03);
    (0x10A05, 0x10A06); (0x10A0C, 0x10A0F); (0x10A38, 0x10A3A); (0x10A3F, 0x10A3F); (0x10AE5, 0x10AE6);
    (0x10D24, 0x10D27); (0x10EAB, 0x10EAC); (0x10F46, 0x10F50); (0x10F82, 0x10F85); (0x11001, 0x11001);
    (0x11038, 0x11046); (0x11070, 0x11070); (0x11073, 0x11074); (0x1107F, 0x11081); (0x110B3, 0x110B6);
    (0x110B9, 0x110BA); (0x110BD, 0x110BD); (0x110C2, 0x110C2); (0x110CD, 0x110CD); (0x11100, 0x11102);
    (0x11127, 0x1112B); (0x1112D, 0x11134); (0x11173, 0x11173); (0x11180, 0x11181); (0x111B6, 0x111BE);
    (0x111C9, 0x111CC); (0x111CF, 0x111CF); (0x1122F, 0x11231); (0x11234, 0x11234); (0x11236, 0x11237);
    (0x1123E, 0x1123E); (0x112DF, 0x112DF); (0x112E3, 0x112EA); (0x11300, 0x11301); (0x1133B, 0x1133C);
    (0x11340, 0x11340); (0x11366, 0x1136C); (0x11370, 0x11374); (0x11438, 0x1143F); (0x11442, 0x11444);
    (0x11446, 0x11446); (0x1145E, 0x1145E); (0x114B3, 0x114B8); (0x114BA, 0x114BA); (0x114BF, 0x114C0);
    (0x114C2, 0x114C3); (0x115B2, 0x115B5); (0x115BC, 0x115BD); (0x115BF, 0x115C0); (0x115DC, 0x115DD);
    (0x11633, 0x1163A); (0x1163D, 0x1163D); (0x1163F, 0x11640); (0x116AB, 0x116AB); (0x116AD, 0x116AD);
    (0x116B0, 0x116B5); (0x116B7, 0x116B7); (0x1171D, 0x1171F); (0x11722, 0x11725); (0x11727, 0x1172B);
    (0x1182F, 0x11837); (0x11839, 0x1183A); (0x1193B, 0x1193C); (0x1193E, 0x1193E); (0x11943, 0x11943);
    (0x119D4, 0x119D7); (0x119DA, 0x119DB); (0x119E0, 0x119E0); (0x11A01, 0x11A0A); (0x11A33, 0x11A38);
    (0x11A3B, 0x11A3E); (0x11A47, 0x11A47); (0x11A51, 0x11A56); (0x11A59, 0x11A5B); (0x11A8A, 0x11A96);
    (0x11A98, 0x11A99); (0x11C30, 0x11C36); (0x11C38, 0x11C3D); (0x11C3F, 0x11C3F); (0x11C92, 0x11CA7);
    (0x11CAA, 0x11CB0); (0x11CB2, 0x11CB3); (0x11CB5, 0x11CB6); (0x11D31, 0x11D36); (0x11D3A, 0x11D3A);
    (0x11D3C, 0x11D3D); (0x11D3F, 0x11D45); (0x11D47, 0x11D47); (0x11D90, 0x11D91); (0x11D95, 0x11D95);
    (0x11D97, 0x11D97); (0x11EF3, 0x11EF4); (0x13430, 0x13438); (0x16AF0, 0x16AF4); (0x16B30, 0x16B36);
    (0x16B40, 0x16B43); (0x16F4F, 0x16F4F); (0x16F8F, 0x16F9F); (0x16FE0, 0x16FE1); (0x16FE3, 0x16FE4);
    (0x1AFF0, 0x1AFF3); (0x1AFF5, 0x1AFFB); (0x1AFFD, 0x1AFFE); (0x1BC9D, 0x1BC9E); (0x1BCA0, 0x1BCA3);
    (0x1CF00, 0x1CF2D); (0x1CF30, 0x1CF46); (0x1D167, 0x1D169); (0x1D173, 0x1D182); (0x1D185, 0x1D18B);
    (0x1D1AA, 0x1D1AD); (0x1D242, 0x1D244); (0x1DA00, 0x1DA36); (0x1DA3B, 0x1DA6C); (0x1DA75, 0x1DA75);
    (0x1DA84, 0x1DA84); (0x1DA9B, 0x1DA9F); (0x1DAA1, 0x1DAAF); (0x1E000, 0x1E006); (0x1E008, 0x1E018);
    (0x1E01B, 0x1E021); (0x1E023, 0x1E024); (0x1E026, 0x1E02A); (0x1E130, 0x1E13D); (0x1E2AE, 0x1E2AE);
    (0x1E2EC, 0x1E2EF); (0x1E8D0, 0x1E8D6); (0x1E944, 0x1E94B); (0x1F3FB, 0x1F3FF); (0xE0001, 0xE0001);
    (0xE0020, 0xE007F); (0xE0100, 0xE01EF)
  ].

Definition in_runs (c : Z) (t : list (Z * Z)) : bool :=
  existsb (fun '(lo, hi) => (lo <=? c) && (c <=? hi)) t.

Definition is_cased (c : Z) : bool := in_runs c cased_table.

Definition is_case_ignorable (c : Z) : bool := in_runs c case_ignorable_table.

Definition in_run (c : Z) (r : Z * Z * Z * Z) : bool :=
  let '(lo, hi, stride, _) := r in
  (lo <=? c) && (c <=? hi) && ((c - lo) mod stride =? 0).

Definition lower_delta (c : Z) : option Z :=
  match find (in_run c) lower_table with
  | Some (_, _, _, d) => Some d
  | None => None
  end.

(** [_PyUnicode_ToLowerFull]: U+0130 is the one code point whose
    lower-case form has two code points. *)
Definition to_lower_full (c : Z) : list Z :=
  if c =? 0x130 then [0x69; 0x307]
  else match lower_delta c with
       | Some d => [c + d]
       | None => [c]
       end.

Fixpoint skip_case_ignorable (s : list Z) : list Z :=
  match s with
  | [] => []
  | c :: s' => if is_case_ignorable c then skip_case_ignorable s' else s
  end.

(** [handle_capital_sigma]: [before] holds the code points before the
    sigma, nearest first; [after] those behind it. *)
Definition handle_capital_sigma (before after : list Z) : Z :=
  let preceded :=
    match skip_case_ignorable before with
    | c :: _ => is_cased c
    | [] => false
    end in
  let final_sigma :=
    if preceded then
      match skip_case_ignorable after with
      | c :: _ => negb (is_cased c)
      | [] => true
      end
    else false in
  if final_sigma then 0x3C2 else 0x3C3.

Definition lower_ucs4 (before : list Z) (c : Z) (after : list Z) : list Z :=
  if c =? 0x3A3 then [handle_capital_sigma before after]
  else to_lower_full c.

Fixpoint do_lower (before rest : list Z) : list Z :=
  match rest with
  | [] => []
  | c :: after => lower_ucs4 before c after ++ do_lower (c :: before) after
  end.

End Unicode.

(** [lower s]: [s.lower()]. *)
Definition lower (s : str) : str := Unicode.do_lower [] s.

(** ** The keyword responder (main.py, [get_fallback_response]) *)

Definition schedule_words : list str :=
  Eval vm_compute in [utf8 "программа"; utf8 "расписание"; utf8 "передач"].

Definition quality_words : list str :=
  Eval vm_compute in
    [utf8 "качество"; utf8 "плохо"; utf8 "тормозит"; utf8 "зависает"].

Definition setup_words : list str :=
  Eval vm_compute in [utf8 "настроить"; utf8 "канал"; utf8 "найти"].

Definition contact_words : list str :=
  Eval vm_compute in [utf8 "контакт"; utf8 "телефон"; utf8 "связаться"].

Definition advert_words : list str :=
  Eval vm_compute in [utf8 "реклама"; utf8 "размещение"].

Definition schedule_answer : str :=
  Eval vm_compute in
    utf8 "📺 Полное расписание программ доступно на сайте dostyq.tv в разделе 'Каталог'".

Definition quality_answer : str :=
  Eval vm_compute in
    utf8 "🔧 При проблемах с качеством, попробуйте перезагрузить приставку. Если не помогло, свяжитесь с поддержкой: +7 771 300 05 02, +7 702 300 05 01".

Definition setup_answer : str :=
  Eval vm_compute in
    utf8 "⚙️ Настройка канала DostyqTV:" ++ nl ++ nl ++
    utf8 "📍 Найдите нас на позиции 44 в кабельных сетях. Если не получается, обратитесь к вашему оператору кабельного ТВ.".

Definition contact_answer : str :=
  Eval vm_compute in
    utf8 "📞 Контакты DostyqTV:" ++ nl ++ nl ++
    utf8 "☎️ Поддержка: +7 777 013 3812" ++ nl ++
    utf8 "📧 Email: support@dostyq.tv" ++ nl ++
    utf8 "🌐 Сайт: https://dostyq.tv".

Definition advert_answer : str :=
  Eval vm_compute in
    utf8 "📢 По вопросам размещения рекламы:" ++ nl ++ nl ++
    utf8 "📧 reklama@dostyq.tv" ++ nl ++
    utf8 "☎️ +7 (727) 24-24-25".

Definition greeting_answer : str :=
  Eval vm_compute in
    utf8 "👋 Здравствуйте! Я помогу вам с вопросами по телеканалу DostyqTV." ++ nl ++ nl ++
    utf8 "🔍 Используйте /help для просмотра доступных команд или просто опишите вашу проблему.".

Definition get_fallback_response (user_message : str) : str :=
  let message_lower := lower user_message in
  if any_in schedule_words message_lower then schedule_answer
  else if any_in quality_words message_lower then quality_answer
  else if any_in setup_words message_lower then setup_answer
  else if any_in contact_words message_lower then contact_answer
  else if any_in advert_words message_lower then advert_answer
  else greeting_answer.

(** The responder as the specification words it: the keyword sets in
    their fixed order of priority, each with its canned answer; the
    answer of the first set with a keyword inside the lower-cased
    message, the greeting when there is none. *)
Definition category : Type := (list str * str)%type.

Definition categories : list category :=
  [(schedule_words, schedule_answer);
   (quality_words, quality_answer);
   (setup_words, setup_answer);
   (contact_words, contact_answer);
   (advert_words, advert_answer)].

Definition matches (s : str) (c : category) : bool := any_in (fst c) s.

Definition respond_spec (user_message : str) : str :=
  match find (matches (lower user_message)) categories with
  | Some c => snd c
  | None => greeting_answer
  end.

(** ** Python exceptions and results *)

(** The exception classes met on the modelled paths.  The last three
    derive from [BaseException] only (Python 3.8 and later), so an
    [except Exception] clause lets them through. *)
Inductive exn : Type :=
| KeyError | IndexError | TypeError | AttributeError
| ClientError | ContentTypeError | JSONDecodeError | TimeoutError
| OperationalError | DataError | OverflowError | UnicodeEncodeError
| CancelledError | KeyboardInterrupt | SystemExit.

Definition is_Exception (e : exn) : bool :=
  match e with
  | CancelledError | KeyboardInterrupt | SystemExit => false
  | _ => true
  end.

Inductive result (A : Type) : Type :=
| Ok (a : A)
| Raise (e : exn).
Arguments Ok {A} a.
Arguments Raise {A} e.

(** ** JSON values as Python objects *)

Inductive number : Type :=
| NInt (z : Z)
| NFloat (mantissa exponent : Z)
| NInf (negative : bool)
| NNaN.

#[warnings="-register-all"]
Inductive pyval : Type :=
| PNone
| PBool (b : bool)
| PNum (n : number)
| PStr (s : str)
| PList (items : list pyval)
| PDict (items : list (str * pyval)).

(** [bool(v)]. *)
Definition truthy (v : pyval) : bool :=
  match v with
  | PNone => false
  | PBool b => b
  | PNum (NInt z) => negb (z =? 0)
  | PNum (NFloat m _) => negb (m =? 0)
  | PNum _ => true
  | PStr s => negb (str_eqb s [])
  | PList l => match l with [] => false | _ => true end
  | PDict d => match d with [] => false | _ => true end
  end.

(** A dict holds one binding per key; [dict_get] finds it. *)
Definition dict_get {A : Type} (key : str) (d : list (str * A)) : option A :=
  match find (fun kv => str_eqb (fst kv) key) d with
  | Some kv => Some (snd kv)
  | None => None
  end.

(** [d[key]] on a dict of the program's own. *)
Definition dict_item {A : Type} (d : list (str * A)) (key : str) : result A :=
  match dict_get key d with
  | Some v => Ok v
  | None => Raise KeyError
  end.

Definition is_str (key : str) (v : pyval) : bool :=
  match v with
  | PStr s => str_eqb s key
  | _ => false
  end.

(** [key in v] for a string [key]. *)
Definition py_in (key : str) (v : pyval) : result bool :=
  match v with
  | PDict d => Ok (bool_decide (is_Some (dict_get key d)))
  | PList l => Ok (existsb (is_str key) l)
  | PStr s => Ok (contains key s)
  | _ => Raise TypeError
  end.

(** [v[key]] for a string [key]. *)
Definition getitem_str (v : pyval) (key : str) : result pyval :=
  match v with
  | PDict d => dict_item d key
  | _ => Raise TypeError
  end.

Definition and_then {A B : Type} (r : result A) (k : A -> result B) : result B :=
  match r with
  | Ok a => k a
  | Raise e => Raise e
  end.

(** [v[0]]; the keys of a decoded JSON object are strings, so a dict
    has no key [0]. *)
Definition getitem_0 (v : pyval) : result pyval :=
  match v with
  | PList [] => Raise IndexError
  | PList (x :: _) => Ok x
  | PStr [] => Raise IndexError
  | PStr (c :: _) => Ok (PStr [c])
  | PDict _ => Raise KeyError
  | _ => Raise TypeError
  end.

(** ** Telegram objects *)

Record User : Type := mkUser {
  tg_id : Z;
  username : option str;
  first_name : str;
  last_name : option str
}.

(** A text message; [command] is the bot command that opens the text,
    as the transport recognises it.  A message without text reaches
    no handler: an update with such a message counts as [Other]
    below. *)
Record Message : Type := mkMessage {
  text : str;
  command : option str
}.

Record CallbackQuery : Type := mkCallbackQuery {
  data : str
}.

(** What an update carries.  The Bot API puts at most one of its
    optional fields into an update: a new message, a new version of a
    message that was edited, a pressed button, or something else
    (an inline query, a poll answer, a change of chat membership, ...)
    that no handler of the bot takes.  Channel posts, which have no
    sender, are left out. *)
Inductive content : Type :=
| NewMessage (m : Message)
| EditedMessage (m : Message)
| Callback (q : CallbackQuery)
| Other.

Record Update : Type := mkUpdate {
  effective_user : User;
  effective_chat_id : Z;
  carries : content
}.

(** [update.message], [update.edited_message] and
    [update.callback_query]. *)
Definition message (update : Update) : option Message :=
  match carries update with
  | NewMessage m => Some m
  | _ => None
  end.

Definition edited_message (update : Update) : option Message :=
  match carries update with
  | EditedMessage m => Some m
  | _ => None
  end.

Definition callback_query (update : Update) : option CallbackQuery :=
  match carries update with
  | Callback q => Some q
  | _ => None
  end.

(** ** The persisted store (main.py, [init_db])

    [created_at] and [resolved_at] are in seconds, what
    CURRENT_TIMESTAMP gives; [date t] is the calendar day of [t].
    [last_activity] is the [datetime.now()] of the call. *)

Record user_row : Type := mkUserRow {
  u_username : option str;
  u_first_name : option str;
  u_last_name : option str;
  u_created_at : Z;
  u_last_activity : Z
}.

Record ticket_row : Type := mkTicketRow {
  t_user_id : Z;
  t_message : str;
  t_status : str;
  t_created_at : Z;
  t_resolved_at : option Z;
  t_category : str
}.

Record stats_row : Type := mkStatsRow {
  users_count : Z;
  messages_count : Z;
  tickets_count : Z
}.

(** [users] is keyed by its INTEGER PRIMARY KEY, [tickets] by its
    AUTOINCREMENT key; [tickets_seq] is the entry of [tickets] in
    sqlite_sequence, the largest key ever handed out. *)
Record store : Type := mkStore {
  users : gmap Z user_row;
  tickets : gmap Z ticket_row;
  tickets_seq : Z;
  stats : gmap Z stats_row
}.

Definition empty_store : store := mkStore ∅ ∅ 0 ∅.

Definition with_users (f : gmap Z user_row -> gmap Z user_row) (st : store) : store :=
  mkStore (f (users st)) (tickets st) (tickets_seq st) (stats st).

Definition date (t : Z) : Z := t / 86400.

(** ** What SQLite takes

    [cursor.execute(sql, parameters)] of the [sqlite3] module binds
    the parameters one after the other before the statement runs, and
    SQLite refuses a row that is longer than its length limit. *)

Module SQLite.

(** A parameter of a statement or a column of a row: NULL, an integer,
    a text, or a text of [n] ASCII characters whose content is left
    out (a timestamp). *)
Inductive value : Type :=
| Null
| Integer (z : Z)
| Text (s : str)
| Ascii (n : Z).

Definition of_option (s : option str) : value :=
  match s with
  | Some s => Text s
  | None => Null
  end.

Definition min_int64 : Z := - 2 ^ 63.
Definition max_int64 : Z := 2 ^ 63 - 1.
Definition INT_MAX : Z := 2 ^ 31 - 1.

(** SQLITE_MAX_LENGTH: the largest string and the largest row, in
    bytes. *)
Definition LIMIT_LENGTH : Z := 1000000000.

Definition is_int64 (z : Z) : bool := (min_int64 <=? z) && (z <=? max_int64).

Definition is_surrogate (c : Z) : bool := (0xD800 <=? c) && (c <=? 0xDFFF).

Definition utf8_bytes (c : Z) : Z :=
  if c <? 0x80 then 1
  else if c <? 0x800 then 2
  else if c <? 0x10000 then 3
  else 4.

Definition utf8_length (s : str) : Z := foldr (fun c n => utf8_bytes c + n) 0 s.

Definition check_length (n : Z) : result unit :=
  if INT_MAX <? n then Raise OverflowError
  else if LIMIT_LENGTH <? n then Raise DataError
  else Ok tt.

(** Binding one parameter: an [int] must fit a signed 64-bit integer,
    a [str] must encode as UTF-8 (a lone surrogate does not) and be
    no longer than the limits. *)
Definition bind_param (v : value) : result unit :=
  match v with
  | Null => Ok tt
  | Integer z => if is_int64 z then Ok tt else Raise OverflowError
  | Text s =>
      if existsb is_surrogate s then Raise UnicodeEncodeError
      else check_length (utf8_length s)
  | Ascii n => check_length n
  end.

(** The first parameter that cannot be bound ends the call. *)
Fixpoint bind_parameters (parameters : list value) : result unit :=
  match parameters with
  | [] => Ok tt
  | v :: rest => and_then (bind_param v) (fun _ => bind_parameters rest)
  end.

(** The record format: a header with one variable-length integer per
    column (its serial type), preceded by its own length, and then the
    columns.  An integer takes 0 to 8 bytes by its magnitude, a text
    its bytes, NULL nothing. *)
Definition varint_length (v : Z) : Z :=
  if v <? 2 ^ 7 then 1
  else if v <? 2 ^ 14 then 2
  else if v <? 2 ^ 21 then 3
  else if v <? 2 ^ 28 then 4
  else if v <? 2 ^ 35 then 5
  else if v <? 2 ^ 42 then 6
  else if v <? 2 ^ 49 then 7
  else if v <? 2 ^ 56 then 8
  else 9.

Definition integer_bytes (z : Z) : Z :=
  let u := if z <? 0 then - z - 1 else z in
  if u <=? 127 then (if (z =? 0) || (z =? 1) then 0 else 1)
  else if u <=? 32767 then 2
  else if u <=? 8388607 then 3
  else if u <=? 2147483647 then 4
  else if u <=? 140737488355327 then 6
  else 8.

Definition header_bytes (v : value) : Z :=
  match v with
  | Null => 1
  | Integer _ => 1
  | Text s => varint_length (2 * utf8_length s + 13)
  | Ascii n => varint_length (2 * n + 13)
  end.

Definition data_bytes (v : value) : Z :=
  match v with
  | Null => 0
  | Integer z => integer_bytes z
  | Text s => utf8_length s
  | Ascii n => n
  end.

Definition record_length (row : list value) : Z :=
  let types := foldr (fun v n => header_bytes v + n) 0 row in
  let header :=
    if types <=? 126 then types + 1
    else
      let n := varint_length types in
      if n <? varint_length (types + n) then types + n + 1 else types + n in
  header + foldr (fun v n => data_bytes v + n) 0 row.

Definition fits (row : list value) : bool := record_length row <=? LIMIT_LENGTH.

End SQLite.

(** The largest rowid of SQLite, a signed 64-bit integer. *)
Definition max_rowid : Z := 2 ^ 63 - 1.

Definition largest_key {A : Type} (t : gmap Z A) : Z :=
  foldr Z.max 0 (fst <$> map_to_list t).

(** AUTOINCREMENT: one more than the largest key that ever existed in
    the table; no key is left once [max_rowid] has been used. *)
Definition next_ticket_id (st : store) : option Z :=
  let largest := Z.max (tickets_seq st) (largest_key (tickets st)) in
  if largest <? max_rowid then Some (largest + 1) else None.

Definition is_open (r : ticket_row) : bool := str_eqb (t_status r) (utf8 "open").

Definition count_rows {A : Type} (p : A -> bool) (t : gmap Z A) : Z :=
  Z.of_nat (length (filter (fun kv => p (snd kv) = true) (map_to_list t))).

(** ** Effects

    A handler runs against a [world]: the store and the trace of what
    it did to the outside (log records, SQL statements, the HTTP
    request, Telegram calls), oldest first.  What the outside answers
    is an input of the call, the [env]. *)

Inductive log_record : Type :=
| WarnNoGeminiKey
| ErrGemini (e : exn)
| ErrGeminiFormat (result : pyval)
| ErrGeminiStatus (status : Z) (error_text : str)
| ErrBotTokenUnset
| ErrGeminiKeyUnset
| InfoStarted.

Inductive sql : Type :=
| CreateUsers | CreateTickets | CreateStats
| ReplaceUser
| InsertTicket
| CountUsers | CountOpenTickets | CountTicketsToday.

(** Pieces of a formatted string. *)
Inductive frag : Type :=
| Lit (s : str)
| Int (z : Z)
| Val (v : pyval)
| Json (v : pyval)
| Strftime (t : Z).

Definition ftext : Type := list frag.

(** Rows of an inline keyboard: button label and callback data. *)
Definition keyboard : Type := list (str * str).

Inductive handler_id : Type :=
| HStart | HHelp | HTicket | HStats | HCallback | HMessage.

Inductive event : Type :=
| EvLog (r : log_record)
| EvSql (q : sql)
| EvHttpPost (api_key : option str) (prompt : ftext)
| EvReply (chat_id : Z) (body : ftext) (markup : option keyboard) (markdown : bool)
| EvEdit (body : ftext)
| EvAnswer
| EvChatAction (chat_id : Z)
| EvBuild (token : str)
| EvAddHandler (h : handler_id)
| EvSetCommands (commands : list (str * str))
| EvPolling
| EvHandlerError (e : exn).

(** What [session.post] met: an exception, or a response with its
    status, what [response.json()] gives and what [response.text()]
    gives. *)
Inductive http_outcome : Type :=
| PostRaises (e : exn)
| Response (status : Z) (json : result pyval) (body : result str).

Record env : Type := mkEnv {
  now : Z;                 (* datetime.now(), in microseconds *)
  current_timestamp : Z;   (* CURRENT_TIMESTAMP of the store, in seconds *)
  http : http_outcome
}.

(** The length of [str(datetime.now())] as the [sqlite3] module binds
    it: the microseconds are left out when they are zero. *)
Definition isoformat_length (t : Z) : Z :=
  if t mod 1000000 =? 0 then 19 else 26.

Record world : Type := mkWorld {
  db : store;
  trace : list event
}.

Definition M (A : Type) : Type := world -> result A * world.

Definition ret {A : Type} (a : A) : M A := fun w => (Ok a, w).

Definition bind {A B : Type} (m : M A) (k : A -> M B) : M B :=
  fun w =>
    match m w with
    | (Ok a, w') => k a w'
    | (Raise e, w') => (Raise e, w')
    end.

Definition raise {A : Type} (e : exn) : M A := fun w => (Raise e, w).

Definition lift {A : Type} (r : result A) : M A := fun w => (r, w).

Definition emit (ev : event) : M unit :=
  fun w => (Ok tt, mkWorld (db w) (trace w ++ [ev])).

Definition get_db : M store := fun w => (Ok (db w), w).

Definition put_db (st : store) : M unit :=
  fun w => (Ok tt, mkWorld st (trace w)).

(** [try: m except Exception as e: handler e]. *)
Definition try_except {A : Type} (m : M A) (handler : exn -> M A) : M A :=
  fun w =>
    match m w with
    | (Raise e, w') => if is_Exception e then handler e w' else (Raise e, w')
    | r => r
    end.

Notation "'let!' x ':=' m 'in' k" := (bind m (fun x => k))
  (at level 10, x name, m at level 100, k at level 200).
Notation "m ;;; k" := (bind m (fun _ => k))
  (at level 100, k at level 200, right associativity).

Definition log (r : log_record) : M unit := emit (EvLog r).

(** [cursor.execute(q)] on a fresh connection. *)
Definition execute (q : sql) : M unit := emit (EvSql q).

(** ** Configuration (main.py, [__init__]) *)

Record config : Type := mkConfig {
  BOT_TOKEN : option str;
  GEMINI_API_KEY : option str;
  ADMIN_IDS : list Z
}.

(** [not v] for an environment variable: unset or empty. *)
Definition unset (v : option str) : bool :=
  match v with
  | None => true
  | Some s => str_eqb s []
  end.

(** ** The bot (main.py, class [DostyqTVBot]) *)

Definition knowledge_base : list (str * list (str * str)) :=
  Eval vm_compute in
    [(utf8 "программы",
      [(utf8 "новости", utf8 "Новости запустятся в ближайшее время. Следите за обновлениями!");
       (utf8 "сериалы", utf8 "Популярные сериалы: " ++ dquote ++ utf8 "Троцкий" ++ dquote ++ utf8 ", " ++ dquote ++ utf8 "Детективный синдром" ++ dquote ++ utf8 ", " ++ dquote ++ utf8 "Актер" ++ dquote);
       (utf8 "детские", utf8 "Детские программы запустятся в ближайшее время. Следите за обновлениями!");
       (utf8 "спорт", utf8 "Спортивные программы запустятся в ближайшее время. Следите за обновлениями!")]);
     (utf8 "технические",
      [(utf8 "качество", utf8 "Вещание в HD качестве 1080p");
       (utf8 "каналы", utf8 "DostyqTV доступен на позиции 44 в кабельных сетях");
       (utf8 "интернет", utf8 "Онлайн трансляция доступна на сайте dostyq.tv");
       (utf8 "приложение", utf8 "Мобильное приложение DostyqTV в App Store и Google Play")]);
     (utf8 "контакты",
      [(utf8 "телефон", utf8 "+7 777 013 3812");
       (utf8 "email", utf8 "support@dostyq.tv");
       (utf8 "адрес", utf8 "https://dostyq.tv");
       (utf8 "сайт", utf8 "https://dostyq.tv")])].

Definition faq : list (str * str) :=
  Eval vm_compute in
    [(utf8 "Как настроить канал?", utf8 "Для настройки канала обратитесь к оператору кабельного ТВ или найдите канал DostyqTV на позиции 44");
     (utf8 "Проблемы с качеством", utf8 "Проверьте силу сигнала, перезагрузите приставку. Если проблема остается - звоните +7 771 300 05 02, +7 702 300 05 01");
     (utf8 "Расписание программ", utf8 "Полное расписание доступно на сайте dostyq.tv в разделе " ++ dquote ++ utf8 "Каталог" ++ dquote);
     (utf8 "Реклама на канале", utf8 "По вопросам размещения рекламы: reklama@dostyq.tv или +7 (727) 24-24-25")].

Definition dict_value (d : list (str * str)) : pyval :=
  PDict (map (fun kv => (fst kv, PStr (snd kv))) d).

Definition knowledge_value : pyval :=
  PDict (map (fun kv => (fst kv, dict_value (snd kv))) knowledge_base).

(** *** The generation client ([get_ai_response], [_call_gemini]) *)

Definition system_prompt : ftext :=
  Eval vm_compute in
    [Lit (nl ++
         utf8 "            Ты - помощник службы поддержки телеканала DostyqTV. Отвечай на казахском или русском языке в зависимости от языка вопроса." ++ nl ++ nl ++
         utf8 "            База знаний:" ++ nl ++
         utf8 "            ");
     Json knowledge_value;
     Lit (nl ++ nl ++
         utf8 "            FAQ:" ++ nl ++
         utf8 "            ");
     Json (dict_value faq);
     Lit (nl ++ nl ++
         utf8 "            Правила:" ++ nl ++
         utf8 "            1. Всегда будь вежливым и профессиональным." ++ nl ++
         utf8 "            2. Если не знаешь точного ответа, предложи обратиться в службу поддержки, указав контакты." ++ nl ++
         utf8 "            3. Используй эмодзи для улучшения восприятия." ++ nl ++
         utf8 "            4. Ответы должны быть краткими, но информативными." ++ nl ++
         utf8 "            5. При технических проблемах предлагай пошаговые решения." ++ nl ++
         utf8 "            ")].

Definition candidates : str := Eval vm_compute in utf8 "candidates".

(** [result['candidates'][0]['content']['parts'][0]['text']]. *)
Definition first_candidate_text (res : pyval) : result pyval :=
  and_then (getitem_str res candidates) (fun c =>
  and_then (getitem_0 c) (fun c0 =>
  and_then (getitem_str c0 (utf8 "content")) (fun content =>
  and_then (getitem_str content (utf8 "parts")) (fun parts =>
  and_then (getitem_0 parts) (fun part0 =>
  getitem_str part0 (utf8 "text")))))).

Definition _call_gemini (cfg : config) (e : env)
    (user_message : str) (system_prompt : ftext) : M pyval :=
  emit (EvHttpPost (GEMINI_API_KEY cfg)
          (system_prompt ++ [Lit (nl ++ nl ++
    utf8 "Пользователь: "); Lit user_message])) ;;;
  match http e with
  | PostRaises ex => raise ex
  | Response status json body =>
      if status =? 200 then
        let! result := lift json in
        let! present := lift (py_in candidates result) in
        let! filled :=
          if present then
            let! c := lift (getitem_str result candidates) in ret (truthy c)
          else ret false in
        if filled then lift (first_candidate_text result)
        else
          log (ErrGeminiFormat result) ;;;
          ret (PStr (get_fallback_response user_message))
      else
        let! error_text := lift body in
        log (ErrGeminiStatus status error_text) ;;;
        ret (PStr (get_fallback_response user_message))
  end.

Definition get_ai_response (cfg : config) (e : env) (user_message : str) : M pyval :=
  if unset (GEMINI_API_KEY cfg) then
    log WarnNoGeminiKey ;;;
    ret (PStr (get_fallback_response user_message))
  else
    try_except
      (_call_gemini cfg e user_message system_prompt)
      (fun ex =>
         log (ErrGemini ex) ;;;
         ret (PStr (get_fallback_response user_message))).

(** The candidate list of a decoded body, when it has one. *)
Definition candidate_list (res : pyval) : option pyval :=
  match res with
  | PDict d => dict_get candidates d
  | _ => None
  end.

(** The outcomes of the request that count as a failure: a thrown
    network error, a status other than 200, a body that does not
    parse, a body without a candidate list or with an empty one, and a
    candidate without the expected text. *)
Inductive generation_failed : http_outcome -> Prop :=
| failed_request (ex : exn) :
    is_Exception ex = true ->
    generation_failed (PostRaises ex)
| failed_status (status : Z) (json : result pyval) (body : result str) :
    status <> 200 ->
    (forall ex, body = Raise ex -> is_Exception ex = true) ->
    generation_failed (Response status json body)
| failed_parse (ex : exn) (body : result str) :
    is_Exception ex = true ->
    generation_failed (Response 200 (Raise ex) body)
| failed_missing (res : pyval) (body : result str) :
    candidate_list res = None ->
    generation_failed (Response 200 (Ok res) body)
| failed_empty (res c : pyval) (body : result str) :
    candidate_list res = Some c ->
    truthy c = false ->
    generation_failed (Response 200 (Ok res) body)
| failed_shape (res : pyval) (ex : exn) (body : result str) :
    first_candidate_text res = Raise ex ->
    generation_failed (Response 200 (Ok res) body).

(** *** The persistence layer ([save_user], [create_ticket]) *)

Definition general : str := Eval vm_compute in utf8 "general".

Definition status_open : str := Eval vm_compute in utf8 "open".

(** The parameters of the statement of [save_user], and the row it
    writes: [id] is the rowid and takes no room in the record,
    [created_at] is the text of CURRENT_TIMESTAMP. *)
Definition user_parameters (e : env) (user : User) : list SQLite.value :=
  [SQLite.Integer (tg_id user); SQLite.of_option (username user);
   SQLite.Text (first_name user); SQLite.of_option (last_name user);
   SQLite.Ascii (isoformat_length (now e))].

Definition user_record (e : env) (user : User) : list SQLite.value :=
  [SQLite.Null; SQLite.of_option (username user);
   SQLite.Text (first_name user); SQLite.of_option (last_name user);
   SQLite.Ascii 19; SQLite.Ascii (isoformat_length (now e))].

(** INSERT OR REPLACE INTO users (id, username, first_name, last_name,
    last_activity): a row with the same id is deleted, then the new row
    is inserted; [created_at] is not among the columns and takes its
    default, CURRENT_TIMESTAMP.  When a parameter cannot be bound or
    the row is too long the call raises, before [conn.commit()], and
    the database stays as it was. *)
Definition save_user (e : env) (user : User) : M unit :=
  lift (SQLite.bind_parameters (user_parameters e user)) ;;;
  execute ReplaceUser ;;;
  if SQLite.fits (user_record e user) then
    let! st := get_db in
    let row :=
      mkUserRow (username user) (Some (first_name user)) (last_name user)
                (current_timestamp e) (now e) in
    put_db (with_users (fun us => <[tg_id user := row]> (delete (tg_id user) us)) st)
  else raise DataError.

Definition ticket_parameters (user_id : Z) (message_text category : str)
    : list SQLite.value :=
  [SQLite.Integer user_id; SQLite.Text message_text; SQLite.Text category].

Definition ticket_record (user_id : Z) (message_text category : str)
    : list SQLite.value :=
  [SQLite.Null; SQLite.Integer user_id; SQLite.Text message_text;
   SQLite.Text status_open; SQLite.Ascii 19; SQLite.Null; SQLite.Text category].

(** INSERT INTO tickets (user_id, message, category): [status] and
    [created_at] take their defaults, [resolved_at] is NULL.
    [category = None] stands for a call that leaves the argument out.
    The result is [cursor.lastrowid].  The key is found before the row
    is put together; an exception leaves the database as it was. *)
Definition create_ticket (e : env) (user_id : Z) (message_text : str)
    (category : option str) : M Z :=
  let category := default general category in
  lift (SQLite.bind_parameters (ticket_parameters user_id message_text category)) ;;;
  execute InsertTicket ;;;
  let! st := get_db in
  match next_ticket_id st with
  | None => raise OperationalError
  | Some ticket_id =>
      if SQLite.fits (ticket_record user_id message_text category) then
        let row :=
          mkTicketRow user_id message_text status_open (current_timestamp e)
                      None category in
        put_db (mkStore (users st) (<[ticket_id := row]> (tickets st))
                        ticket_id (stats st)) ;;;
        ret ticket_id
      else raise DataError
  end.

(** *** The handlers *)

(** [update.message.reply_text(...)]. *)
Definition reply_text (update : Update) (body : ftext)
    (markup : option keyboard) (markdown : bool) : M unit :=
  match message update with
  | None => raise AttributeError
  | Some _ => emit (EvReply (effective_chat_id update) body markup markdown)
  end.

Definition start (e : env) (update : Update) : M unit :=
  let user := effective_user update in
  save_user e user ;;;
  let welcome_message :=
    [Lit (nl ++
          utf8 "👋 Добро пожаловать в службу поддержки DostyqTV!" ++ nl ++ nl ++
          utf8 "Привет, ");
     Lit (first_name user);
     Lit (utf8 "! Я ваш виртуальный помощник. Помогу решить любые вопросы связанные с просмотром DostyqTV." ++ nl ++ nl ++
          utf8 "🔥 Что я умею:" ++ nl ++
          utf8 "• Отвечать на вопросы о программах передач" ++ nl ++
          utf8 "• Помогать с техническими проблемами" ++ nl ++
          utf8 "• Предоставлять контактную информацию" ++ nl ++
          utf8 "• Создавать обращения в службу поддержки" ++ nl ++ nl ++
          utf8 "💡 Просто напишите ваш вопрос или используйте команды ниже:" ++ nl ++
          utf8 "        ")] in
  let keyboard :=
    [(utf8 "📺 Программа передач", utf8 "schedule");
     (utf8 "🔧 Техническая поддержка", utf8 "tech_support");
     (utf8 "📞 Контакты", utf8 "contacts");
     (utf8 "📋 FAQ", utf8 "faq")] in
  reply_text update welcome_message (Some keyboard) false.

Definition help_command (update : Update) : M unit :=
  let help_text :=
    [Lit (nl ++
          utf8 "🤖 Команды бота DostyqTV:" ++ nl ++ nl ++
          utf8 "/start - Начать работу с ботом" ++ nl ++
          utf8 "/help - Показать это сообщение" ++ nl ++
          utf8 "/schedule - Программа передач" ++ nl ++
          utf8 "/contact - Контактная информация" ++ nl ++
          utf8 "/faq - Часто задаваемые вопросы" ++ nl ++
          utf8 "/ticket - Создать обращение в поддержку" ++ nl ++
          utf8 "/status - Проверить статус обращения" ++ nl ++ nl ++
          utf8 "💬 Вы также можете просто написать ваш вопрос, и я постараюсь помочь!" ++ nl ++
          utf8 "        ")] in
  reply_text update help_text None false.

Definition ticket_placeholder : str :=
  Eval vm_compute in utf8 "Пользователь запросил создание тикета.".

Definition ticket_command (e : env) (update : Update) : M unit :=
  let user_id := tg_id (effective_user update) in
  let message_text := ticket_placeholder in
  let! ticket_id := create_ticket e user_id message_text None in
  let response_text :=
    [Lit (utf8 "📋 Ваше обращение #");
     Int ticket_id;
     Lit (utf8 " создано!" ++ nl ++ nl ++
          utf8 "Наши специалисты скоро свяжутся с вами. Пожалуйста, опишите вашу проблему подробнее в следующем сообщении.")] in
  match callback_query update with
  | Some _ => emit (EvEdit response_text)
  | None => reply_text update response_text None false
  end.

Definition join (sep : str) (items : list str) : str :=
  match items with
  | [] => []
  | x :: rest => x ++ concat (map (fun y => sep ++ y) rest)
  end.

Definition handle_callback (e : env) (update : Update) : M unit :=
  match callback_query update with
  | None => raise AttributeError
  | Some query =>
      emit EvAnswer ;;;
      let data := data query in
      if str_eqb data (utf8 "schedule") then
        let! schedule_text := lift (dict_item faq (utf8 "Расписание программ")) in
        emit (EvEdit [Lit (utf8 "📅 Расписание программ:" ++ nl ++ nl); Lit schedule_text])
      else if str_eqb data (utf8 "tech_support") then
        let! tech_text := lift (dict_item faq (utf8 "Проблемы с качеством")) in
        emit (EvEdit [Lit (utf8 "🔧 Техническая поддержка:" ++ nl ++ nl); Lit tech_text])
      else if str_eqb data (utf8 "contacts") then
        let! contacts := lift (dict_item knowledge_base (utf8 "контакты")) in
        let! phone := lift (dict_item contacts (utf8 "телефон")) in
        let! email := lift (dict_item contacts (utf8 "email")) in
        let! site := lift (dict_item contacts (utf8 "сайт")) in
        emit (EvEdit [Lit (utf8 "📞 Контакты:" ++ nl ++ nl ++
    utf8 "Телефон: "); Lit phone;
                      Lit (nl ++
    utf8 "Email: "); Lit email;
                      Lit (nl ++
    utf8 "Сайт: "); Lit site])
      else if str_eqb data (utf8 "faq") then
        let faq_items :=
          map (fun qa => utf8 "❓ " ++ fst qa ++ nl ++ utf8 "✅ " ++ snd qa) faq in
        let faq_text := join (nl ++ nl) faq_items in
        emit (EvEdit [Lit (utf8 "📋 Часто задаваемые вопросы:" ++ nl ++ nl); Lit faq_text])
      else if str_eqb data (utf8 "create_ticket") then
        ticket_command e update
      else ret tt
  end.

Definition handle_message (cfg : config) (e : env) (update : Update) : M unit :=
  let user := effective_user update in
  save_user e user ;;;
  match message update with
  | None => raise AttributeError
  | Some m =>
      let user_message := text m in
      emit (EvChatAction (effective_chat_id update)) ;;;
      let! response := get_ai_response cfg e user_message in
      let keyboard :=
        [(utf8 "📞 Связаться с поддержкой", utf8 "contacts");
         (utf8 "📋 Создать обращение", utf8 "create_ticket")] in
      reply_text update [Val response] (Some keyboard) true
  end.

Definition denied_text : str :=
  Eval vm_compute in utf8 "❌ У вас нет прав для просмотра статистики".

Definition get_stats (cfg : config) (e : env) (update : Update) : M unit :=
  if negb (existsb (Z.eqb (tg_id (effective_user update))) (ADMIN_IDS cfg)) then
    reply_text update [Lit denied_text] None false
  else
    execute CountUsers ;;;
    let! st := get_db in
    let total_users := Z.of_nat (size (users st)) in
    execute CountOpenTickets ;;;
    let! st := get_db in
    let open_tickets := count_rows is_open (tickets st) in
    execute CountTicketsToday ;;;
    let! st := get_db in
    let today_tickets :=
      count_rows (fun r => date (t_created_at r) =? date (current_timestamp e))
                 (tickets st) in
    let stats_text :=
      [Lit (nl ++
            utf8 "📊 Статистика DostyqTV Bot:" ++ nl ++ nl ++
            utf8 "👥 Пользователи: "); Int total_users;
       Lit (nl ++
    utf8 "🎫 Открытые обращения: "); Int open_tickets;
       Lit (nl ++
    utf8 "📋 Обращения за сегодня: "); Int today_tickets;
       Lit (nl ++ nl ++
    utf8 "📅 Дата: "); Strftime (now e);
       Lit (nl ++
    utf8 "        ")] in
    reply_text update stats_text None false.

(** *** Routing ([setup_handlers]) and start-up ([post_init], [run]) *)

Definition setup_handlers : list event :=
  [EvAddHandler HStart; EvAddHandler HHelp; EvAddHandler HTicket;
   EvAddHandler HStats; EvAddHandler HCallback; EvAddHandler HMessage].

(** The message of an update that passes [filters.UpdateType.MESSAGES],
    the default filter of a [CommandHandler]: a new message or an
    edited one. *)
Definition filtered_message (update : Update) : option Message :=
  match carries update with
  | NewMessage m => Some m
  | EditedMessage m => Some m
  | _ => None
  end.

(** [CommandHandler(name, ...)] accepts a new or edited message that
    opens with the command. *)
Definition command_handler (name : string) (update : Update) : bool :=
  match filtered_message update with
  | Some m =>
      match command m with
      | Some c => str_eqb c (utf8 name)
      | None => false
      end
  | None => false
  end.

(** [MessageHandler(filters.TEXT & ~filters.COMMAND, ...)] accepts a
    new or edited message that opens with no command. *)
Definition text_handler (update : Update) : bool :=
  match filtered_message update with
  | Some m => match command m with Some _ => false | None => true end
  | None => false
  end.

(** The first handler, in the order of registration, that accepts the
    update handles it; an update no handler accepts is dropped. *)
Definition dispatch (cfg : config) (e : env) (update : Update) : M unit :=
  if command_handler "start" update then start e update
  else if command_handler "help" update then help_command update
  else if command_handler "ticket" update then ticket_command e update
  else if command_handler "stats" update then get_stats cfg e update
  else if bool_decide (is_Some (callback_query update)) then handle_callback e update
  else if text_handler update then handle_message cfg e update
  else ret tt.

(** The transport runs every update in a task of its own: an exception
    of the handler ends that update and is logged. *)
Definition process_update (cfg : config) (w : world) (eu : env * Update) : world :=
  match dispatch cfg (fst eu) (snd eu) w with
  | (Ok _, w') => w'
  | (Raise ex, w') => mkWorld (db w') (trace w' ++ [EvHandlerError ex])
  end.

(** CREATE TABLE IF NOT EXISTS, three times: tables that exist are
    left as they are. *)
Definition init_db : M unit :=
  execute CreateUsers ;;; execute CreateTickets ;;; execute CreateStats.

Definition set_bot_commands : M unit :=
  emit (EvSetCommands
    [(utf8 "start", utf8 "🚀 Начать работу с ботом");
     (utf8 "help", utf8 "❓ Помощь и список команд");
     (utf8 "schedule", utf8 "📺 Программа передач");
     (utf8 "contact", utf8 "📞 Контактная информация");
     (utf8 "faq", utf8 "❓ Часто задаваемые вопросы");
     (utf8 "ticket", utf8 "📋 Создать обращение")]).

Definition post_init : M unit := init_db ;;; set_bot_commands.

(** [run]: [file] is the database met at start-up ([None]: no tables
    yet), [inbox] the updates the transport would deliver, each with
    what the outside answers while it is handled.  The result is the
    database left behind and everything the process did. *)
Definition run (cfg : config) (file : option store) (inbox : list (env * Update))
    : option store * list event :=
  if unset (BOT_TOKEN cfg) then (file, [EvLog ErrBotTokenUnset])
  else if unset (GEMINI_API_KEY cfg) then (file, [EvLog ErrGeminiKeyUnset])
  else
    let application :=
      mkWorld (default empty_store file)
              ([EvBuild (default [] (BOT_TOKEN cfg))] ++ setup_handlers
               ++ [EvLog InfoStarted; EvPolling]) in
    let started := snd (post_init application) in
    let final := foldl (process_update cfg) started inbox in
    (Some (db final), trace final).

(** *** Construction ([__init__]) and the entry point *)

(** [s.split(',')]: the fields between the commas, empty ones kept. *)
Fixpoint split_comma (s : str) : list str :=
  match s with
  | [] => [[]]
  | c :: s' =>
      if c =? 44 then [] :: split_comma s'
      else match split_comma s' with
           | [] => [[c]]
           | field :: fields => (c :: field) :: fields
           end
  end.

Definition nonempty (x : str) : bool :=
  match x with
  | [] => false
  | _ :: _ => true
  end.

Section Construction.

(** [int(x)] of Python, [None] when it raises [ValueError]. *)
Variable int : str -> option Z.

(** [[int(x) for x in fields if x]]: the first field that [int]
    refuses ends the comprehension with its error. *)
Fixpoint admin_ids (fields : list str) : option (list Z) :=
  match fields with
  | [] => Some []
  | x :: rest =>
      if nonempty x then
        match int x with
        | None => None
        | Some n =>
            match admin_ids rest with
            | None => None
            | Some ns => Some (n :: ns)
            end
        end
      else admin_ids rest
  end.

(** [DostyqTVBot()]: [getenv] is [os.getenv] on the environment of the
    process; the result is [None] when the constructor raises. *)
Definition __init__ (getenv : str -> option str) : option config :=
  let BOT_TOKEN := getenv (utf8 "BOT_TOKEN") in
  let GEMINI_API_KEY := getenv (utf8 "GEMINI_API_KEY") in
  match admin_ids (split_comma (default [] (getenv (utf8 "ADMIN_IDS")))) with
  | None => None
  | Some ids => Some (mkConfig BOT_TOKEN GEMINI_API_KEY ids)
  end.

(** [bot = DostyqTVBot(); bot.run()]. *)
Definition main (getenv : str -> option str) (file : option store)
    (inbox : list (env * Update)) : option (option store * list event) :=
  match __init__ getenv with
  | None => None
  | Some bot => Some (run bot file inbox)
  end.

End Construction.

(** ** Auxiliary definitions for the proofs *)

(** A code point that [lower] leaves alone wherever it stands. *)
Definition stable_b (d : Z) : bool :=
  negb (d =? 0x3A3) && str_eqb (Unicode.to_lower_full d) [d].

Definition stable (d : Z) : Prop :=
  d <> 0x3A3 /\ Unicode.to_lower_full d = [d].

(** Keywords made of stable code points only. *)
Definition stable_words (words : list str) : bool :=
  forallb (forallb stable_b) words.

(** The code points of a run of [Unicode.lower_table]. *)
Definition run_points (r : Z * Z * Z * Z) : list Z :=
  let '(lo, hi, stride, _) := r in
  map (fun k => lo + stride * Z.of_nat k)
      (seq 0 (S (Z.to_nat ((hi - lo) / stride)))).

(** A run is sound when its stride is positive and every image
    [c + delta] is stable. *)
Definition run_ok (r : Z * Z * Z * Z) : bool :=
  let '(lo, hi, stride, d) := r in
  (0 <? stride) && forallb (fun c => stable_b (c + d)) (run_points r).

(** The store still has a ticket key to hand out. *)
Definition store_not_full (st : store) : Prop :=
  Z.max (tickets_seq st) (largest_key (tickets st)) < max_rowid.

(** SQLite takes the row of the user: the parameters of [save_user]
    can be bound (an id within 64 bits, names without a lone
    surrogate) and the row is within the length limit. *)
Definition storable_user (e : env) (user : User) : bool :=
  match SQLite.bind_parameters (user_parameters e user) with
  | Ok _ => SQLite.fits (user_record e user)
  | Raise _ => false
  end.

(** SQLite takes the ticket: the parameters of [create_ticket] can be
    bound and the row is within the length limit. *)
Definition storable_ticket (user_id : Z) (message_text category : str) : bool :=
  match SQLite.bind_parameters (ticket_parameters user_id message_text category) with
  | Ok _ => SQLite.fits (ticket_record user_id message_text category)
  | Raise _ => false
  end.

(** A ticket row as [ticket_command] writes it. *)
Definition placeholder_row (r : ticket_row) : Prop :=
  t_message r = ticket_placeholder /\ t_category r = general.

(** [tickets_grow st st']: the key counter did not go back, and every
    ticket of [st'] was already in [st] or is a placeholder row. *)
Definition tickets_grow (st st' : store) : Prop :=
  tickets_seq st <= tickets_seq st'
  /\ forall i r, tickets st' !! i = Some r ->
                 tickets st !! i = Some r \/ placeholder_row r.

(** A computation that moves the store along [tickets_grow], whatever
    it returns or raises. *)
Definition preserves {A : Type} (m : M A) : Prop :=
  forall w, tickets_grow (db w) (db (snd (m w))).

(** An outcome of the request whose exceptions, if any, derive from
    [Exception]. *)
Definition catchable (h : http_outcome) : bool :=
  match h with
  | PostRaises ex => is_Exception ex
  | Response status json body =>
      if status =? 200 then
        match json with Raise ex => is_Exception ex | Ok _ => true end
      else
        match body with Raise ex => is_Exception ex | Ok _ => true end
  end.

Definition is_post (ev : event) : bool :=
  match ev with
  | EvHttpPost _ _ => true
  | _ => false
  end.

(** The commands with a handler, and the callback data with a branch
    in [handle_callback]. *)
Definition handled_commands : list str :=
  [utf8 "start"; utf8 "help"; utf8 "ticket"; utf8 "stats"].

Definition static_buttons : list str :=
  [utf8 "schedule"; utf8 "tech_support"; utf8 "contacts"; utf8 "faq"].

(** [keeps R m]: the store before and the store after [m] are related
    by [R], whatever [m] returns or raises. *)
Definition keeps {A : Type} (R : store -> store -> Prop) (m : M A) : Prop :=
  forall w, R (db w) (db (snd (m w))).

(** [trace_blind m]: what [m] returns, the store it leaves and the
    events it adds depend on the store it meets only; the events are
    added at the end of the trace. *)
Definition trace_blind {A : Type} (m : M A) : Prop :=
  forall st, exists r st' evs,
    forall t, m (mkWorld st t) = (r, mkWorld st' (t ++ evs)).

(** Nothing is taken away: every ticket stays as it is and every user
    keeps a row. *)
Definition store_extends (st st' : store) : Prop :=
  (forall i r, tickets st !! i = Some r -> tickets st' !! i = Some r)
  /\ (forall i, is_Some (users st !! i) -> is_Some (users st' !! i)).

(** The ticket keys are 1, ..., [tickets_seq], and every ticket is an
    open, unresolved placeholder row. *)
Definition tickets_dense (st : store) : Prop :=
  0 <= tickets_seq st
  /\ (forall i, is_Some (tickets st !! i) <-> 1 <= i <= tickets_seq st)
  /\ (forall i r, tickets st !! i = Some r ->
                  t_status r = status_open /\ t_resolved_at r = None
                  /\ placeholder_row r).

(** What [run] does before the first update. *)
Definition startup_events (token : str) (commands : list (str * str)) : list event :=
  [EvBuild token] ++ setup_handlers
  ++ [EvLog InfoStarted; EvPolling;
      EvSql CreateUsers; EvSql CreateTickets; EvSql CreateStats;
      EvSetCommands commands].

(** The update is a new message that opens with the command [name]. *)
Definition is_command (name : string) (update : Update) : bool :=
  match message update with
  | Some m =>
      match command m with
      | Some c => str_eqb c (utf8 name)
      | None => false
      end
  | None => false
  end.

(** A request for a ticket: the [/ticket] command, or the button whose
    callback data is [create_ticket]. *)
Definition ticket_request (update : Update) : Prop :=
  is_command "ticket" update = true
  \/ (message update = None
      /\ callback_query update = Some (mkCallbackQuery (utf8 "create_ticket"))).

(** A [/stats] command. *)
Definition stats_request (update : Update) : Prop :=
  is_command "stats" update = true.

(** * Properties *)

(** ** Strings *)

Lemma str_eqb_eq (a b : str) : str_eqb a b = true <-> a = b.
Proof.
  revert b; induction a as [|x a IH]; intros [|y b]; simpl; split;
    try congruence; try reflexivity.
  - intros H. apply andb_true_iff in H as [Hx Hab].
    apply Z.eqb_eq in Hx. apply IH in Hab. congruence.
  - intros H. injection H as -> ->. rewrite Z.eqb_refl. simpl. now apply IH.
Qed.

Lemma str_eqb_refl (a : str) : str_eqb a a = true.
Proof. now apply str_eqb_eq. Qed.

Lemma str_eqb_sym (a b : str) : str_eqb a b = str_eqb b a.
Proof.
  revert b; induction a as [|x a IH]; intros [|y b]; simpl; try reflexivity.
  now rewrite Z.eqb_sym, IH.
Qed.

Lemma str_eqb_neq (a b : str) : a <> b -> str_eqb a b = false.
Proof.
  intros H. destruct (str_eqb a b) eqn:E; [|reflexivity].
  apply str_eqb_eq in E. contradiction.
Qed.

Lemma stable_b_stable (d : Z) : stable_b d = true -> stable d.
Proof.
  unfold stable_b, stable. intros H.
  apply andb_true_iff in H as [Hs Hl]. split.
  - apply negb_true_iff, Z.eqb_neq in Hs. exact Hs.
  - now apply str_eqb_eq.
Qed.

(** ** Lower-casing is idempotent *)

Lemma in_run_points (c lo hi stride d : Z) :
  0 < stride ->
  Unicode.in_run c (lo, hi, stride, d) = true ->
  In c (run_points (lo, hi, stride, d)).
Proof.
  intros Hs H. unfold Unicode.in_run in H.
  apply andb_true_iff in H as [H Hm]. apply andb_true_iff in H as [Hlo Hhi].
  apply Z.leb_le in Hlo, Hhi. apply Z.eqb_eq in Hm.
  unfold run_points. apply in_map_iff.
  exists (Z.to_nat ((c - lo) / stride)). split.
  - rewrite Z2Nat.id by (apply Z.div_pos; lia).
    pose proof (Z.div_mod (c - lo) stride ltac:(lia)) as E. lia.
  - apply in_seq. split; [lia|]. simpl.
    assert ((c - lo) / stride <= (hi - lo) / stride)
      by (apply Z.div_le_mono; lia).
    assert (0 <= (c - lo) / stride) by (apply Z.div_pos; lia).
    lia.
Qed.

Lemma lower_table_ok : forallb run_ok Unicode.lower_table = true.
Proof. vm_compute. reflexivity. Qed.

Lemma lower_delta_stable (c d : Z) :
  Unicode.lower_delta c = Some d -> stable (c + d).
Proof.
  unfold Unicode.lower_delta. intros H.
  destruct (find (Unicode.in_run c) Unicode.lower_table)
    as [[[[lo hi] stride] d']|] eqn:F; [|discriminate].
  injection H as ->.
  apply find_some in F as [Hin Hrun].
  pose proof lower_table_ok as Hok.
  rewrite forallb_forall in Hok. specialize (Hok _ Hin).
  unfold run_ok in Hok. apply andb_true_iff in Hok as [Hs Hall].
  apply Z.ltb_lt in Hs.
  rewrite forallb_forall in Hall.
  apply stable_b_stable, Hall, in_run_points; assumption.
Qed.

Lemma to_lower_full_stable (c : Z) : Forall stable (Unicode.to_lower_full c).
Proof.
  unfold Unicode.to_lower_full.
  destruct (c =? 0x130) eqn:E130.
  - apply Forall_cons; split; [|apply Forall_singleton];
      apply stable_b_stable; vm_compute; reflexivity.
  - destruct (Unicode.lower_delta c) as [d|] eqn:D; apply Forall_singleton.
    + now apply lower_delta_stable.
    + split.
      * intros ->. vm_compute in D. discriminate.
      * unfold Unicode.to_lower_full. now rewrite E130, D.
Qed.

Lemma handle_capital_sigma_stable (before after : list Z) :
  stable (Unicode.handle_capital_sigma before after).
Proof.
  unfold Unicode.handle_capital_sigma.
  repeat match goal with |- context [if ?b then _ else _] => destruct b end;
    apply stable_b_stable; vm_compute; reflexivity.
Qed.

Lemma lower_ucs4_stable (before : list Z) (c : Z) (after : list Z) :
  Forall stable (Unicode.lower_ucs4 before c after).
Proof.
  unfold Unicode.lower_ucs4. destruct (c =? 0x3A3).
  - apply Forall_singleton, handle_capital_sigma_stable.
  - apply to_lower_full_stable.
Qed.

Lemma do_lower_stable (rest before : list Z) :
  Forall stable (Unicode.do_lower before rest).
Proof.
  revert before; induction rest as [|c after IH]; intros before; simpl.
  - constructor.
  - apply Forall_app. split; [apply lower_ucs4_stable | apply IH].
Qed.

Lemma do_lower_fixed (rest before : list Z) :
  Forall stable rest -> Unicode.do_lower before rest = rest.
Proof.
  revert before; induction rest as [|c after IH]; intros before H; simpl.
  - reflexivity.
  - inversion H as [|? ? [Hc Hl] Hafter]; subst.
    unfold Unicode.lower_ucs4.
    apply Z.eqb_neq in Hc. rewrite Hc, Hl. simpl. f_equal. now apply IH.
Qed.

Lemma lower_idempotent (s : str) : lower (lower s) = lower s.
Proof. unfold lower. apply do_lower_fixed, do_lower_stable. Qed.

(** ** The keyword responder *)

Lemma startswith_app (w s : str) :
  startswith w s = true <-> exists post, s = w ++ post.
Proof.
  revert s; induction w as [|a w IH]; intros s; simpl.
  - split; [eauto|reflexivity].
  - destruct s as [|b s]; simpl.
    + split; [discriminate|intros [post H]; discriminate].
    + rewrite andb_true_iff, Z.eqb_eq, IH. split.
      * intros [-> [post ->]]. eauto.
      * intros [post [= -> ->]]. eauto.
Qed.

(** [w in s] holds exactly when [s] splits around a copy of [w]. *)
Lemma contains_app (w s : str) :
  contains w s = true <-> exists pre post, s = pre ++ w ++ post.
Proof.
  induction s as [|b s IH]; simpl.
  - rewrite orb_false_r, startswith_app. split.
    + intros [post H]. exists [], post. exact H.
    + intros (pre & post & H). destruct pre as [|? ?]; [eauto|discriminate].
  - rewrite orb_true_iff, startswith_app, IH. split.
    + intros [[post H]|(pre & post & ->)].
      * exists [], post. exact H.
      * exists (b :: pre), post. reflexivity.
    + intros (pre & post & H). destruct pre as [|c pre]; simpl in H.
      * left. eauto.
      * right. injection H as -> ->. eauto.
Qed.

(** Lower-casing works through a prefix and carries on with the rest. *)
Lemma do_lower_prefix (pre rest before : list Z) :
  exists x,
    Unicode.do_lower before (pre ++ rest)
    = x ++ Unicode.do_lower (rev pre ++ before) rest.
Proof.
  revert before; induction pre as [|c pre IH]; intros before; simpl.
  - exists []. reflexivity.
  - destruct (IH (c :: before)) as [x ->].
    exists (Unicode.lower_ucs4 before c (pre ++ rest) ++ x).
    rewrite <- !app_assoc. reflexivity.
Qed.

(** A run of stable code points comes out unchanged, whatever is
    around it. *)
Lemma do_lower_stable_run (w rest before : list Z) :
  Forall stable w ->
  Unicode.do_lower before (w ++ rest)
  = w ++ Unicode.do_lower (rev w ++ before) rest.
Proof.
  revert before; induction w as [|c w IH]; intros before H; simpl.
  - reflexivity.
  - inversion H as [|? ? [Hc Hl] Hw]; subst.
    unfold Unicode.lower_ucs4. apply Z.eqb_neq in Hc. rewrite Hc, Hl.
    simpl. f_equal. rewrite IH by assumption.
    now rewrite <- app_assoc.
Qed.

Lemma contains_lower (w s : str) :
  Forall stable w -> contains w s = true -> contains w (lower s) = true.
Proof.
  intros Hw H. apply contains_app in H as (pre & post & ->).
  apply contains_app. unfold lower.
  destruct (do_lower_prefix pre (w ++ post) []) as [x ->].
  rewrite (do_lower_stable_run w post _ Hw). eauto.
Qed.

Lemma any_in_lower (words : list str) (s : str) :
  stable_words words = true ->
  any_in words s = true -> any_in words (lower s) = true.
Proof.
  unfold stable_words, any_in. rewrite forallb_forall, !existsb_exists.
  intros Hst (w & Hin & Hw). exists w. split; [assumption|].
  apply contains_lower; [|assumption].
  specialize (Hst w Hin). rewrite forallb_forall in Hst.
  apply List.Forall_forall. intros c Hc. apply stable_b_stable, Hst, Hc.
Qed.

Lemma find_first_match {A : Type} (f : A -> bool) (pre post : list A) (c : A) :
  (forall c', In c' pre -> f c' = false) ->
  f c = true ->
  find f (pre ++ c :: post) = Some c.
Proof.
  induction pre as [|x pre IH]; intros Hpre Hc; simpl.
  - now rewrite Hc.
  - rewrite (Hpre x) by now left.
    apply IH; [|exact Hc]. intros c' Hin. apply Hpre. now right.
Qed.

(** The if/elif chain of the source is the first-match search over
    [categories]. *)
Lemma fallback_refines_spec (m : str) :
  get_fallback_response m = respond_spec m.
Proof.
  unfold get_fallback_response, respond_spec, categories.
  cbn [find]. unfold matches. cbn [fst snd].
  destruct (any_in schedule_words (lower m)); [reflexivity|].
  destruct (any_in quality_words (lower m)); [reflexivity|].
  destruct (any_in setup_words (lower m)); [reflexivity|].
  destruct (any_in contact_words (lower m)); [reflexivity|].
  destruct (any_in advert_words (lower m)); reflexivity.
Qed.

Lemma fallback_in_answers (m : str) :
  In (get_fallback_response m) (greeting_answer :: map snd categories).
Proof.
  unfold get_fallback_response, categories. cbn [map snd].
  repeat match goal with
         | |- context [if ?b then _ else _] => destruct b
         end; simpl; tauto.
Qed.

(** C1. The responder tests the lower-cased message against the five
    keyword sets in the order schedule, quality, channel set-up,
    contact, advertising, and answers with the canned text of the
    first set that has a keyword inside the message: whenever
    [categories] splits as [pre ++ c :: post], no set of [pre] matches
    and [c] matches, the answer is that of [c].  In particular a
    message with a schedule keyword, in its lower-cased form or as it
    was typed, gets the schedule answer, whatever else matches. *)
Theorem fallback_first_match_wins (m : str) :
  (forall (pre post : list category) (c : category),
      categories = pre ++ c :: post ->
      (forall c', In c' pre -> matches (lower m) c' = false) ->
      matches (lower m) c = true ->
      get_fallback_response m = snd c)
  /\ (any_in schedule_words (lower m) = true ->
      get_fallback_response m = schedule_answer)
  /\ (any_in schedule_words m = true ->
      get_fallback_response m = schedule_answer).
Proof.
  assert (Hlow : any_in schedule_words (lower m) = true ->
                 get_fallback_response m = schedule_answer)
    by (intros H; unfold get_fallback_response; now rewrite H).
  split; [|split].
  - intros pre post c Hsplit Hpre Hc.
    rewrite fallback_refines_spec. unfold respond_spec.
    rewrite Hsplit, (find_first_match _ pre post c Hpre Hc). reflexivity.
  - exact Hlow.
  - intros H. apply Hlow, any_in_lower; [reflexivity|exact H].
Qed.

Lemma fallback_first_match_wins_witness :
  get_fallback_response (utf8 "У меня плохое качество сигнала") = quality_answer
  /\ (any_in quality_words (lower (utf8 "Расписание и КАЧЕСТВО")) = true
      /\ get_fallback_response (utf8 "Расписание и КАЧЕСТВО") = schedule_answer)
  /\ get_fallback_response (utf8 "плохо видно программа передач") = schedule_answer.
Proof.
  split; [|split; [split|]].
  - apply (proj1 (fallback_first_match_wins (utf8 "У меня плохое качество сигнала"))
             [(schedule_words, schedule_answer)]
             [(setup_words, setup_answer); (contact_words, contact_answer);
              (advert_words, advert_answer)]
             (quality_words, quality_answer)).
    + reflexivity.
    + intros c' [<-|[]]. vm_compute. reflexivity.
    + vm_compute. reflexivity.
  - vm_compute. reflexivity.
  - apply (proj1 (proj2 (fallback_first_match_wins (utf8 "Расписание и КАЧЕСТВО")))).
    vm_compute. reflexivity.
  - apply (proj2 (proj2 (fallback_first_match_wins
                           (utf8 "плохо видно программа передач")))).
    vm_compute. reflexivity.
Defined.

(** C7. The responder always answers, never with the empty string:
    its result is one of the six canned texts, none of them empty, and
    it is the greeting whenever no keyword set matches the lower-cased
    message. *)
Theorem fallback_total_nonempty (m : str) :
  get_fallback_response m <> []
  /\ In (get_fallback_response m) (greeting_answer :: map snd categories)
  /\ ((forall c, In c categories -> matches (lower m) c = false) ->
      get_fallback_response m = greeting_answer).
Proof.
  split; [|split].
  - pose proof (fallback_in_answers m) as H.
    unfold categories in H. cbn [map snd] in H.
    repeat (destruct H as [<-|H]; [discriminate|]). destruct H.
  - apply fallback_in_answers.
  - intros Hnone. rewrite fallback_refines_spec. unfold respond_spec.
    destruct (find (matches (lower m)) categories) as [c|] eqn:F; [|reflexivity].
    apply find_some in F as [Hin Hc]. rewrite (Hnone c Hin) in Hc. discriminate.
Qed.

Lemma fallback_total_nonempty_witness :
  get_fallback_response (utf8 "Привет!") = greeting_answer.
Proof.
  apply (proj2 (proj2 (fallback_total_nonempty (utf8 "Привет!")))).
  intros c Hin. unfold categories in Hin.
  repeat (destruct Hin as [<-|Hin]; [vm_compute; reflexivity|]). destruct Hin.
Defined.

(** C9. The responder does not see letter case: it answers a message
    and its lower-cased form alike, hence any two messages with the
    same lower-cased form alike. *)
Theorem fallback_case_insensitive (m : str) :
  get_fallback_response (lower m) = get_fallback_response m
  /\ (forall m', lower m' = lower m ->
                 get_fallback_response m' = get_fallback_response m).
Proof.
  split.
  - unfold get_fallback_response. now rewrite lower_idempotent.
  - intros m' H. unfold get_fallback_response. now rewrite H.
Qed.

Lemma fallback_case_insensitive_witness :
  get_fallback_response (utf8 "ПРОГРАММА Передач")
  = get_fallback_response (utf8 "программа передач").
Proof.
  apply (proj2 (fallback_case_insensitive (utf8 "программа передач"))).
  vm_compute. reflexivity.
Defined.

(** The two end-to-end samples of the specification. *)
Example fallback_quality_sample :
  get_fallback_response (utf8 "У меня плохое качество сигнала") = quality_answer
  /\ contains (utf8 "+7 771 300 05 02, +7 702 300 05 01") quality_answer = true.
Proof. split; vm_compute; reflexivity. Qed.

Example fallback_advert_sample :
  get_fallback_response (utf8 "реклама") = advert_answer
  /\ contains (utf8 "reklama@dostyq.tv") advert_answer = true.
Proof. split; vm_compute; reflexivity. Qed.

(** ** The generation client *)

Lemma dict_item_raises {A : Type} (d : list (str * A)) (k : str) (ex : exn) :
  dict_item d k = Raise ex -> is_Exception ex = true.
Proof. unfold dict_item. destruct (dict_get k d); intros [=]; subst; reflexivity. Qed.

Lemma getitem_str_raises (v : pyval) (k : str) (ex : exn) :
  getitem_str v k = Raise ex -> is_Exception ex = true.
Proof.
  destruct v; simpl; try (intros [=]; subst; reflexivity).
  apply dict_item_raises.
Qed.

Lemma getitem_0_raises (v : pyval) (ex : exn) :
  getitem_0 v = Raise ex -> is_Exception ex = true.
Proof.
  destruct v as [| | |[|? ?]|[|? ?]|]; simpl; intros [=]; subst; reflexivity.
Qed.

Lemma py_in_raises (k : str) (v : pyval) (ex : exn) :
  py_in k v = Raise ex -> is_Exception ex = true.
Proof. destruct v; simpl; intros [=]; subst; reflexivity. Qed.

Lemma and_then_raises {A B : Type} (r : result A) (k : A -> result B) (ex : exn) :
  and_then r k = Raise ex ->
  r = Raise ex \/ exists a, r = Ok a /\ k a = Raise ex.
Proof. destruct r; simpl; intros H; [right; eauto | left; congruence]. Qed.

(** Subscripting raises [KeyError], [IndexError] or [TypeError] only. *)
Lemma first_candidate_text_raises (res : pyval) (ex : exn) :
  first_candidate_text res = Raise ex -> is_Exception ex = true.
Proof.
  unfold first_candidate_text. intros H.
  repeat match goal with
         | H : and_then _ _ = Raise _ |- _ =>
             apply and_then_raises in H as [H|(? & _ & H)]
         end;
    eauto using getitem_str_raises, getitem_0_raises.
Qed.

(** What [get_ai_response] does once a key is configured, by the
    result of [_call_gemini]. *)
Lemma get_ai_response_caught (cfg : config) (e : env) (m : str) (w w1 : world)
    (ex : exn) :
  unset (GEMINI_API_KEY cfg) = false ->
  _call_gemini cfg e m system_prompt w = (Raise ex, w1) ->
  is_Exception ex = true ->
  get_ai_response cfg e m w
  = (Ok (PStr (get_fallback_response m)),
     mkWorld (db w1) (trace w1 ++ [EvLog (ErrGemini ex)])).
Proof.
  intros Hkey Hcall Hex. unfold get_ai_response, try_except.
  rewrite Hkey, Hcall, Hex. reflexivity.
Qed.

Lemma get_ai_response_returned (cfg : config) (e : env) (m : str) (w w1 : world)
    (v : pyval) :
  unset (GEMINI_API_KEY cfg) = false ->
  _call_gemini cfg e m system_prompt w = (Ok v, w1) ->
  get_ai_response cfg e m w = (Ok v, w1).
Proof.
  intros Hkey Hcall. unfold get_ai_response, try_except.
  rewrite Hkey, Hcall. reflexivity.
Qed.

(** [_call_gemini] leaves the store alone. *)
Lemma call_gemini_db (cfg : config) (e : env) (m : str) (p : ftext) (w : world) :
  db (snd (_call_gemini cfg e m p w)) = db w.
Proof.
  unfold _call_gemini, bind, emit, raise, lift, log, ret. simpl.
  destruct (http e) as [ex|status json body]; [reflexivity|].
  destruct (status =? 200).
  - destruct json as [res|ex]; [|reflexivity]. simpl.
    destruct (py_in candidates res) as [[|]|ex]; simpl; try reflexivity.
    destruct (getitem_str res candidates) as [c|ex]; simpl; [|reflexivity].
    destruct (truthy c); simpl; [|reflexivity].
    destruct (first_candidate_text res); reflexivity.
  - destruct body; reflexivity.
Qed.

Lemma candidate_list_getitem (res c : pyval) :
  candidate_list res = Some c ->
  py_in candidates res = Ok true /\ getitem_str res candidates = Ok c.
Proof.
  destruct res; simpl; try discriminate. intros H.
  unfold dict_item. rewrite H. split; [|reflexivity].
  now rewrite bool_decide_eq_true_2 by eauto.
Qed.

Lemma candidate_list_missing (res c : pyval) :
  candidate_list res = None ->
  getitem_str res candidates = Ok c -> False.
Proof.
  destruct res; simpl; try discriminate.
  unfold dict_item. intros ->. discriminate.
Qed.

(** On a failed request [_call_gemini] either hands back the fallback
    answer itself or raises an [Exception]. *)
Lemma call_gemini_failed (cfg : config) (e : env) (m : str) (p : ftext) (w : world) :
  generation_failed (http e) ->
  fst (_call_gemini cfg e m p w) = Ok (PStr (get_fallback_response m))
  \/ exists ex, fst (_call_gemini cfg e m p w) = Raise ex /\ is_Exception ex = true.
Proof.
  intros Hfail. unfold _call_gemini, bind, emit, raise, lift, log, ret. simpl.
  destruct Hfail as [ex Hex|status json body Hst Hbody|ex body Hex
                    |res body Hmiss|res c body Hc Hempty|res ex body Hshape].
  - right. eauto.
  - apply Z.eqb_neq in Hst. rewrite Hst.
    destruct body as [t|ex]; simpl; [left; reflexivity|right; eauto].
  - simpl. right. eauto.
  - simpl. destruct (py_in candidates res) as [[|]|ex] eqn:Hin; simpl.
    + destruct (getitem_str res candidates) as [c|ex] eqn:Hget; simpl.
      * destruct (candidate_list_missing _ _ Hmiss Hget).
      * right. eauto using getitem_str_raises.
    + left. reflexivity.
    + right. eauto using py_in_raises.
  - simpl. destruct (candidate_list_getitem _ _ Hc) as [-> ->]. simpl.
    rewrite Hempty. simpl. left. reflexivity.
  - simpl. destruct (py_in candidates res) as [[|]|ex'] eqn:Hin; simpl.
    + destruct (getitem_str res candidates) as [c|ex'] eqn:Hget; simpl.
      * destruct (truthy c); simpl.
        -- rewrite Hshape. right. eauto using first_candidate_text_raises.
        -- left. reflexivity.
      * right. eauto using getitem_str_raises.
    + left. reflexivity.
    + right. eauto using py_in_raises.
Qed.

(** C2. Whatever the message, when the request ends in a status other
    than 200, in a body whose candidate list is missing or empty (or
    misses the expected text), or in a thrown network or parsing
    error, [get_ai_response] returns the answer of the keyword
    responder for that message; it raises nothing and leaves the store
    as it was. *)
Theorem generation_failure_falls_back (cfg : config) (e : env) (m : str) (w : world) :
  generation_failed (http e) ->
  exists w',
    get_ai_response cfg e m w = (Ok (PStr (get_fallback_response m)), w')
    /\ db w' = db w.
Proof.
  intros Hfail.
  destruct (unset (GEMINI_API_KEY cfg)) eqn:Hkey.
  - unfold get_ai_response. rewrite Hkey. eexists. split; reflexivity.
  - pose proof (call_gemini_db cfg e m system_prompt w) as Hdb.
    destruct (_call_gemini cfg e m system_prompt w) as [r w1] eqn:Hcall.
    simpl in Hdb.
    destruct (call_gemini_failed cfg e m system_prompt w Hfail) as [H|(ex & H & Hex)];
      rewrite Hcall in H; simpl in H; subst r.
    + exists w1. split; [now apply get_ai_response_returned|exact Hdb].
    + eexists. split; [apply get_ai_response_caught; eassumption|exact Hdb].
Qed.

Lemma generation_failure_falls_back_witness :
  exists w',
    get_ai_response
      (mkConfig (Some (utf8 "token")) (Some (utf8 "key")) [])
      (mkEnv 0 0 (Response 200 (Ok (PDict [(candidates, PList [])])) (Ok [])))
      (utf8 "реклама") (mkWorld empty_store [])
    = (Ok (PStr (get_fallback_response (utf8 "реклама"))), w')
    /\ db w' = empty_store.
Proof.
  apply (generation_failure_falls_back
           (mkConfig (Some (utf8 "token")) (Some (utf8 "key")) [])
           (mkEnv 0 0 (Response 200 (Ok (PDict [(candidates, PList [])])) (Ok [])))
           (utf8 "реклама") (mkWorld empty_store [])).
  apply (failed_empty _ (PList [])); reflexivity.
Defined.

(** C3. Without a configured key [get_ai_response] returns exactly
    what [get_fallback_response] returns for the same message; it logs
    one warning and sends no request. *)
Theorem no_key_delegates (cfg : config) (e : env) (m : str) (w : world) :
  unset (GEMINI_API_KEY cfg) = true ->
  get_ai_response cfg e m w
  = (Ok (PStr (get_fallback_response m)),
     mkWorld (db w) (trace w ++ [EvLog WarnNoGeminiKey])).
Proof.
  intros Hkey. unfold get_ai_response. rewrite Hkey. reflexivity.
Qed.

Lemma no_key_delegates_witness :
  get_ai_response (mkConfig (Some (utf8 "token")) None [])
                  (mkEnv 0 0 (PostRaises ClientError))
                  (utf8 "как найти канал") (mkWorld empty_store [])
  = (Ok (PStr (get_fallback_response (utf8 "как найти канал"))),
     mkWorld empty_store [EvLog WarnNoGeminiKey]).
Proof.
  apply (no_key_delegates (mkConfig (Some (utf8 "token")) None [])
           (mkEnv 0 0 (PostRaises ClientError))
           (utf8 "как найти канал") (mkWorld empty_store [])).
  reflexivity.
Defined.

(** ** The persistence layer *)

(** What the binding raises derives from [Exception]. *)
Lemma bind_param_raises (v : SQLite.value) (ex : exn) :
  SQLite.bind_param v = Raise ex -> is_Exception ex = true.
Proof.
  unfold SQLite.bind_param, SQLite.check_length.
  destruct v;
    repeat match goal with
           | |- context [if ?b then _ else _] => destruct b
           end; intros [=]; subst; reflexivity.
Qed.

Lemma bind_parameters_raises (parameters : list SQLite.value) (ex : exn) :
  SQLite.bind_parameters parameters = Raise ex -> is_Exception ex = true.
Proof.
  induction parameters as [|v rest IH]; simpl; [discriminate|].
  destruct (SQLite.bind_param v) as [[]|ex'] eqn:E; simpl.
  - exact IH.
  - intros [= <-]. now apply bind_param_raises in E.
Qed.

(** [save_user], case by case: a parameter that cannot be bound, a
    row that is too long, or the row put in place. *)
Lemma save_user_eq (e : env) (user : User) (w : world) :
  save_user e user w
  = match SQLite.bind_parameters (user_parameters e user) with
    | Raise ex => (Raise ex, w)
    | Ok _ =>
        if SQLite.fits (user_record e user) then
          (Ok tt,
           mkWorld
             (with_users
                (fun us =>
                   <[tg_id user :=
                       mkUserRow (username user) (Some (first_name user))
                                 (last_name user) (current_timestamp e) (now e)]>
                     (delete (tg_id user) us))
                (db w))
             (trace w ++ [EvSql ReplaceUser]))
        else (Raise DataError, mkWorld (db w) (trace w ++ [EvSql ReplaceUser]))
    end.
Proof.
  unfold save_user, bind, lift, execute, emit.
  destruct (SQLite.bind_parameters (user_parameters e user)) as [[]|ex];
    [|reflexivity].
  destruct (SQLite.fits (user_record e user)); reflexivity.
Qed.

Lemma save_user_run (e : env) (user : User) (w : world) :
  storable_user e user = true ->
  save_user e user w
  = (Ok tt,
     mkWorld
       (with_users
          (fun us =>
             <[tg_id user :=
                 mkUserRow (username user) (Some (first_name user))
                           (last_name user) (current_timestamp e) (now e)]>
               (delete (tg_id user) us))
          (db w))
       (trace w ++ [EvSql ReplaceUser])).
Proof.
  unfold storable_user. intros H. rewrite save_user_eq.
  destruct (SQLite.bind_parameters (user_parameters e user)); [|discriminate].
  now rewrite H.
Qed.

(** A user SQLite does not take: the call raises and has written
    nothing. *)
Lemma save_user_refused (e : env) (user : User) (w : world) :
  storable_user e user = false ->
  exists ex evs,
    save_user e user w = (Raise ex, mkWorld (db w) (trace w ++ evs))
    /\ is_Exception ex = true
    /\ (evs = [] \/ evs = [EvSql ReplaceUser]).
Proof.
  unfold storable_user. intros H. rewrite save_user_eq.
  destruct (SQLite.bind_parameters (user_parameters e user)) as [[]|ex] eqn:B.
  - rewrite H. exists DataError, [EvSql ReplaceUser]. auto.
  - exists ex, []. rewrite app_nil_r. destruct w. split; [reflexivity|].
    split; [|now left].
    eapply bind_parameters_raises, B.
Qed.

(** Whatever it does, [save_user] leaves the store as it was or puts
    the row of the user in place. *)
Lemma save_user_db (e : env) (user : User) (w : world) :
  db (snd (save_user e user w))
  = if storable_user e user then
      with_users
        (fun us =>
           <[tg_id user :=
               mkUserRow (username user) (Some (first_name user))
                         (last_name user) (current_timestamp e) (now e)]>
             (delete (tg_id user) us))
        (db w)
    else db w.
Proof.
  destruct (storable_user e user) eqn:H.
  - now rewrite save_user_run.
  - destruct (save_user_refused e user w H) as (ex & evs & -> & _). reflexivity.
Qed.

(** The row of the user after [save_user]: the name fields of the
    call, [last_activity] at the time of the call, and [created_at] at
    the clock of the store. *)
Lemma save_user_row (e : env) (user : User) (w : world) :
  storable_user e user = true ->
  users (db (snd (save_user e user w))) !! tg_id user
  = Some (mkUserRow (username user) (Some (first_name user)) (last_name user)
                    (current_timestamp e) (now e)).
Proof. intros H. rewrite save_user_run by exact H. simpl. apply lookup_insert_eq. Qed.

(** Rows of other users, the tickets and the key counter stay. *)
Lemma save_user_frame (e : env) (user : User) (w : world) :
  (forall j, j <> tg_id user ->
             users (db (snd (save_user e user w))) !! j = users (db w) !! j)
  /\ tickets (db (snd (save_user e user w))) = tickets (db w)
  /\ tickets_seq (db (snd (save_user e user w))) = tickets_seq (db w).
Proof.
  rewrite save_user_db. destruct (storable_user e user); [|auto].
  simpl. split; [|split; reflexivity].
  intros j Hj. rewrite lookup_insert_ne by congruence.
  apply lookup_delete_ne. congruence.
Qed.

(** A table keyed by its primary key holds one row per key. *)
Lemma one_row_per_key {A : Type} (t : gmap Z A) (i : Z) (x : A) :
  t !! i = Some x ->
  length (filter (fun kv => fst kv = i) (map_to_list t)) = 1%nat.
Proof.
  intros Hi. rewrite <- (insert_delete_id t i x Hi).
  rewrite map_to_list_insert by apply lookup_delete_eq.
  rewrite filter_cons_True by reflexivity. simpl. f_equal.
  destruct (filter _ (map_to_list (delete i t))) as [|[j y] rest] eqn:F;
    [reflexivity|].
  assert (Hin : (j, y) ∈ filter (fun kv => fst kv = i) (map_to_list (delete i t)))
    by (rewrite F; left).
  apply list_elem_of_filter in Hin as [Hj Hin]. simpl in Hj. subst j.
  apply elem_of_map_to_list in Hin. rewrite lookup_delete_eq in Hin. discriminate.
Qed.

(** Saving the same user twice leaves one row for the id, that of the
    later call, and adds no row. *)
Lemma save_user_twice (e1 e2 : env) (user : User) (w : world) :
  storable_user e1 user = true ->
  storable_user e2 user = true ->
  let w1 := snd (save_user e1 user w) in
  let w2 := snd (save_user e2 user w1) in
  size (users (db w2)) = size (users (db w1))
  /\ (u_last_activity <$> users (db w2) !! tg_id user) = Some (now e2)
  /\ length (filter (fun kv => fst kv = tg_id user) (map_to_list (users (db w2))))
     = 1%nat.
Proof.
  intros S1 S2 w1 w2.
  assert (H2 : users (db w2) !! tg_id user
               = Some (mkUserRow (username user) (Some (first_name user))
                         (last_name user) (current_timestamp e2) (now e2)))
    by (apply save_user_row; exact S2).
  split; [|split].
  - subst w2 w1. rewrite !save_user_run by assumption. simpl.
    rewrite !insert_delete_eq, insert_insert_eq.
    rewrite !map_size_insert. reflexivity.
  - now rewrite H2.
  - eapply one_row_per_key, H2.
Qed.

(** C4, at a user saved at store time 1000 and again at store time
    2000: the second call moves [created_at] of the row from 1000 to
    2000, together with [last_activity]. *)
Theorem save_user_resets_created_at :
  let user := mkUser 42 (Some (utf8 "aigerim")) (utf8 "Aigerim") None in
  let w0 := mkWorld empty_store [] in
  let w1 := snd (save_user (mkEnv 1000 1000 (PostRaises ClientError)) user w0) in
  let w2 := snd (save_user (mkEnv 2000 2000 (PostRaises ClientError)) user w1) in
  (u_created_at <$> users (db w1) !! 42) = Some 1000
  /\ (u_created_at <$> users (db w2) !! 42) = Some 2000
  /\ (u_last_activity <$> users (db w2) !! 42) = Some 2000.
Proof. cbv zeta. repeat split; vm_compute; reflexivity. Qed.

(** For every store and user, [created_at] after the call is the
    clock of the store at the call, not the value the row had. *)
Lemma save_user_created_at (e : env) (user : User) (w : world) :
  storable_user e user = true ->
  (u_created_at <$> users (db (snd (save_user e user w))) !! tg_id user)
  = Some (current_timestamp e).
Proof. intros H. now rewrite save_user_row. Qed.

Lemma foldr_max_ge (l : list Z) (x : Z) : In x l -> x <= foldr Z.max 0 l.
Proof.
  induction l as [|y l IH]; simpl; [tauto|].
  intros [->|Hin]; [lia|]. specialize (IH Hin). lia.
Qed.

Lemma largest_key_ge {A : Type} (t : gmap Z A) (i : Z) (x : A) :
  t !! i = Some x -> i <= largest_key t.
Proof.
  intros Hi. unfold largest_key. apply foldr_max_ge.
  apply list_elem_of_In, list_elem_of_fmap. exists (i, x).
  split; [reflexivity|]. now apply elem_of_map_to_list.
Qed.

Lemma next_ticket_id_fresh (st : store) (i : Z) :
  next_ticket_id st = Some i ->
  tickets st !! i = None /\ tickets_seq st < i.
Proof.
  unfold next_ticket_id.
  destruct (Z.max (tickets_seq st) (largest_key (tickets st)) <? max_rowid);
    [|discriminate].
  intros [= <-]. split; [|lia].
  destruct (tickets st !! _) as [r|] eqn:Hr; [|reflexivity].
  apply largest_key_ge in Hr. lia.
Qed.

Lemma next_ticket_id_not_full (st : store) :
  store_not_full st ->
  next_ticket_id st
  = Some (Z.max (tickets_seq st) (largest_key (tickets st)) + 1).
Proof.
  unfold store_not_full, next_ticket_id. intros H.
  apply Z.ltb_lt in H. now rewrite H.
Qed.

(** [create_ticket], case by case. *)
Lemma create_ticket_eq (e : env) (user_id : Z) (msg : str)
    (category : option str) (w : world) :
  create_ticket e user_id msg category w
  = match SQLite.bind_parameters
            (ticket_parameters user_id msg (default general category)) with
    | Raise ex => (Raise ex, w)
    | Ok _ =>
        match next_ticket_id (db w) with
        | None =>
            (Raise OperationalError, mkWorld (db w) (trace w ++ [EvSql InsertTicket]))
        | Some i =>
            if SQLite.fits (ticket_record user_id msg (default general category)) then
              (Ok i,
               mkWorld
                 (mkStore (users (db w))
                    (<[i := mkTicketRow user_id msg status_open (current_timestamp e)
                                        None (default general category)]>
                       (tickets (db w)))
                    i (stats (db w)))
                 (trace w ++ [EvSql InsertTicket]))
            else (Raise DataError, mkWorld (db w) (trace w ++ [EvSql InsertTicket]))
        end
    end.
Proof.
  unfold create_ticket, bind, lift, execute, emit, get_db, put_db, ret, raise.
  cbv zeta.
  destruct (SQLite.bind_parameters _) as [[]|ex]; [|reflexivity].
  cbn [db trace]. destruct (next_ticket_id (db w)); [|reflexivity].
  destruct (SQLite.fits _); reflexivity.
Qed.

Lemma create_ticket_run (e : env) (user_id : Z) (msg : str)
    (category : option str) (w : world) (i : Z) :
  storable_ticket user_id msg (default general category) = true ->
  next_ticket_id (db w) = Some i ->
  create_ticket e user_id msg category w
  = (Ok i,
     mkWorld
       (mkStore (users (db w))
                (<[i := mkTicketRow user_id msg status_open (current_timestamp e)
                                    None (default general category)]>
                   (tickets (db w)))
                i (stats (db w)))
       (trace w ++ [EvSql InsertTicket])).
Proof.
  unfold storable_ticket. intros S N. rewrite create_ticket_eq, N.
  destruct (SQLite.bind_parameters _); [|discriminate]. now rewrite S.
Qed.

(** A call that does not return a key raises an exception derived
    from [Exception] and leaves the store as it was. *)
Lemma create_ticket_refused (e : env) (user_id : Z) (msg : str)
    (category : option str) (w : world) :
  storable_ticket user_id msg (default general category) = false
  \/ next_ticket_id (db w) = None ->
  exists ex evs,
    create_ticket e user_id msg category w
    = (Raise ex, mkWorld (db w) (trace w ++ evs))
    /\ is_Exception ex = true
    /\ (evs = [] \/ evs = [EvSql InsertTicket]).
Proof.
  unfold storable_ticket. intros H. rewrite create_ticket_eq.
  destruct (SQLite.bind_parameters _) as [[]|ex] eqn:B.
  - destruct (next_ticket_id (db w)) as [i|].
    + destruct H as [->|H]; [|discriminate].
      exists DataError, [EvSql InsertTicket]. auto.
    + exists OperationalError, [EvSql InsertTicket]. auto.
  - exists ex, []. rewrite app_nil_r. destruct w. split; [reflexivity|].
    split; [|now left].
    eapply bind_parameters_raises, B.
Qed.

(** Whatever it returns, [create_ticket] hands out a key above the
    counter it met. *)
Lemma create_ticket_above_seq (e : env) (user_id : Z) (msg : str)
    (category : option str) (w w' : world) (i : Z) :
  create_ticket e user_id msg category w = (Ok i, w') ->
  tickets_seq (db w) < i.
Proof.
  rewrite create_ticket_eq.
  destruct (SQLite.bind_parameters _) as [[]|ex]; [|discriminate].
  destruct (next_ticket_id (db w)) as [j|] eqn:N; [|discriminate].
  destruct (SQLite.fits _); [|discriminate].
  intros [= <- _]. now apply next_ticket_id_fresh.
Qed.

(** What a successful [create_ticket] without a category leaves in
    the store. *)
Lemma create_ticket_inserts (e : env) (user_id : Z) (msg : str)
    (w : world) :
  storable_ticket user_id msg general = true ->
  store_not_full (db w) ->
  exists i w',
    create_ticket e user_id msg None w = (Ok i, w')
    /\ tickets (db w) !! i = None
    /\ tickets (db w')
       = <[i := mkTicketRow user_id msg status_open (current_timestamp e)
                            None general]> (tickets (db w))
    /\ size (tickets (db w')) = S (size (tickets (db w)))
    /\ users (db w') = users (db w)
    /\ tickets_seq (db w') = i.
Proof.
  intros Hs Hfull. apply next_ticket_id_not_full in Hfull.
  destruct (next_ticket_id_fresh _ _ Hfull) as [Hfresh _].
  eexists _, _. split; [apply create_ticket_run; [exact Hs|exact Hfull]|]. simpl.
  repeat split; try assumption.
  now apply map_size_insert_None.
Qed.

(** ** The store along the handlers *)

Lemma tickets_grow_refl (st : store) : tickets_grow st st.
Proof. split; [lia|]. intros i r H. now left. Qed.

Lemma tickets_grow_trans (st1 st2 st3 : store) :
  tickets_grow st1 st2 -> tickets_grow st2 st3 -> tickets_grow st1 st3.
Proof.
  intros [Hs1 Ht1] [Hs2 Ht2]. split; [lia|].
  intros i r H. destruct (Ht2 i r H) as [H2|H2]; [|now right]. now apply Ht1.
Qed.

Lemma preserves_same_db {A : Type} (m : M A) :
  (forall w, db (snd (m w)) = db w) -> preserves m.
Proof. intros H w. rewrite H. apply tickets_grow_refl. Qed.

Lemma preserves_ret {A : Type} (a : A) : preserves (ret a).
Proof. now apply preserves_same_db. Qed.

Lemma preserves_raise {A : Type} (ex : exn) : preserves (@raise A ex).
Proof. now apply preserves_same_db. Qed.

Lemma preserves_lift {A : Type} (r : result A) : preserves (lift r).
Proof. now apply preserves_same_db. Qed.

Lemma preserves_emit (ev : event) : preserves (emit ev).
Proof. now apply preserves_same_db. Qed.

Lemma preserves_get_db : preserves get_db.
Proof. now apply preserves_same_db. Qed.

Lemma preserves_bind {A B : Type} (m : M A) (k : A -> M B) :
  preserves m -> (forall a, preserves (k a)) -> preserves (bind m k).
Proof.
  intros Hm Hk w. unfold bind. specialize (Hm w).
  destruct (m w) as [[a|ex] w1]; simpl in *; [|exact Hm].
  eapply tickets_grow_trans; [exact Hm|apply Hk].
Qed.

Lemma get_ai_response_db (cfg : config) (e : env) (m : str) (w : world) :
  db (snd (get_ai_response cfg e m w)) = db w.
Proof.
  unfold get_ai_response, try_except.
  destruct (unset (GEMINI_API_KEY cfg)); [reflexivity|].
  pose proof (call_gemini_db cfg e m system_prompt w) as H.
  destruct (_call_gemini cfg e m system_prompt w) as [[v|ex] w1]; simpl in *;
    [exact H|].
  destruct (is_Exception ex); simpl; exact H.
Qed.

Lemma preserves_get_ai_response (cfg : config) (e : env) (m : str) :
  preserves (get_ai_response cfg e m).
Proof. apply preserves_same_db, get_ai_response_db. Qed.

Lemma preserves_save_user (e : env) (user : User) : preserves (save_user e user).
Proof.
  intros w. rewrite save_user_db.
  destruct (storable_user e user); [|apply tickets_grow_refl].
  split; simpl; [lia|]. intros; now left.
Qed.

Lemma preserves_reply_text (update : Update) (body : ftext)
    (markup : option keyboard) (markdown : bool) :
  preserves (reply_text update body markup markdown).
Proof.
  unfold reply_text. destruct (message update);
    [apply preserves_emit|apply preserves_raise].
Qed.

Lemma preserves_create_placeholder (e : env) (user_id : Z) :
  preserves (create_ticket e user_id ticket_placeholder None).
Proof.
  intros w. rewrite create_ticket_eq.
  destruct (SQLite.bind_parameters _); [|apply tickets_grow_refl].
  destruct (next_ticket_id (db w)) as [i|] eqn:N; [|apply tickets_grow_refl].
  destruct (SQLite.fits _); [|apply tickets_grow_refl]. simpl.
  apply next_ticket_id_fresh in N as [_ Hseq].
  split; simpl; [lia|].
  intros j r Hj. destruct (decide (i = j)) as [<-|Hne].
  - rewrite lookup_insert_eq in Hj. injection Hj as <-. right. split; reflexivity.
  - rewrite lookup_insert_ne in Hj by assumption. now left.
Qed.

Create HintDb preserves.
#[local] Hint Resolve preserves_ret preserves_raise preserves_lift preserves_emit
  preserves_get_db preserves_get_ai_response preserves_save_user
  preserves_reply_text preserves_create_placeholder : preserves.

Ltac preserve :=
  unfold execute, log;
  repeat first
    [ progress intros
    | solve [auto with preserves]
    | apply preserves_bind
    | match goal with
      | |- preserves (if ?b then _ else _) => destruct b
      | |- preserves (match ?x with _ => _ end) => destruct x
      end ].

Lemma preserves_ticket_command (e : env) (update : Update) :
  preserves (ticket_command e update).
Proof. unfold ticket_command. preserve. Qed.

#[local] Hint Resolve preserves_ticket_command : preserves.

Lemma preserves_start (e : env) (update : Update) : preserves (start e update).
Proof. unfold start. preserve. Qed.

Lemma preserves_help_command (update : Update) : preserves (help_command update).
Proof. unfold help_command. preserve. Qed.

Lemma preserves_handle_callback (e : env) (update : Update) :
  preserves (handle_callback e update).
Proof. unfold handle_callback. preserve. Qed.

Lemma preserves_handle_message (cfg : config) (e : env) (update : Update) :
  preserves (handle_message cfg e update).
Proof. unfold handle_message. preserve. Qed.

Lemma preserves_get_stats (cfg : config) (e : env) (update : Update) :
  preserves (get_stats cfg e update).
Proof. unfold get_stats. preserve. Qed.

#[local] Hint Resolve preserves_start preserves_help_command
  preserves_handle_callback preserves_handle_message preserves_get_stats
  : preserves.

Lemma preserves_dispatch (cfg : config) (e : env) (update : Update) :
  preserves (dispatch cfg e update).
Proof. unfold dispatch. preserve. Qed.

Lemma process_update_db (cfg : config) (w : world) (eu : env * Update) :
  db (process_update cfg w eu) = db (snd (dispatch cfg (fst eu) (snd eu) w)).
Proof.
  unfold process_update.
  destruct (dispatch cfg (fst eu) (snd eu) w) as [[u|ex] w1]; reflexivity.
Qed.

Lemma process_update_grow (cfg : config) (w : world) (eu : env * Update) :
  tickets_grow (db w) (db (process_update cfg w eu)).
Proof. rewrite process_update_db. apply preserves_dispatch. Qed.

Lemma inbox_grow (cfg : config) (inbox : list (env * Update)) (w : world) :
  tickets_grow (db w) (db (foldl (process_update cfg) w inbox)).
Proof.
  revert w; induction inbox as [|eu inbox IH]; intros w; simpl.
  - apply tickets_grow_refl.
  - eapply tickets_grow_trans; [apply process_update_grow|apply IH].
Qed.
Lemma next_ticket_id_full (st : store) :
  ~ store_not_full st -> next_ticket_id st = None.
Proof.
  unfold store_not_full, next_ticket_id. intros H.
  destruct (Z.ltb_spec (Z.max (tickets_seq st) (largest_key (tickets st))) max_rowid);
    [contradiction|reflexivity].
Qed.

(** C5, as amended.  For a user id and a message SQLite takes (an id
    within 64 bits, a text without a lone surrogate, a row within the
    length limit) and on a store with a key left, [create_ticket]
    without a category inserts exactly one new row, under a key the
    table did not have, with status [open] and category [general], and
    returns that key; the key returned by any later call, whatever
    updates the router handles in between, is strictly larger.  In
    every other case the call raises and the database is as before. *)
Theorem create_ticket_fresh_increasing (cfg : config) (e : env) (user_id : Z)
    (msg : str) (w : world) :
  (storable_ticket user_id msg general = true ->
   store_not_full (db w) ->
   exists i w',
     create_ticket e user_id msg None w = (Ok i, w')
     /\ tickets (db w) !! i = None
     /\ tickets (db w')
        = <[i := mkTicketRow user_id msg status_open (current_timestamp e)
                             None general]> (tickets (db w))
     /\ size (tickets (db w')) = S (size (tickets (db w)))
     /\ (forall inbox e2 user_id2 msg2 category2 i2 w2,
           create_ticket e2 user_id2 msg2 category2
                         (foldl (process_update cfg) w' inbox) = (Ok i2, w2) ->
           i < i2))
  /\ (storable_ticket user_id msg general = false \/ ~ store_not_full (db w) ->
      exists ex,
        fst (create_ticket e user_id msg None w) = Raise ex
        /\ is_Exception ex = true
        /\ db (snd (create_ticket e user_id msg None w)) = db w).
Proof.
  split.
  - intros Hs Hfull.
    destruct (create_ticket_inserts e user_id msg w Hs Hfull)
      as (i & w' & Hrun & Hfresh & Hrows & Hsize & _ & Hseq).
    exists i, w'. repeat split; try assumption.
    intros inbox e2 user_id2 msg2 category2 i2 w2 Hlater.
    apply create_ticket_above_seq in Hlater.
    destruct (inbox_grow cfg inbox w') as [Hmono _]. lia.
  - intros H.
    destruct (create_ticket_refused e user_id msg None w) as (ex & evs & -> & Hex & _).
    + destruct H as [H|H]; [now left|right; now apply next_ticket_id_full].
    + exists ex. auto.
Qed.

Lemma create_ticket_fresh_increasing_witness :
  exists i w',
    create_ticket (mkEnv 1000 1000 (PostRaises ClientError)) 42
                  (utf8 "нет сигнала") None (mkWorld empty_store [])
    = (Ok i, w')
    /\ tickets empty_store !! i = None
    /\ tickets (db w')
       = <[i := mkTicketRow 42 (utf8 "нет сигнала") status_open 1000 None general]>
           (tickets empty_store)
    /\ size (tickets (db w')) = S (size (tickets empty_store))
    /\ (forall inbox e2 user_id2 msg2 category2 i2 w2,
          create_ticket e2 user_id2 msg2 category2
            (foldl (process_update (mkConfig None None [])) w' inbox) = (Ok i2, w2) ->
          i < i2).
Proof.
  apply (proj1 (create_ticket_fresh_increasing (mkConfig None None [])
                  (mkEnv 1000 1000 (PostRaises ClientError)) 42
                  (utf8 "нет сигнала") (mkWorld empty_store []))).
  - vm_compute. reflexivity.
  - vm_compute. reflexivity.
Defined.

Lemma utf8_length_repeat (n : nat) :
  SQLite.utf8_length (repeat 97 n) = Z.of_nat n.
Proof.
  induction n as [|n IH]; [reflexivity|].
  cbn [repeat]. unfold SQLite.utf8_length in *. cbn [foldr]. rewrite IH.
  change (SQLite.utf8_bytes 97) with 1. lia.
Qed.

Lemma no_surrogate_repeat (n : nat) :
  existsb SQLite.is_surrogate (repeat 97 n) = false.
Proof. induction n as [|n IH]; [reflexivity|]. cbn [repeat existsb]. now rewrite IH. Qed.

(** C5, as the claim states it, fails: a user id of 2^63 does not fit
    an INTEGER of SQLite, a lone surrogate has no UTF-8 form, a
    message of 10^9 + 1 letters [a] is longer than SQLite allows, and
    a table whose largest key is 2^63 - 1 has no key left; each time
    the call raises and no row is inserted. *)
Lemma create_ticket_not_for_every_input :
  create_ticket (mkEnv 1000 1000 (PostRaises ClientError)) (2 ^ 63)
                (utf8 "нет сигнала") None (mkWorld empty_store [])
  = (Raise OverflowError, mkWorld empty_store [])
  /\ create_ticket (mkEnv 1000 1000 (PostRaises ClientError)) 42
                   [0xD800] None (mkWorld empty_store [])
     = (Raise UnicodeEncodeError, mkWorld empty_store [])
  /\ create_ticket (mkEnv 1000 1000 (PostRaises ClientError)) 42
                   (repeat 97 (Z.to_nat 1000000001)) None (mkWorld empty_store [])
     = (Raise DataError, mkWorld empty_store [])
  /\ create_ticket (mkEnv 1000 1000 (PostRaises ClientError)) 42
                   (utf8 "нет сигнала") None
                   (mkWorld (mkStore ∅ ∅ max_rowid ∅) [])
     = (Raise OperationalError,
        mkWorld (mkStore ∅ ∅ max_rowid ∅) [EvSql InsertTicket]).
Proof.
  split; [vm_compute; reflexivity|].
  split; [vm_compute; reflexivity|].
  split; [|vm_compute; reflexivity].
  rewrite create_ticket_eq. unfold ticket_parameters.
  cbn [SQLite.bind_parameters SQLite.bind_param and_then].
  change (SQLite.is_int64 42) with true. cbv iota.
  rewrite no_surrogate_repeat, utf8_length_repeat, Z2Nat.id by lia.
  reflexivity.
Qed.

(** ** Routing *)

Lemma message_inv (update : Update) (m : Message) :
  message update = Some m -> carries update = NewMessage m.
Proof. unfold message. destruct (carries update); intros [=]. now subst. Qed.

Lemma callback_query_inv (update : Update) (q : CallbackQuery) :
  callback_query update = Some q -> carries update = Callback q.
Proof. unfold callback_query. destruct (carries update); intros [=]. now subst. Qed.

Lemma edited_message_inv (update : Update) (m : Message) :
  edited_message update = Some m -> carries update = EditedMessage m.
Proof. unfold edited_message. destruct (carries update); intros [=]. now subst. Qed.

Lemma is_command_inv (name : string) (update : Update) :
  is_command name update = true ->
  exists m, message update = Some m /\ command m = Some (utf8 name).
Proof.
  unfold is_command. destruct (message update) as [m|]; [|discriminate].
  destruct (command m) as [c|] eqn:Hc; [|discriminate].
  intros H. apply str_eqb_eq in H. subst c. eauto.
Qed.

(** On a new message the command handlers look at [update.message]. *)
Lemma command_handler_new (name : string) (update : Update) (m : Message) :
  message update = Some m ->
  command_handler name update = is_command name update.
Proof.
  intros H. unfold command_handler, filtered_message, is_command.
  rewrite H. apply message_inv in H. now rewrite H.
Qed.

Lemma admin_check (caller : Z) (admins : list Z) :
  existsb (Z.eqb caller) admins = true <-> In caller admins.
Proof.
  rewrite existsb_exists. split.
  - intros (x & Hin & Hx). apply Z.eqb_eq in Hx. now subst.
  - intros Hin. exists caller. split; [assumption|apply Z.eqb_refl].
Qed.

Lemma dispatch_stats (cfg : config) (e : env) (update : Update) :
  stats_request update -> dispatch cfg e update = get_stats cfg e update.
Proof.
  intros H. apply is_command_inv in H as (m & Hm & Hc).
  unfold dispatch. rewrite !(command_handler_new _ _ _ Hm).
  unfold is_command. rewrite Hm, Hc. reflexivity.
Qed.

Lemma dispatch_ticket_command (cfg : config) (e : env) (update : Update) :
  is_command "ticket" update = true ->
  dispatch cfg e update = ticket_command e update.
Proof.
  intros H. apply is_command_inv in H as (m & Hm & Hc).
  unfold dispatch. rewrite !(command_handler_new _ _ _ Hm).
  unfold is_command. rewrite Hm, Hc. reflexivity.
Qed.

Lemma dispatch_ticket_button (cfg : config) (e : env) (update : Update) (w : world) :
  message update = None ->
  callback_query update = Some (mkCallbackQuery (utf8 "create_ticket")) ->
  dispatch cfg e update w
  = ticket_command e update (mkWorld (db w) (trace w ++ [EvAnswer])).
Proof.
  intros _ Hq. unfold dispatch, command_handler, filtered_message, handle_callback,
    bind, emit.
  rewrite Hq. apply callback_query_inv in Hq. rewrite Hq. reflexivity.
Qed.



(** ** Start-up *)

(** C8. When the bot token or the generation key is unset, [run] logs
    the one error and returns: no application is built, the database
    is not touched and no update of the inbox is handled. *)
Theorem run_refuses_without_credentials (cfg : config) (file : option store)
    (inbox : list (env * Update)) :
  unset (BOT_TOKEN cfg) = true \/ unset (GEMINI_API_KEY cfg) = true ->
  fst (run cfg file inbox) = file
  /\ (snd (run cfg file inbox) = [EvLog ErrBotTokenUnset]
      \/ snd (run cfg file inbox) = [EvLog ErrGeminiKeyUnset]).
Proof.
  unfold run. intros [H|H].
  - rewrite H. simpl. auto.
  - destruct (unset (BOT_TOKEN cfg)); [simpl; auto|].
    rewrite H. simpl. auto.
Qed.

Lemma run_refuses_without_credentials_witness :
  let inbox :=
    [(mkEnv 0 0 (PostRaises ClientError),
      mkUpdate (mkUser 42 None (utf8 "Aigerim") None) 42
               (NewMessage (mkMessage (utf8 "/start") (Some (utf8 "start")))))] in
  let cfg := mkConfig (Some (utf8 "token")) None [] in
  fst (run cfg None inbox) = None
  /\ (snd (run cfg None inbox) = [EvLog ErrBotTokenUnset]
      \/ snd (run cfg None inbox) = [EvLog ErrGeminiKeyUnset]).
Proof.
  intros inbox cfg.
  apply (run_refuses_without_credentials cfg None inbox).
  right. reflexivity.
Defined.

(** With both credentials [run] builds the application, initialises
    the database and polls. *)
Lemma run_starts (cfg : config) (file : option store) :
  unset (BOT_TOKEN cfg) = false ->
  unset (GEMINI_API_KEY cfg) = false ->
  fst (run cfg file []) = Some (default empty_store file)
  /\ In EvPolling (snd (run cfg file []))
  /\ In (EvSql CreateTickets) (snd (run cfg file [])).
Proof.
  intros Ht Hk. unfold run. rewrite Ht, Hk. simpl. tauto.
Qed.

(** ** Tickets *)

Lemma integer_bytes_bound (z : Z) : 0 <= SQLite.integer_bytes z <= 8.
Proof.
  unfold SQLite.integer_bytes.
  repeat match goal with
         | |- context [if ?b then _ else _] => destruct b
         end; lia.
Qed.

(** The id of the user is all that can stand in the way of the
    placeholder ticket: the fixed text and the category are taken,
    and the row is short. *)
Lemma placeholder_storable (user_id : Z) :
  storable_ticket user_id ticket_placeholder general = SQLite.is_int64 user_id.
Proof.
  unfold storable_ticket, ticket_parameters.
  cbn [SQLite.bind_parameters SQLite.bind_param and_then].
  destruct (SQLite.is_int64 user_id); [|reflexivity].
  replace (SQLite.bind_param (SQLite.Text ticket_placeholder)) with (Ok tt)
    by (vm_compute; reflexivity).
  replace (SQLite.bind_param (SQLite.Text general)) with (Ok tt)
    by (vm_compute; reflexivity).
  cbn [and_then].
  unfold SQLite.fits, SQLite.record_length, ticket_record.
  cbn [foldr SQLite.header_bytes SQLite.data_bytes].
  pose proof (integer_bytes_bound user_id) as Hb.
  set (n := SQLite.integer_bytes user_id) in *.
  repeat match goal with
         | |- context [SQLite.utf8_length ?t] =>
             let v := eval vm_compute in (SQLite.utf8_length t) in
             change (SQLite.utf8_length t) with v
         end.
  match goal with
  | |- context [?t <=? 126] =>
      let v := eval vm_compute in t in
      change t with v; change (v <=? 126) with true
  end.
  cbv iota.
  apply Z.leb_le. unfold SQLite.LIMIT_LENGTH. lia.
Qed.

Lemma ticket_command_db (e : env) (update : Update) (w : world) (i : Z) :
  SQLite.is_int64 (tg_id (effective_user update)) = true ->
  next_ticket_id (db w) = Some i ->
  db (snd (ticket_command e update w))
  = mkStore (users (db w))
            (<[i := mkTicketRow (tg_id (effective_user update)) ticket_placeholder
                                status_open (current_timestamp e) None general]>
               (tickets (db w)))
            i (stats (db w)).
Proof.
  intros Hid N. unfold ticket_command, bind.
  rewrite (create_ticket_run _ _ _ _ _ _) by (try exact N; now rewrite placeholder_storable).
  destruct (callback_query update); [reflexivity|].
  unfold reply_text. destruct (message update); reflexivity.
Qed.

(** An id that does not fit ends [ticket_command] before anything is
    done. *)
Lemma ticket_command_overflow (e : env) (update : Update) (w : world) :
  SQLite.is_int64 (tg_id (effective_user update)) = false ->
  ticket_command e update w = (Raise OverflowError, w).
Proof.
  intros Hid. unfold ticket_command, bind. rewrite create_ticket_eq.
  unfold ticket_parameters. cbn [SQLite.bind_parameters SQLite.bind_param and_then].
  rewrite Hid. reflexivity.
Qed.

(** C10. A ticket asked for by the [/ticket] command or by the
    create-ticket button is stored with the fixed placeholder text and
    the category [general], whatever the store holds from earlier
    messages (when the id of the requester does not fit an INTEGER of
    SQLite no ticket is stored at all); and over a whole run of the
    bot, on any inbox, every ticket that was not in the database at
    start-up is such a placeholder row: no handler writes the text of
    a message into a ticket. *)
Theorem tickets_hold_placeholder_only (cfg : config) :
  (forall (e : env) (update : Update) (w : world),
      ticket_request update ->
      store_not_full (db w) ->
      (SQLite.is_int64 (tg_id (effective_user update)) = true ->
       exists i,
         tickets (db w) !! i = None
         /\ tickets (db (process_update cfg w (e, update)))
            = <[i := mkTicketRow (tg_id (effective_user update)) ticket_placeholder
                                 status_open (current_timestamp e) None general]>
                (tickets (db w)))
      /\ (SQLite.is_int64 (tg_id (effective_user update)) = false ->
          tickets (db (process_update cfg w (e, update))) = tickets (db w)))
  /\ (forall (file : option store) (inbox : list (env * Update))
             (st : store) (i : Z) (r : ticket_row),
         fst (run cfg file inbox) = Some st ->
         tickets st !! i = Some r ->
         tickets (default empty_store file) !! i = Some r \/ placeholder_row r).
Proof.
  split.
  - intros e update w Hreq Hfull.
    apply next_ticket_id_not_full in Hfull.
    destruct (next_ticket_id_fresh _ _ Hfull) as [Hfresh _].
    split; intros Hid.
    + eexists. split; [exact Hfresh|].
      rewrite process_update_db. cbn [fst snd].
      destruct Hreq as [Hcmd|[Hm Hq]].
      * rewrite (dispatch_ticket_command cfg e update Hcmd).
        rewrite (ticket_command_db e update w _ Hid Hfull). reflexivity.
      * rewrite (dispatch_ticket_button cfg e update w Hm Hq).
        rewrite (ticket_command_db e update (mkWorld (db w) (trace w ++ [EvAnswer]))
                   _ Hid Hfull).
        reflexivity.
    + rewrite process_update_db. cbn [fst snd].
      destruct Hreq as [Hcmd|[Hm Hq]].
      * rewrite (dispatch_ticket_command cfg e update Hcmd).
        now rewrite (ticket_command_overflow e update w Hid).
      * rewrite (dispatch_ticket_button cfg e update w Hm Hq).
        now rewrite (ticket_command_overflow e update _ Hid).
  - intros file inbox st i r Hrun Hrow. unfold run in Hrun.
    destruct (unset (BOT_TOKEN cfg)); [|destruct (unset (GEMINI_API_KEY cfg))];
      simpl in Hrun.
    + subst file. now left.
    + subst file. now left.
    + injection Hrun as <-.
      match type of Hrow with
      | context [foldl _ ?w0 inbox] =>
          destruct (inbox_grow cfg inbox w0) as [_ Hgrow]
      end.
      apply Hgrow in Hrow. exact Hrow.
Qed.

Lemma tickets_hold_placeholder_only_witness :
  let cfg := mkConfig (Some (utf8 "token")) (Some (utf8 "key")) [] in
  let user := mkUser 42 None (utf8 "Aigerim") None in
  let e := mkEnv 1000 1000 (PostRaises ClientError) in
  let said := mkUpdate user 42 (NewMessage (mkMessage (utf8 "нет сигнала") None)) in
  let pressed :=
    mkUpdate user 42 (Callback (mkCallbackQuery (utf8 "create_ticket"))) in
  let row := mkTicketRow 42 ticket_placeholder status_open 1000 None general in
  (exists i,
      tickets (db (process_update cfg (mkWorld empty_store []) (e, said))) !! i = None
      /\ tickets (db (process_update cfg
                        (process_update cfg (mkWorld empty_store []) (e, said))
                        (e, pressed)))
         = <[i := row]>
             (tickets (db (process_update cfg (mkWorld empty_store []) (e, said)))))
  /\ (tickets empty_store !! 1 = Some row \/ placeholder_row row).
Proof.
  intros cfg user e said pressed row. split.
  - apply (proj1 (tickets_hold_placeholder_only cfg) e pressed
             (process_update cfg (mkWorld empty_store []) (e, said))).
    + right. split; reflexivity.
    + vm_compute. reflexivity.
    + reflexivity.
  - eapply (proj2 (tickets_hold_placeholder_only cfg) None
              [(e, said); (e, pressed)] _ 1 row).
    + vm_compute. reflexivity.
    + vm_compute. reflexivity.
Defined.

(** A message and two ticket requests on a fresh database: the
    tickets get the keys 1 and 2, both hold the placeholder, and the
    text of the message is in neither. *)
Example two_tickets_sample :
  let cfg := mkConfig (Some (utf8 "token")) (Some (utf8 "key")) [] in
  let user := mkUser 42 None (utf8 "Aigerim") None in
  let e := mkEnv 1000 1000 (PostRaises ClientError) in
  let said := mkUpdate user 42 (NewMessage (mkMessage (utf8 "нет сигнала") None)) in
  let pressed :=
    mkUpdate user 42 (Callback (mkCallbackQuery (utf8 "create_ticket"))) in
  let asked :=
    mkUpdate user 42 (NewMessage (mkMessage (utf8 "/ticket") (Some (utf8 "ticket")))) in
  let row := mkTicketRow 42 ticket_placeholder status_open 1000 None general in
  exists st,
    fst (run cfg None [(e, said); (e, pressed); (e, asked)]) = Some st
    /\ tickets st !! 1 = Some row
    /\ tickets st !! 2 = Some row
    /\ size (tickets st) = 2%nat
    /\ tickets_seq st = 2.
Proof. eexists. repeat split; vm_compute; reflexivity. Qed.

(** * Further properties of the bot *)

(** ** Relations kept by every handler *)

Section Keeps.

Variable R : store -> store -> Prop.
Hypothesis R_refl : forall st, R st st.
Hypothesis R_trans : forall st1 st2 st3, R st1 st2 -> R st2 st3 -> R st1 st3.
Hypothesis R_save_user :
  forall (e : env) (user : User) (st : store),
    R st (with_users
            (fun us =>
               <[tg_id user :=
                   mkUserRow (username user) (Some (first_name user))
                             (last_name user) (current_timestamp e) (now e)]>
                 (delete (tg_id user) us))
            st).
Hypothesis R_create_ticket :
  forall (e : env) (user_id : Z) (st : store) (i : Z),
    next_ticket_id st = Some i ->
    R st (mkStore (users st)
                  (<[i := mkTicketRow user_id ticket_placeholder status_open
                                      (current_timestamp e) None general]>
                     (tickets st))
                  i (stats st)).

Lemma keeps_same_db {A : Type} (m : M A) :
  (forall w, db (snd (m w)) = db w) -> keeps R m.
Proof using R_refl. intros H w. rewrite H. apply R_refl. Qed.

Lemma keeps_ret {A : Type} (a : A) : keeps R (ret a).
Proof using R_refl. now apply keeps_same_db. Qed.

Lemma keeps_raise {A : Type} (ex : exn) : keeps R (@raise A ex).
Proof using R_refl. now apply keeps_same_db. Qed.

Lemma keeps_lift {A : Type} (r : result A) : keeps R (lift r).
Proof using R_refl. now apply keeps_same_db. Qed.

Lemma keeps_emit (ev : event) : keeps R (emit ev).
Proof using R_refl. now apply keeps_same_db. Qed.

Lemma keeps_get_db : keeps R get_db.
Proof using R_refl. now apply keeps_same_db. Qed.

Lemma keeps_bind {A B : Type} (m : M A) (k : A -> M B) :
  keeps R m -> (forall a, keeps R (k a)) -> keeps R (bind m k).
Proof using R_trans.
  intros Hm Hk w. unfold bind. specialize (Hm w).
  destruct (m w) as [[a|ex] w1]; simpl in *; [|exact Hm].
  eapply R_trans; [exact Hm|apply Hk].
Qed.

Lemma keeps_get_ai_response (cfg : config) (e : env) (m : str) :
  keeps R (get_ai_response cfg e m).
Proof using R_refl. apply keeps_same_db, get_ai_response_db. Qed.

Lemma keeps_reply_text (update : Update) (body : ftext)
    (markup : option keyboard) (markdown : bool) :
  keeps R (reply_text update body markup markdown).
Proof using R_refl.
  unfold reply_text. destruct (message update);
    [apply keeps_emit|apply keeps_raise].
Qed.

Lemma keeps_save_user (e : env) (user : User) : keeps R (save_user e user).
Proof using R_refl R_save_user.
  intros w. rewrite save_user_db.
  destruct (storable_user e user); [apply R_save_user|apply R_refl].
Qed.

Lemma keeps_create_placeholder (e : env) (user_id : Z) :
  keeps R (create_ticket e user_id ticket_placeholder None).
Proof using R_refl R_create_ticket.
  intros w. rewrite create_ticket_eq.
  destruct (SQLite.bind_parameters _); [|apply R_refl].
  destruct (next_ticket_id (db w)) as [i|] eqn:N; [|apply R_refl].
  destruct (SQLite.fits _); [|apply R_refl].
  now apply R_create_ticket.
Qed.

Ltac keep :=
  unfold execute, log;
  repeat first
    [ match goal with |- forall _, _ => intro end
    | progress cbv zeta
    | apply keeps_ret | apply keeps_raise | apply keeps_lift
    | apply keeps_emit | apply keeps_get_db | apply keeps_get_ai_response
    | apply keeps_reply_text | apply keeps_save_user
    | apply keeps_create_placeholder
    | apply keeps_bind
    | match goal with
      | |- keeps _ (if ?b then _ else _) => destruct b
      | |- keeps _ (match ?x with _ => _ end) => destruct x
      end ].

Lemma keeps_ticket_command (e : env) (update : Update) :
  keeps R (ticket_command e update).
Proof using R_refl R_trans R_create_ticket. unfold ticket_command. keep. Qed.

Lemma keeps_help_command (update : Update) : keeps R (help_command update).
Proof using R_refl. unfold help_command. keep. Qed.

Lemma keeps_get_stats (cfg : config) (e : env) (update : Update) :
  keeps R (get_stats cfg e update).
Proof using R_refl R_trans. unfold get_stats. keep. Qed.

Lemma keeps_handle_callback (e : env) (update : Update) :
  keeps R (handle_callback e update).
Proof using R_refl R_trans R_create_ticket.
  unfold handle_callback. keep.
Qed.

Lemma keeps_start (e : env) (update : Update) : keeps R (start e update).
Proof using R_refl R_trans R_save_user. unfold start. keep. Qed.

Lemma keeps_handle_message (cfg : config) (e : env) (update : Update) :
  keeps R (handle_message cfg e update).
Proof using R_refl R_trans R_save_user. unfold handle_message. keep. Qed.

Lemma keeps_dispatch (cfg : config) (e : env) (update : Update) :
  keeps R (dispatch cfg e update).
Proof using R_refl R_trans R_save_user R_create_ticket.
  unfold dispatch.
  repeat match goal with
         | |- keeps _ (if ?b then _ else _) => destruct b
         end;
    auto using keeps_start, keeps_help_command, keeps_ticket_command,
      keeps_get_stats, keeps_handle_callback, keeps_handle_message, keeps_ret.
Qed.

Lemma keeps_inbox (cfg : config) (inbox : list (env * Update)) (w : world) :
  R (db w) (db (foldl (process_update cfg) w inbox)).
Proof using R_refl R_trans R_save_user R_create_ticket.
  revert w; induction inbox as [|eu inbox IH]; intros w; simpl.
  - apply R_refl.
  - eapply R_trans; [|apply IH].
    rewrite process_update_db. apply keeps_dispatch.
Qed.

(** The database [run] leaves behind is related to the one it met. *)
Lemma keeps_run (cfg : config) (file : option store)
    (inbox : list (env * Update)) (st : store) :
  fst (run cfg file inbox) = Some st ->
  R (default empty_store file) st.
Proof using R_refl R_trans R_save_user R_create_ticket.
  unfold run.
  destruct (unset (BOT_TOKEN cfg)); [|destruct (unset (GEMINI_API_KEY cfg))];
    simpl; intros H.
  - subst file. apply R_refl.
  - subst file. apply R_refl.
  - injection H as <-.
    match goal with
    | |- context [foldl _ ?w0 inbox] => apply (keeps_inbox cfg inbox w0)
    end.
Qed.

End Keeps.

(** ** Nothing is taken away from the store *)

Lemma store_extends_refl (st : store) : store_extends st st.
Proof. split; auto. Qed.

Lemma store_extends_trans (st1 st2 st3 : store) :
  store_extends st1 st2 -> store_extends st2 st3 -> store_extends st1 st3.
Proof. intros [Ht1 Hu1] [Ht2 Hu2]. split; auto. Qed.

Lemma store_extends_save_user (e : env) (user : User) (st : store) :
  store_extends st
    (with_users
       (fun us =>
          <[tg_id user :=
              mkUserRow (username user) (Some (first_name user))
                        (last_name user) (current_timestamp e) (now e)]>
            (delete (tg_id user) us))
       st).
Proof.
  split; simpl; [auto|]. intros i Hi.
  destruct (decide (tg_id user = i)) as [<-|Hne].
  - rewrite lookup_insert_eq. eauto.
  - now rewrite lookup_insert_ne, lookup_delete_ne.
Qed.

Lemma store_extends_create_ticket (e : env) (user_id : Z) (st : store) (i : Z) :
  next_ticket_id st = Some i ->
  store_extends st
    (mkStore (users st)
             (<[i := mkTicketRow user_id ticket_placeholder status_open
                                 (current_timestamp e) None general]>
                (tickets st))
             i (stats st)).
Proof.
  intros N. apply next_ticket_id_fresh in N as [Hfresh _].
  split; simpl; [|auto]. intros j r Hj.
  rewrite lookup_insert_ne; [exact Hj|]. intros ->. congruence.
Qed.

(** X1. Over a whole run, on any inbox, the bot takes nothing away
    from the database it met: every ticket is still there with the
    very same row (no handler resolves, edits or deletes a ticket) and
    every user still has a row. *)
Theorem run_never_removes (cfg : config) (file : option store)
    (inbox : list (env * Update)) (st : store) :
  fst (run cfg file inbox) = Some st ->
  store_extends (default empty_store file) st.
Proof.
  apply keeps_run.
  - apply store_extends_refl.
  - apply store_extends_trans.
  - apply store_extends_save_user.
  - apply store_extends_create_ticket.
Qed.

Lemma run_never_removes_witness :
  let cfg := mkConfig (Some (utf8 "token")) (Some (utf8 "key")) [] in
  let e := mkEnv 2000 2000 (PostRaises ClientError) in
  let old :=
    mkStore {[7 := mkUserRow None (Some (utf8 "Dana")) None 10 10]}
            {[3 := mkTicketRow 7 (utf8 "нет звука") (utf8 "resolved") 10
                               (Some 20) (utf8 "sound")]}
            3 ∅ in
  let pressed :=
    mkUpdate (mkUser 42 None (utf8 "Aigerim") None) 42
             (Callback (mkCallbackQuery (utf8 "create_ticket"))) in
  exists st,
    fst (run cfg (Some old) [(e, pressed)]) = Some st
    /\ store_extends old st.
Proof.
  intros cfg e old pressed. eexists. split.
  - vm_compute. reflexivity.
  - apply (run_never_removes cfg (Some old) [(e, pressed)]).
    vm_compute. reflexivity.
Defined.

(** ** Ticket keys of a database the bot alone has written *)

Lemma foldr_max_le (l : list Z) (b : Z) :
  0 <= b -> (forall x, In x l -> x <= b) -> foldr Z.max 0 l <= b.
Proof.
  intros Hb. induction l as [|y l IH]; simpl; intros H; [exact Hb|].
  apply Z.max_lub; [apply H; now left|]. apply IH. intros x Hx. apply H. now right.
Qed.

Lemma largest_key_le {A : Type} (t : gmap Z A) (b : Z) :
  0 <= b -> (forall i, is_Some (t !! i) -> i <= b) -> largest_key t <= b.
Proof.
  intros Hb H. unfold largest_key. apply foldr_max_le; [exact Hb|].
  intros x Hx. apply list_elem_of_In, list_elem_of_fmap in Hx as ([i a] & -> & Hin).
  apply elem_of_map_to_list in Hin. apply H. simpl. eauto.
Qed.

Lemma tickets_dense_next (st : store) (i : Z) :
  tickets_dense st -> next_ticket_id st = Some i -> i = tickets_seq st + 1.
Proof.
  intros (Hseq & Hkeys & _). unfold next_ticket_id.
  assert (largest_key (tickets st) <= tickets_seq st)
    by (apply largest_key_le; [exact Hseq|]; intros j Hj; apply Hkeys in Hj; lia).
  rewrite Z.max_l by assumption.
  destruct (tickets_seq st <? max_rowid); [|discriminate]. congruence.
Qed.

Lemma tickets_dense_create_ticket (e : env) (user_id : Z) (st : store) (i : Z) :
  next_ticket_id st = Some i ->
  tickets_dense st ->
  tickets_dense
    (mkStore (users st)
             (<[i := mkTicketRow user_id ticket_placeholder status_open
                                 (current_timestamp e) None general]>
                (tickets st))
             i (stats st)).
Proof.
  intros N Hd. pose proof (tickets_dense_next st i Hd N) as ->.
  destruct Hd as (Hseq & Hkeys & Hrows). split; [simpl; lia|]. split; simpl.
  - intros j. rewrite lookup_insert_is_Some, Hkeys.
    destruct (decide (tickets_seq st + 1 = j)); split; intros; lia.
  - intros j r Hj. destruct (decide (tickets_seq st + 1 = j)) as [<-|Hne].
    + rewrite lookup_insert_eq in Hj. injection Hj as <-.
      repeat split.
    + rewrite lookup_insert_ne in Hj by assumption. now apply Hrows in Hj.
Qed.

Lemma tickets_dense_empty : tickets_dense empty_store.
Proof.
  split; [simpl; lia|]. split; simpl.
  - intros i. rewrite lookup_empty. split; [intros [r Hr]; discriminate|lia].
  - intros i r. rewrite lookup_empty. discriminate.
Qed.

(** X2. On a database whose tickets the bot alone has written (a fresh
    one in particular), a run on any inbox leaves the ticket keys
    exactly 1, 2, ..., [tickets_seq], without a gap, and every ticket
    an open, unresolved placeholder row of category [general]. *)
Theorem run_keeps_tickets_dense (cfg : config) (file : option store)
    (inbox : list (env * Update)) (st : store) :
  tickets_dense (default empty_store file) ->
  fst (run cfg file inbox) = Some st ->
  tickets_dense st.
Proof.
  intros Hd Hrun. revert Hd.
  apply (keeps_run (fun a b => tickets_dense a -> tickets_dense b))
    with (cfg := cfg) (inbox := inbox); auto.
  intros e user_id st0 i N. now apply tickets_dense_create_ticket.
Qed.

Lemma run_keeps_tickets_dense_witness :
  let cfg := mkConfig (Some (utf8 "token")) (Some (utf8 "key")) [] in
  let user := mkUser 42 None (utf8 "Aigerim") None in
  let e := mkEnv 1000 1000 (PostRaises ClientError) in
  let pressed :=
    mkUpdate user 42 (Callback (mkCallbackQuery (utf8 "create_ticket"))) in
  let asked :=
    mkUpdate user 42 (NewMessage (mkMessage (utf8 "/ticket") (Some (utf8 "ticket")))) in
  exists st,
    fst (run cfg None [(e, pressed); (e, asked)]) = Some st
    /\ tickets_seq st = 2
    /\ tickets_dense st.
Proof.
  intros cfg user e pressed asked. eexists. split; [|split].
  - vm_compute. reflexivity.
  - reflexivity.
  - apply (run_keeps_tickets_dense cfg None [(e, pressed); (e, asked)]).
    + apply tickets_dense_empty.
    + vm_compute. reflexivity.
Defined.

(** ** Who writes the users table *)

Lemma users_same_refl (st : store) : users st = users st.
Proof. reflexivity. Qed.

Lemma users_same_trans (st1 st2 st3 : store) :
  users st1 = users st2 -> users st2 = users st3 -> users st1 = users st3.
Proof. congruence. Qed.

Lemma users_same_create_ticket (e : env) (user_id : Z) (st : store) (i : Z) :
  next_ticket_id st = Some i ->
  users st
  = users (mkStore (users st)
             (<[i := mkTicketRow user_id ticket_placeholder status_open
                                 (current_timestamp e) None general]>
                (tickets st))
             i (stats st)).
Proof. reflexivity. Qed.

Lemma start_users (e : env) (update : Update) (w : world) :
  users (db (snd (start e update w)))
  = if storable_user e (effective_user update) then
      <[tg_id (effective_user update) :=
          mkUserRow (username (effective_user update))
                    (Some (first_name (effective_user update)))
                    (last_name (effective_user update))
                    (current_timestamp e) (now e)]> (users (db w))
    else users (db w).
Proof.
  unfold start, bind. destruct (storable_user e (effective_user update)) eqn:S.
  - rewrite save_user_run by exact S. cbv zeta. unfold reply_text.
    destruct (message update); simpl; apply insert_delete_eq.
  - destruct (save_user_refused e (effective_user update) w S)
      as (ex & evs & -> & _). reflexivity.
Qed.

Lemma handle_message_users (cfg : config) (e : env) (update : Update) (w : world) :
  users (db (snd (handle_message cfg e update w)))
  = if storable_user e (effective_user update) then
      <[tg_id (effective_user update) :=
          mkUserRow (username (effective_user update))
                    (Some (first_name (effective_user update)))
                    (last_name (effective_user update))
                    (current_timestamp e) (now e)]> (users (db w))
    else users (db w).
Proof.
  unfold handle_message, bind. destruct (storable_user e (effective_user update)) eqn:S.
  - rewrite save_user_run by exact S. cbv zeta.
    destruct (message update) as [m|]; [|simpl; apply insert_delete_eq].
    unfold emit at 1. cbn [db trace].
    match goal with
    | |- context [get_ai_response cfg e (text m) ?w1] =>
        pose proof (get_ai_response_db cfg e (text m) w1) as Hdb;
        destruct (get_ai_response cfg e (text m) w1) as [[v|ex] w2]
    end; simpl in Hdb.
    + unfold reply_text. destruct (message update); simpl; rewrite Hdb; simpl;
        apply insert_delete_eq.
    + simpl. rewrite Hdb. simpl. apply insert_delete_eq.
  - destruct (save_user_refused e (effective_user update) w S)
      as (ex & evs & -> & _). reflexivity.
Qed.

(** What the router looks at: a new or an edited message. *)
Lemma filtered_message_spec (update : Update) (m : Message) :
  filtered_message update = Some m <->
  message update = Some m \/ edited_message update = Some m.
Proof.
  unfold filtered_message, message, edited_message.
  destruct (carries update); split; intros H;
    try destruct H as [H|H]; try discriminate; auto.
Qed.

Lemma filtered_message_no_button (update : Update) (m : Message) :
  filtered_message update = Some m -> callback_query update = None.
Proof.
  unfold filtered_message, callback_query.
  destruct (carries update); intros [=]; reflexivity.
Qed.

Lemma dispatch_start (cfg : config) (e : env) (update : Update) (m : Message) :
  filtered_message update = Some m ->
  command m = Some (utf8 "start") ->
  dispatch cfg e update = start e update.
Proof.
  intros Hm Hc. unfold dispatch, command_handler. now rewrite Hm, Hc.
Qed.

Lemma dispatch_text (cfg : config) (e : env) (update : Update) (m : Message) :
  filtered_message update = Some m ->
  command m = None ->
  dispatch cfg e update = handle_message cfg e update.
Proof.
  intros Hm Hc. unfold dispatch, command_handler, text_handler.
  now rewrite Hm, Hc, (filtered_message_no_button update m Hm).
Qed.

(** X3. The users table is written by the handlers of [/start] and of
    plain text only.  They run on a new message and on an edited one
    alike, and put the row of the sender in place when SQLite takes
    it (for an edited message the handler fails afterwards, the row
    stays).  Every other update (the commands [/help], [/ticket],
    [/stats], any other command, new or edited, every button press,
    every other kind of update) leaves the users table exactly as it
    was, so the sender of such an update is not recorded. *)
Theorem users_written_by_start_and_text (cfg : config) (e : env)
    (update : Update) (w : world) :
  (forall m,
      message update = Some m \/ edited_message update = Some m ->
      command m = Some (utf8 "start") \/ command m = None ->
      users (db (snd (dispatch cfg e update w)))
      = if storable_user e (effective_user update) then
          <[tg_id (effective_user update) :=
              mkUserRow (username (effective_user update))
                        (Some (first_name (effective_user update)))
                        (last_name (effective_user update))
                        (current_timestamp e) (now e)]> (users (db w))
        else users (db w))
  /\ ((forall m,
         message update = Some m \/ edited_message update = Some m ->
         exists c, command m = Some c /\ c <> utf8 "start") ->
      users (db (snd (dispatch cfg e update w))) = users (db w)).
Proof.
  split.
  - intros m Hm [Hc|Hc]; apply filtered_message_spec in Hm.
    + rewrite (dispatch_start cfg e update m Hm Hc). apply start_users.
    + rewrite (dispatch_text cfg e update m Hm Hc). apply handle_message_users.
  - intros Hother. symmetry. unfold dispatch.
    assert (Hs : command_handler "start" update = false
                 /\ text_handler update = false).
    { unfold command_handler, text_handler.
      destruct (filtered_message update) as [m|] eqn:Hm; [|auto].
      apply filtered_message_spec in Hm.
      destruct (Hother m Hm) as (c & -> & Hne).
      split; [|reflexivity]. now apply str_eqb_neq. }
    destruct Hs as [-> ->].
    pose (R := fun a b : store => users a = users b).
    destruct (command_handler "help" update);
      [exact (keeps_help_command R users_same_refl update w)|].
    destruct (command_handler "ticket" update);
      [exact (keeps_ticket_command R users_same_refl users_same_trans
                users_same_create_ticket e update w)|].
    destruct (command_handler "stats" update);
      [exact (keeps_get_stats R users_same_refl users_same_trans cfg e update w)|].
    destruct (bool_decide (is_Some (callback_query update)));
      [exact (keeps_handle_callback R users_same_refl users_same_trans
                users_same_create_ticket e update w)|].
    reflexivity.
Qed.

Lemma users_written_by_start_and_text_witness :
  let cfg := mkConfig (Some (utf8 "token")) (Some (utf8 "key")) [] in
  let user := mkUser 42 None (utf8 "Aigerim") None in
  let e := mkEnv 1000 900 (PostRaises ClientError) in
  let m := mkMessage (utf8 "нет сигнала, пожалуйста") None in
  let corrected := mkUpdate user 42 (EditedMessage m) in
  let help := mkUpdate user 42 (NewMessage (mkMessage (utf8 "/help") (Some (utf8 "help")))) in
  users (db (snd (dispatch cfg e corrected (mkWorld empty_store []))))
  = (if storable_user e (effective_user corrected) then
       <[tg_id (effective_user corrected) :=
           mkUserRow None (Some (utf8 "Aigerim")) None 900 1000]> ∅
     else ∅)
  /\ storable_user e user = true
  /\ users (db (snd (dispatch cfg e help (mkWorld empty_store [])))) = ∅.
Proof.
  intros cfg user e m corrected help. split; [|split].
  - apply (proj1 (users_written_by_start_and_text cfg e corrected
                    (mkWorld empty_store [])) m).
    + right. reflexivity.
    + right. reflexivity.
  - vm_compute. reflexivity.
  - apply (proj2 (users_written_by_start_and_text cfg e help (mkWorld empty_store []))).
    intros m' [H|H]; [|discriminate].
    injection H as <-. exists (utf8 "help"). split; [reflexivity|].
    vm_compute. discriminate.
Defined.

(** ** The generation client, further *)

Lemma call_gemini_raises (cfg : config) (e : env) (m : str) (p : ftext)
    (w : world) (ex : exn) :
  catchable (http e) = true ->
  fst (_call_gemini cfg e m p w) = Raise ex ->
  is_Exception ex = true.
Proof.
  unfold _call_gemini, catchable, bind, emit, raise, lift, log, ret. simpl.
  destruct (http e) as [ex0|status json body]; simpl.
  - intros H [= <-]. exact H.
  - destruct (status =? 200).
    + destruct json as [res|ex0]; simpl; [|intros H [= <-]; exact H].
      intros _.
      destruct (py_in candidates res) as [[|]|ex0] eqn:Hin; simpl.
      * destruct (getitem_str res candidates) as [c|ex0] eqn:Hget; simpl.
        -- destruct (truthy c); simpl; [|discriminate].
           destruct (first_candidate_text res) as [v|ex0] eqn:Hf; simpl;
             [discriminate|].
           intros [= <-]. eauto using first_candidate_text_raises.
        -- intros [= <-]. eauto using getitem_str_raises.
      * discriminate.
      * intros [= <-]. eauto using py_in_raises.
    + destruct body as [t|ex0]; simpl; [discriminate|intros H [= <-]; exact H].
Qed.

(** X4. [get_ai_response] lets an exception through only when a key
    is configured and the transport itself raised one that does not
    derive from [Exception] (a cancellation, an interrupt): every
    [Exception] of the request, of the parsing and of the walk through
    the body is answered by the fallback text. *)
Theorem get_ai_response_raises_only_base (cfg : config) (e : env) (m : str)
    (w : world) (ex : exn) :
  fst (get_ai_response cfg e m w) = Raise ex ->
  is_Exception ex = false
  /\ unset (GEMINI_API_KEY cfg) = false
  /\ catchable (http e) = false.
Proof.
  unfold get_ai_response, try_except.
  destruct (unset (GEMINI_API_KEY cfg)); [discriminate|].
  pose proof (call_gemini_raises cfg e m system_prompt w) as Hraise.
  destruct (_call_gemini cfg e m system_prompt w) as [[v|ex0] w1]; simpl in *;
    [discriminate|].
  destruct (is_Exception ex0) eqn:Hex; simpl; [discriminate|].
  intros [= <-]. repeat split; [assumption|].
  destruct (catchable (http e)); [|reflexivity].
  specialize (Hraise ex0 eq_refl eq_refl). congruence.
Qed.


Lemma get_ai_response_raises_only_base_witness :
  is_Exception CancelledError = false
  /\ unset (Some (utf8 "key")) = false
  /\ catchable (PostRaises CancelledError) = false.
Proof.
  apply (get_ai_response_raises_only_base
           (mkConfig (Some (utf8 "token")) (Some (utf8 "key")) [])
           (mkEnv 0 0 (PostRaises CancelledError)) (utf8 "реклама")
           (mkWorld empty_store []) CancelledError).
  reflexivity.
Defined.

Lemma get_ai_response_ok (cfg : config) (e : env) (m : str) (w : world) :
  catchable (http e) = true ->
  exists v, fst (get_ai_response cfg e m w) = Ok v.
Proof.
  intros Hc. unfold get_ai_response, try_except.
  destruct (unset (GEMINI_API_KEY cfg)); [simpl; eauto|].
  pose proof (call_gemini_raises cfg e m system_prompt w) as Hraise.
  destruct (_call_gemini cfg e m system_prompt w) as [[v|ex] w1]; simpl in *;
    [eauto|].
  rewrite (Hraise ex Hc eq_refl). simpl. eauto.
Qed.

(** X5. With a key configured, a 200 response whose body holds a
    non-empty candidate list and the text of its first candidate makes
    [get_ai_response] return that text as it is: one request is sent,
    nothing is logged, the keyword responder is not consulted and the
    store is left alone. *)
Theorem generation_success_returns_text (cfg : config) (e : env) (m : str)
    (w : world) (res c v : pyval) (body : result str) :
  unset (GEMINI_API_KEY cfg) = false ->
  http e = Response 200 (Ok res) body ->
  candidate_list res = Some c ->
  truthy c = true ->
  first_candidate_text res = Ok v ->
  exists request,
    is_post request = true
    /\ get_ai_response cfg e m w
       = (Ok v, mkWorld (db w) (trace w ++ [request])).
Proof.
  intros Hkey Hhttp Hc Ht Hv.
  destruct (candidate_list_getitem _ _ Hc) as [Hin Hget].
  eexists. split; [|apply get_ai_response_returned; [exact Hkey|]].
  2: { unfold _call_gemini, bind, emit, lift, ret. simpl.
       rewrite Hhttp. simpl. rewrite Hin. simpl. rewrite Hget. simpl.
       rewrite Ht, Hv. reflexivity. }
  reflexivity.
Qed.

Lemma generation_success_returns_text_witness :
  let body :=
    PDict [(candidates,
            PList [PDict [(utf8 "content",
                           PDict [(utf8 "parts",
                                   PList [PDict [(utf8 "text",
                                                  PStr (utf8 "Здравствуйте!"))]])])]])] in
  exists request,
    is_post request = true
    /\ get_ai_response
         (mkConfig (Some (utf8 "token")) (Some (utf8 "key")) [])
         (mkEnv 0 0 (Response 200 (Ok body) (Ok [])))
         (utf8 "привет") (mkWorld empty_store [])
       = (Ok (PStr (utf8 "Здравствуйте!")), mkWorld empty_store [request]).
Proof.
  intros body.
  apply (generation_success_returns_text
           (mkConfig (Some (utf8 "token")) (Some (utf8 "key")) [])
           (mkEnv 0 0 (Response 200 (Ok body) (Ok [])))
           (utf8 "привет") (mkWorld empty_store []) body
           (PList [PDict [(utf8 "content",
                           PDict [(utf8 "parts",
                                   PList [PDict [(utf8 "text",
                                                  PStr (utf8 "Здравствуйте!"))]])])]])
           (PStr (utf8 "Здравствуйте!")) (Ok []));
    reflexivity.
Defined.

(** X6. One call of [get_ai_response] makes at most one attempt: it
    adds events at the end of the trace only, exactly one of them a
    request when a key is configured and none when it is not; there is
    no retry on any failure. *)
Theorem get_ai_response_single_request (cfg : config) (e : env) (m : str)
    (w : world) :
  exists evs,
    trace (snd (get_ai_response cfg e m w)) = trace w ++ evs
    /\ length (List.filter is_post evs)
       = if unset (GEMINI_API_KEY cfg) then 0%nat else 1%nat.
Proof.
  unfold get_ai_response, try_except.
  destruct (unset (GEMINI_API_KEY cfg)).
  { eexists. split; reflexivity. }
  unfold _call_gemini, bind, emit, raise, lift, log, ret. simpl.
  destruct (http e) as [ex|status json body]; simpl.
  { destruct (is_Exception ex); simpl; rewrite <- ?app_assoc;
      eexists; split; reflexivity. }
  destruct (status =? 200).
  - destruct json as [res|ex]; simpl.
    2: { destruct (is_Exception ex); simpl; rewrite <- ?app_assoc;
           eexists; split; reflexivity. }
    destruct (py_in candidates res) as [[|]|ex]; simpl.
    + destruct (getitem_str res candidates) as [c|ex]; simpl.
      * destruct (truthy c); simpl.
        -- destruct (first_candidate_text res) as [v|ex]; simpl;
             [|destruct (is_Exception ex); simpl]; rewrite <- ?app_assoc;
             eexists; split; reflexivity.
        -- rewrite <- ?app_assoc. eexists; split; reflexivity.
      * destruct (is_Exception ex); simpl; rewrite <- ?app_assoc;
          eexists; split; reflexivity.
    + rewrite <- ?app_assoc. eexists; split; reflexivity.
    + destruct (is_Exception ex); simpl; rewrite <- ?app_assoc;
        eexists; split; reflexivity.
  - destruct body as [t|ex]; simpl;
      [|destruct (is_Exception ex); simpl]; rewrite <- ?app_assoc;
      eexists; split; reflexivity.
Qed.


(** The value of [get_ai_response] without a key or on a failed
    request. *)
Lemma get_ai_response_fallback_value (cfg : config) (e : env) (m : str) (w : world) :
  unset (GEMINI_API_KEY cfg) = true \/ generation_failed (http e) ->
  fst (get_ai_response cfg e m w) = Ok (PStr (get_fallback_response m)).
Proof.
  intros H. destruct (unset (GEMINI_API_KEY cfg)) eqn:Hkey.
  { unfold get_ai_response. rewrite Hkey. reflexivity. }
  destruct H as [H|Hfail]; [discriminate|].
  destruct (_call_gemini cfg e m system_prompt w) as [r w1] eqn:Hcall.
  destruct (call_gemini_failed cfg e m system_prompt w Hfail) as [H|(ex & H & Hex)];
    rewrite Hcall in H; simpl in H; subst r.
  - now rewrite (get_ai_response_returned cfg e m w w1 _ Hkey Hcall).
  - now rewrite (get_ai_response_caught cfg e m w w1 ex Hkey Hcall Hex).
Qed.

(** ** Buttons and commands *)

Lemma handle_callback_static (e : env) (update : Update) (w : world)
    (q : CallbackQuery) :
  callback_query update = Some q ->
  In (data q) static_buttons ->
  exists body,
    handle_callback e update w
    = (Ok tt, mkWorld (db w) (trace w ++ [EvAnswer; EvEdit body])).
Proof.
  intros Hq Hin. unfold handle_callback. rewrite Hq.
  unfold static_buttons in Hin.
  repeat (destruct Hin as [<-|Hin]);
    [| | | |destruct Hin];
    unfold bind, emit, lift; simpl; rewrite <- app_assoc; eexists; reflexivity.
Qed.

Lemma handle_callback_other (e : env) (update : Update) (w : world)
    (q : CallbackQuery) :
  callback_query update = Some q ->
  ~ In (data q) static_buttons ->
  data q <> utf8 "create_ticket" ->
  handle_callback e update w = (Ok tt, mkWorld (db w) (trace w ++ [EvAnswer])).
Proof.
  intros Hq Hnot Hne. unfold handle_callback. rewrite Hq.
  unfold bind, emit. cbv zeta.
  unfold static_buttons in Hnot. simpl in Hnot.
  rewrite !str_eqb_neq; [reflexivity|..]; try assumption; intros E; apply Hnot;
    rewrite E; simpl; tauto.
Qed.

Lemma dispatch_callback (cfg : config) (e : env) (update : Update)
    (q : CallbackQuery) :
  message update = None ->
  callback_query update = Some q ->
  dispatch cfg e update = handle_callback e update.
Proof.
  intros _ Hq. unfold dispatch, command_handler, filtered_message.
  rewrite Hq. apply callback_query_inv in Hq. now rewrite Hq.
Qed.

(** X7. A button press is always acknowledged first.  For the four
    static buttons (schedule, tech_support, contacts, faq) the message
    is then edited once: the look-ups in the FAQ and the knowledge
    base never miss.  Any other callback data except [create_ticket]
    gets the acknowledgement and nothing else.  In both cases the
    handler returns normally and the store is untouched. *)
Theorem button_press_handled (cfg : config) (e : env) (update : Update)
    (w : world) (q : CallbackQuery) :
  message update = None ->
  callback_query update = Some q ->
  data q <> utf8 "create_ticket" ->
  exists evs,
    dispatch cfg e update w
    = (Ok tt, mkWorld (db w) (trace w ++ EvAnswer :: evs))
    /\ (In (data q) static_buttons -> exists body, evs = [EvEdit body])
    /\ (~ In (data q) static_buttons -> evs = []).
Proof.
  intros Hm Hq Hne. rewrite (dispatch_callback cfg e update q Hm Hq).
  destruct (in_dec (List.list_eq_dec Z.eq_dec) (data q) static_buttons) as [Hin|Hnot].
  - destruct (handle_callback_static e update w q Hq Hin) as [body ->].
    exists [EvEdit body]. split; [reflexivity|]. split; [eauto|contradiction].
  - rewrite (handle_callback_other e update w q Hq Hnot Hne).
    exists []. split; [reflexivity|]. split; [contradiction|reflexivity].
Qed.

Lemma button_press_handled_witness :
  let user := mkUser 42 None (utf8 "Aigerim") None in
  let e := mkEnv 0 0 (PostRaises ClientError) in
  let faq_button := mkUpdate user 42 (Callback (mkCallbackQuery (utf8 "faq"))) in
  exists evs,
    dispatch (mkConfig None None []) e faq_button (mkWorld empty_store [])
    = (Ok tt, mkWorld empty_store ([] ++ EvAnswer :: evs))
    /\ (In (utf8 "faq") static_buttons -> exists body, evs = [EvEdit body])
    /\ (~ In (utf8 "faq") static_buttons -> evs = []).
Proof.
  intros user e faq_button.
  apply (button_press_handled (mkConfig None None []) e faq_button
           (mkWorld empty_store []) (mkCallbackQuery (utf8 "faq")));
    [reflexivity|reflexivity|]. vm_compute. discriminate.
Defined.

(** X8. A command without a handler is dropped: for a message that
    opens with any command other than start, help, ticket and stats
    (the advertised [/schedule], [/contact], [/faq] and [/status]
    among them) the router does nothing at all, no reply, no log, no
    store access. *)
Theorem unhandled_command_dropped (cfg : config) (e : env) (update : Update)
    (w : world) (m : Message) (c : str) :
  message update = Some m ->
  command m = Some c ->
  ~ In c handled_commands ->
  callback_query update = None ->
  dispatch cfg e update w = (Ok tt, w).
Proof.
  intros Hm Hc Hnot Hq. unfold dispatch, command_handler, text_handler, filtered_message.
  rewrite Hq. apply message_inv in Hm. rewrite Hm, Hc.
  unfold handled_commands in Hnot. simpl in Hnot.
  rewrite !str_eqb_neq; [reflexivity|..]; intros E; apply Hnot; rewrite E;
    simpl; tauto.
Qed.

Lemma unhandled_command_dropped_witness :
  let update :=
    mkUpdate (mkUser 42 None (utf8 "Aigerim") None) 42
             (NewMessage (mkMessage (utf8 "/schedule") (Some (utf8 "schedule")))) in
  dispatch (mkConfig (Some (utf8 "token")) (Some (utf8 "key")) [])
           (mkEnv 0 0 (PostRaises ClientError)) update (mkWorld empty_store [])
  = (Ok tt, mkWorld empty_store []).
Proof.
  intros update.
  apply (unhandled_command_dropped
           (mkConfig (Some (utf8 "token")) (Some (utf8 "key")) [])
           (mkEnv 0 0 (PostRaises ClientError)) update (mkWorld empty_store [])
           (mkMessage (utf8 "/schedule") (Some (utf8 "schedule")))
           (utf8 "schedule"));
    [reflexivity|reflexivity| |reflexivity].
  vm_compute. intros [H|[H|[H|[H|[]]]]]; discriminate.
Defined.

(** ** Handlers that return, and handlers that fail *)

Lemma storable_user_int64 (e : env) (user : User) :
  storable_user e user = true -> SQLite.is_int64 (tg_id user) = true.
Proof.
  unfold storable_user, user_parameters.
  cbn [SQLite.bind_parameters SQLite.bind_param and_then].
  destruct (SQLite.is_int64 (tg_id user)); [reflexivity|discriminate].
Qed.

Lemma reply_text_no_message (update : Update) (body : ftext)
    (markup : option keyboard) (markdown : bool) (w : world) :
  message update = None ->
  reply_text update body markup markdown w = (Raise AttributeError, w).
Proof. intros H. unfold reply_text. now rewrite H. Qed.

Lemma ticket_command_ok (e : env) (update : Update) (w : world) :
  store_not_full (db w) ->
  SQLite.is_int64 (tg_id (effective_user update)) = true ->
  fst (ticket_command e update w)
  = match callback_query update, message update with
    | None, None => Raise AttributeError
    | _, _ => Ok tt
    end.
Proof.
  intros Hfull Hid. apply next_ticket_id_not_full in Hfull.
  unfold ticket_command, bind.
  rewrite (create_ticket_run _ _ _ _ _ _)
    by (try exact Hfull; now rewrite placeholder_storable).
  cbv zeta. destruct (callback_query update) as [q|]; [reflexivity|].
  unfold reply_text. destruct (message update); reflexivity.
Qed.

Lemma handle_callback_ok (e : env) (update : Update) (w : world)
    (q : CallbackQuery) :
  callback_query update = Some q ->
  store_not_full (db w) ->
  SQLite.is_int64 (tg_id (effective_user update)) = true ->
  fst (handle_callback e update w) = Ok tt.
Proof.
  intros Hq Hfull Hid.
  destruct (in_dec (List.list_eq_dec Z.eq_dec) (data q) static_buttons) as [Hin|Hnot].
  { destruct (handle_callback_static e update w q Hq Hin) as [body ->]. reflexivity. }
  destruct (List.list_eq_dec Z.eq_dec (data q) (utf8 "create_ticket")) as [Heq|Hne].
  - unfold handle_callback, bind, emit. rewrite Hq. cbv zeta. rewrite Heq. simpl.
    rewrite ticket_command_ok by assumption. now rewrite Hq.
  - now rewrite (handle_callback_other e update w q Hq Hnot Hne).
Qed.

Lemma start_result (e : env) (update : Update) (w : world) :
  storable_user e (effective_user update) = true ->
  fst (start e update w)
  = match message update with Some _ => Ok tt | None => Raise AttributeError end.
Proof.
  intros S. unfold start, bind. rewrite save_user_run by exact S. cbv zeta.
  unfold reply_text. destruct (message update); reflexivity.
Qed.

Lemma help_command_result (update : Update) (w : world) :
  fst (help_command update w)
  = match message update with Some _ => Ok tt | None => Raise AttributeError end.
Proof. unfold help_command, reply_text. destruct (message update); reflexivity. Qed.

Lemma get_stats_result (cfg : config) (e : env) (update : Update) (w : world) :
  fst (get_stats cfg e update w)
  = match message update with Some _ => Ok tt | None => Raise AttributeError end.
Proof.
  unfold get_stats, reply_text, bind, execute, emit, get_db.
  destruct (negb _), (message update); reflexivity.
Qed.

Lemma handle_message_result (cfg : config) (e : env) (update : Update) (w : world) :
  storable_user e (effective_user update) = true ->
  catchable (http e) = true ->
  fst (handle_message cfg e update w)
  = match message update with Some _ => Ok tt | None => Raise AttributeError end.
Proof.
  intros S Hc. unfold handle_message, bind. rewrite save_user_run by exact S.
  destruct (message update) as [m|] eqn:Hm; [|reflexivity].
  cbv zeta. unfold emit at 1. cbn [db trace].
  match goal with
  | |- context [get_ai_response cfg e (text m) ?w1] =>
      destruct (get_ai_response_ok cfg e (text m) w1 Hc) as [v Hv];
      destruct (get_ai_response cfg e (text m) w1) as [r w2]
  end.
  simpl in Hv. subst r. unfold reply_text. rewrite Hm. reflexivity.
Qed.

(** X9. On a store with a ticket key left, for a sender SQLite takes,
    and unless the transport raises an exception outside [Exception]
    during the request, the handler the router picks returns normally
    for every new message, every button press and every update no
    handler takes.  An edited message is different: when it opens
    with one of the four handled commands or with no command, the
    handler does its work on the database and then fails with
    [AttributeError], because it answers through [update.message],
    which an edited message does not have; an edited message with any
    other command is dropped. *)
Theorem dispatch_fails_on_edited_only (cfg : config) (e : env) (update : Update)
    (w : world) :
  store_not_full (db w) ->
  catchable (http e) = true ->
  storable_user e (effective_user update) = true ->
  (edited_message update = None -> fst (dispatch cfg e update w) = Ok tt)
  /\ (forall m,
        edited_message update = Some m ->
        fst (dispatch cfg e update w)
        = match command m with
          | None => Raise AttributeError
          | Some c =>
              if existsb (str_eqb c) handled_commands then Raise AttributeError
              else Ok tt
          end).
Proof.
  intros Hfull Hc S. pose proof (storable_user_int64 _ _ S) as Hid.
  assert (Hm : message update
               = match carries update with NewMessage m => Some m | _ => None end)
    by reflexivity.
  assert (Hq : callback_query update
               = match carries update with Callback q => Some q | _ => None end)
    by reflexivity.
  assert (Hrun :
    fst (dispatch cfg e update w)
    = match carries update with
      | EditedMessage m =>
          match command m with
          | None => Raise AttributeError
          | Some c =>
              if existsb (str_eqb c) handled_commands then Raise AttributeError
              else Ok tt
          end
      | _ => Ok tt
      end).
  { unfold dispatch, command_handler, text_handler, filtered_message.
    destruct (carries update) as [m|m|q|] eqn:Hcar.
    - destruct (command m) as [c|].
      + destruct (str_eqb c (utf8 "start"));
          [rewrite start_result by exact S; now rewrite Hm|].
        destruct (str_eqb c (utf8 "help"));
          [rewrite help_command_result; now rewrite Hm|].
        destruct (str_eqb c (utf8 "ticket"));
          [rewrite ticket_command_ok by assumption; now rewrite Hm, Hq|].
        destruct (str_eqb c (utf8 "stats"));
          [rewrite get_stats_result; now rewrite Hm|].
        now rewrite Hq.
      + rewrite Hq. change (bool_decide (is_Some (@None CallbackQuery))) with false.
        cbv iota. rewrite handle_message_result by assumption. now rewrite Hm.
    - destruct (command m) as [c|].
      + unfold handled_commands. cbn [existsb].
        destruct (str_eqb c (utf8 "start"));
          [rewrite start_result by exact S; now rewrite Hm|].
        destruct (str_eqb c (utf8 "help"));
          [rewrite help_command_result; now rewrite Hm|].
        destruct (str_eqb c (utf8 "ticket"));
          [rewrite ticket_command_ok by assumption; now rewrite Hm, Hq|].
        destruct (str_eqb c (utf8 "stats"));
          [rewrite get_stats_result; now rewrite Hm|].
        now rewrite Hq.
      + rewrite Hq. change (bool_decide (is_Some (@None CallbackQuery))) with false.
        cbv iota. rewrite handle_message_result by assumption. now rewrite Hm.
    - rewrite Hq. change (bool_decide (is_Some (Some q))) with true.
      cbv beta iota.
      now rewrite (handle_callback_ok e update w q).
    - now rewrite Hq. }
  rewrite Hrun. split.
  - unfold edited_message. destruct (carries update); try reflexivity. discriminate.
  - intros m Hed. apply edited_message_inv in Hed. now rewrite Hed.
Qed.

Lemma dispatch_fails_on_edited_only_witness :
  let cfg := mkConfig (Some (utf8 "token")) (Some (utf8 "key")) [] in
  let e := mkEnv 0 0 (Response 500 (Raise JSONDecodeError) (Ok (utf8 "busy"))) in
  let user := mkUser 42 None (utf8 "Aigerim") None in
  let m := mkMessage (utf8 "нет сигнала") None in
  let w := mkWorld empty_store [] in
  fst (dispatch cfg e (mkUpdate user 42 (NewMessage m)) w) = Ok tt
  /\ fst (dispatch cfg e (mkUpdate user 42 (EditedMessage m)) w)
     = match command m with
       | None => Raise AttributeError
       | Some c =>
           if existsb (str_eqb c) handled_commands then Raise AttributeError
           else Ok tt
       end.
Proof.
  intros cfg e user m w. split.
  - apply (proj1 (dispatch_fails_on_edited_only cfg e
                    (mkUpdate user 42 (NewMessage m)) w
                    ltac:(vm_compute; reflexivity) eq_refl
                    ltac:(vm_compute; reflexivity))).
    reflexivity.
  - apply (proj2 (dispatch_fails_on_edited_only cfg e
                    (mkUpdate user 42 (EditedMessage m)) w
                    ltac:(vm_compute; reflexivity) eq_refl
                    ltac:(vm_compute; reflexivity)) m).
    reflexivity.
Defined.

(** ** The bot keeps nothing in memory between updates *)

Lemma blind_ret {A : Type} (a : A) : trace_blind (ret a).
Proof.
  intros st. exists (Ok a), st, []. intros t. unfold ret. now rewrite app_nil_r.
Qed.

Lemma blind_raise {A : Type} (ex : exn) : trace_blind (@raise A ex).
Proof.
  intros st. exists (Raise ex), st, []. intros t. unfold raise.
  now rewrite app_nil_r.
Qed.

Lemma blind_lift {A : Type} (r : result A) : trace_blind (lift r).
Proof.
  intros st. exists r, st, []. intros t. unfold lift. now rewrite app_nil_r.
Qed.

Lemma blind_emit (ev : event) : trace_blind (emit ev).
Proof. intros st. exists (Ok tt), st, [ev]. reflexivity. Qed.

Lemma blind_get_db : trace_blind get_db.
Proof.
  intros st. exists (Ok st), st, []. intros t. unfold get_db. simpl.
  now rewrite app_nil_r.
Qed.

Lemma blind_put_db (st' : store) : trace_blind (put_db st').
Proof.
  intros st. exists (Ok tt), st', []. intros t. unfold put_db. simpl.
  now rewrite app_nil_r.
Qed.

Lemma blind_bind {A B : Type} (m : M A) (k : A -> M B) :
  trace_blind m -> (forall a, trace_blind (k a)) -> trace_blind (bind m k).
Proof.
  intros Hm Hk st. destruct (Hm st) as (r & st1 & evs1 & H1).
  destruct r as [a|ex].
  - destruct (Hk a st1) as (r2 & st2 & evs2 & H2).
    exists r2, st2, (evs1 ++ evs2). intros t. unfold bind.
    now rewrite H1, H2, app_assoc.
  - exists (Raise ex), st1, evs1. intros t. unfold bind. now rewrite H1.
Qed.

Lemma blind_try_except {A : Type} (m : M A) (handler : exn -> M A) :
  trace_blind m -> (forall ex, trace_blind (handler ex)) ->
  trace_blind (try_except m handler).
Proof.
  intros Hm Hh st. destruct (Hm st) as (r & st1 & evs1 & H1).
  destruct r as [a|ex].
  - exists (Ok a), st1, evs1. intros t. unfold try_except. now rewrite H1.
  - destruct (is_Exception ex) eqn:Hex.
    + destruct (Hh ex st1) as (r2 & st2 & evs2 & H2).
      exists r2, st2, (evs1 ++ evs2). intros t. unfold try_except.
      now rewrite H1, Hex, H2, app_assoc.
    + exists (Raise ex), st1, evs1. intros t. unfold try_except.
      now rewrite H1, Hex.
Qed.

Create HintDb blind.
#[local] Hint Resolve blind_ret blind_raise blind_lift blind_emit blind_get_db
  blind_put_db : blind.

Ltac blind :=
  unfold execute, log;
  repeat first
    [ match goal with |- forall _, _ => intro end
    | progress cbv zeta
    | solve [auto with blind nocore]
    | apply blind_bind
    | apply blind_try_except
    | match goal with
      | |- trace_blind (if ?b then _ else _) => destruct b
      | |- trace_blind (match ?x with _ => _ end) => destruct x
      end ].

Lemma blind_reply_text (update : Update) (body : ftext)
    (markup : option keyboard) (markdown : bool) :
  trace_blind (reply_text update body markup markdown).
Proof. unfold reply_text. blind. Qed.

Lemma blind_save_user (e : env) (user : User) : trace_blind (save_user e user).
Proof. unfold save_user. blind. Qed.

Lemma blind_create_ticket (e : env) (user_id : Z) (msg : str)
    (category : option str) :
  trace_blind (create_ticket e user_id msg category).
Proof. unfold create_ticket. blind. Qed.

Lemma blind_call_gemini (cfg : config) (e : env) (m : str) (p : ftext) :
  trace_blind (_call_gemini cfg e m p).
Proof. unfold _call_gemini. blind. Qed.

#[local] Hint Resolve blind_reply_text blind_save_user blind_create_ticket
  blind_call_gemini : blind.

Lemma blind_get_ai_response (cfg : config) (e : env) (m : str) :
  trace_blind (get_ai_response cfg e m).
Proof. unfold get_ai_response. blind. Qed.

#[local] Hint Resolve blind_get_ai_response : blind.

Lemma blind_ticket_command (e : env) (update : Update) :
  trace_blind (ticket_command e update).
Proof. unfold ticket_command. blind. Qed.

#[local] Hint Resolve blind_ticket_command : blind.

Lemma blind_start (e : env) (update : Update) : trace_blind (start e update).
Proof. unfold start. blind. Qed.

Lemma blind_help_command (update : Update) : trace_blind (help_command update).
Proof. unfold help_command. blind. Qed.

Lemma blind_handle_callback (e : env) (update : Update) :
  trace_blind (handle_callback e update).
Proof. unfold handle_callback. blind. Qed.

Lemma blind_handle_message (cfg : config) (e : env) (update : Update) :
  trace_blind (handle_message cfg e update).
Proof. unfold handle_message. blind. Qed.

Lemma blind_get_stats (cfg : config) (e : env) (update : Update) :
  trace_blind (get_stats cfg e update).
Proof. unfold get_stats. blind. Qed.

#[local] Hint Resolve blind_start blind_help_command blind_handle_callback
  blind_handle_message blind_get_stats : blind.

Lemma blind_dispatch (cfg : config) (e : env) (update : Update) :
  trace_blind (dispatch cfg e update).
Proof. unfold dispatch. blind. Qed.

Lemma blind_same_store {A : Type} (m : M A) (w1 w2 : world) :
  trace_blind m ->
  db w1 = db w2 ->
  fst (m w1) = fst (m w2) /\ db (snd (m w1)) = db (snd (m w2)).
Proof.
  intros H Heq. destruct w1 as [st t1], w2 as [st2 t2]. simpl in Heq. subst st2.
  destruct (H st) as (r & st' & evs & E). rewrite !E. split; reflexivity.
Qed.

Lemma blind_appends {A : Type} (m : M A) (w : world) :
  trace_blind m -> exists evs, trace (snd (m w)) = trace w ++ evs.
Proof.
  intros H. destruct w as [st t]. destruct (H st) as (r & st' & evs & E).
  exists evs. now rewrite E.
Qed.

Lemma process_update_same_store (cfg : config) (w1 w2 : world) (eu : env * Update) :
  db w1 = db w2 ->
  db (process_update cfg w1 eu) = db (process_update cfg w2 eu).
Proof.
  intros Heq. rewrite !process_update_db.
  now apply blind_same_store; [apply blind_dispatch|].
Qed.

Lemma inbox_same_store (cfg : config) (inbox : list (env * Update)) (w1 w2 : world) :
  db w1 = db w2 ->
  db (foldl (process_update cfg) w1 inbox) = db (foldl (process_update cfg) w2 inbox).
Proof.
  revert w1 w2; induction inbox as [|eu inbox IH]; intros w1 w2 Heq; simpl.
  - exact Heq.
  - apply IH. now apply process_update_same_store.
Qed.

Lemma process_update_appends (cfg : config) (w : world) (eu : env * Update) :
  exists evs, trace (process_update cfg w eu) = trace w ++ evs.
Proof.
  unfold process_update.
  destruct (blind_appends (dispatch cfg (fst eu) (snd eu)) w
              (blind_dispatch cfg (fst eu) (snd eu))) as [evs H].
  destruct (dispatch cfg (fst eu) (snd eu) w) as [[u|ex] w1]; simpl in *.
  - eauto.
  - exists (evs ++ [EvHandlerError ex]). now rewrite H, app_assoc.
Qed.

Lemma inbox_appends (cfg : config) (inbox : list (env * Update)) (w : world) :
  exists evs,
    trace (foldl (process_update cfg) w inbox) = trace w ++ evs
    /\ (inbox = [] -> evs = []).
Proof.
  revert w; induction inbox as [|eu inbox IH]; intros w; simpl.
  - exists []. split; [now rewrite app_nil_r|reflexivity].
  - destruct (process_update_appends cfg w eu) as [evs1 H1].
    destruct (IH (process_update cfg w eu)) as (evs2 & H2 & _).
    exists (evs1 ++ evs2). split; [|discriminate].
    now rewrite H2, H1, app_assoc.
Qed.

(** X10. The bot carries nothing from one update to the next except
    the database: stopping it after any part of the inbox and starting
    it again on the database it left gives the same database as one
    uninterrupted run. *)
Theorem restart_between_updates (cfg : config) (file : option store)
    (first rest : list (env * Update)) :
  fst (run cfg file (first ++ rest))
  = fst (run cfg (fst (run cfg file first)) rest).
Proof.
  unfold run.
  destruct (unset (BOT_TOKEN cfg)); [reflexivity|].
  destruct (unset (GEMINI_API_KEY cfg)); [reflexivity|].
  cbn [fst]. f_equal. rewrite foldl_app. apply inbox_same_store. reflexivity.
Qed.

(** X11. With both credentials [run] does its start-up work before it
    looks at any update: the trace begins with the build of the
    application, the six handlers in their order, the start log
    record, the start of polling, the three CREATE TABLE statements
    and the registration of the six bot commands; what the updates
    cause comes after, and is nothing for an empty inbox. *)
Theorem run_initialises_before_updates (cfg : config) (file : option store)
    (inbox : list (env * Update)) :
  unset (BOT_TOKEN cfg) = false ->
  unset (GEMINI_API_KEY cfg) = false ->
  exists commands rest,
    snd (run cfg file inbox)
    = startup_events (default [] (BOT_TOKEN cfg)) commands ++ rest
    /\ map fst commands
       = [utf8 "start"; utf8 "help"; utf8 "schedule"; utf8 "contact";
          utf8 "faq"; utf8 "ticket"]
    /\ (inbox = [] -> rest = []).
Proof.
  intros Ht Hk. unfold run. rewrite Ht, Hk. cbn [snd].
  match goal with
  | |- context [foldl _ ?w0 inbox] =>
      destruct (inbox_appends cfg inbox w0) as (rest & -> & Hrest)
  end.
  eexists _, rest. split; [|split; [|exact Hrest]].
  - unfold post_init, init_db, set_bot_commands, bind, execute, emit.
    cbn [snd trace db]. unfold startup_events.
    rewrite <- !app_assoc. reflexivity.
  - reflexivity.
Qed.

Lemma run_initialises_before_updates_witness :
  let cfg := mkConfig (Some (utf8 "token")) (Some (utf8 "key")) [] in
  exists commands rest,
    snd (run cfg None [])
    = startup_events (default [] (BOT_TOKEN cfg)) commands ++ rest
    /\ map fst commands
       = [utf8 "start"; utf8 "help"; utf8 "schedule"; utf8 "contact";
          utf8 "faq"; utf8 "ticket"]
    /\ (@nil (env * Update) = [] -> rest = []).
Proof.
  intros cfg.
  apply (run_initialises_before_updates cfg None []); reflexivity.
Defined.
(** ** What the user is told *)

Lemma ticket_command_run (e : env) (update : Update) (w : world) (i : Z) :
  SQLite.is_int64 (tg_id (effective_user update)) = true ->
  next_ticket_id (db w) = Some i ->
  is_Some (message update) \/ is_Some (callback_query update) ->
  exists body last,
    ticket_command e update w
    = (Ok tt,
       mkWorld
         (mkStore (users (db w))
            (<[i := mkTicketRow (tg_id (effective_user update)) ticket_placeholder
                                status_open (current_timestamp e) None general]>
               (tickets (db w)))
            i (stats (db w)))
         (trace w ++ [EvSql InsertTicket; last]))
    /\ In (Int i) body
    /\ (last = EvEdit body
        \/ last = EvReply (effective_chat_id update) body None false).
Proof.
  intros Hid N Hsome. unfold ticket_command, bind.
  rewrite (create_ticket_run _ _ _ _ _ _)
    by (try exact N; now rewrite placeholder_storable).
  cbv zeta.
  destruct (callback_query update) as [q|].
  - unfold emit. cbn [db trace]. rewrite <- app_assoc.
    eexists _, _. split; [reflexivity|]. split; [|left; reflexivity].
    simpl. tauto.
  - unfold reply_text. destruct Hsome as [[m ->]|[q [=]]].
    unfold emit. cbn [db trace]. rewrite <- app_assoc.
    eexists _, _. split; [reflexivity|]. split; [|right; reflexivity].
    simpl. tauto.
Qed.





(** X14. [save_user] is an upsert on the id for every user SQLite
    takes: the call returns, the row of the user holds the name fields
    of the call and the time of the call as [last_activity]; the table
    has one row for the id, one more row than before exactly when the
    id was new; the rows of all other users, the tickets and the key
    counter are as before.  For any other user (an id beyond 64 bits,
    a lone surrogate in a name, a row beyond the length limit) the
    call raises and writes nothing; an id that does not fit raises
    [OverflowError] before the statement runs. *)
Theorem save_user_upsert (e : env) (user : User) (w : world) :
  (storable_user e user = true ->
   fst (save_user e user w) = Ok tt
   /\ (exists created,
         users (db (snd (save_user e user w))) !! tg_id user
         = Some (mkUserRow (username user) (Some (first_name user))
                           (last_name user) created (now e)))
   /\ length (filter (fun kv => fst kv = tg_id user)
                     (map_to_list (users (db (snd (save_user e user w))))))
      = 1%nat
   /\ size (users (db (snd (save_user e user w))))
      = match users (db w) !! tg_id user with
        | Some _ => size (users (db w))
        | None => S (size (users (db w)))
        end
   /\ (forall j, j <> tg_id user ->
                 users (db (snd (save_user e user w))) !! j = users (db w) !! j)
   /\ tickets (db (snd (save_user e user w))) = tickets (db w)
   /\ tickets_seq (db (snd (save_user e user w))) = tickets_seq (db w))
  /\ (storable_user e user = false ->
      exists ex,
        fst (save_user e user w) = Raise ex
        /\ is_Exception ex = true
        /\ db (snd (save_user e user w)) = db w)
  /\ (SQLite.is_int64 (tg_id user) = false ->
      save_user e user w = (Raise OverflowError, w)).
Proof.
  split; [|split].
  - intros S.
    pose proof (save_user_row e user w S) as Hrow.
    destruct (save_user_frame e user w) as (Hother & Ht & Hs).
    split; [now rewrite save_user_run|]. split; [eauto|].
    split; [eapply one_row_per_key, Hrow|].
    split; [|auto].
    rewrite save_user_run by exact S. simpl.
    rewrite insert_delete_eq, map_size_insert.
    destruct (users (db w) !! tg_id user); reflexivity.
  - intros S. destruct (save_user_refused e user w S) as (ex & evs & -> & Hex & _).
    exists ex. auto.
  - intros Hid. rewrite save_user_eq. unfold user_parameters.
    cbn [SQLite.bind_parameters SQLite.bind_param and_then]. now rewrite Hid.
Qed.

Lemma save_user_upsert_witness :
  let e := mkEnv 1000 900 (PostRaises ClientError) in
  let w := mkWorld empty_store [] in
  fst (save_user e (mkUser 42 None (utf8 "Aigerim") None) w) = Ok tt
  /\ save_user e (mkUser (2 ^ 63) None (utf8 "Aigerim") None) w
     = (Raise OverflowError, w).
Proof.
  intros e w. split.
  - apply (proj1 (save_user_upsert e (mkUser 42 None (utf8 "Aigerim") None) w)).
    vm_compute. reflexivity.
  - apply (proj2 (proj2 (save_user_upsert e
                           (mkUser (2 ^ 63) None (utf8 "Aigerim") None) w))).
    vm_compute. reflexivity.
Defined.

(** ** The keyword responder, further *)

(** X15. The responder never gives a canned answer by accident: it
    returns the answer of a keyword set only when a keyword of that
    very set is inside the lower-cased message, and it returns the
    greeting only when no set matches.  (The six texts are pairwise
    different, so the answer tells the category.) *)
Theorem fallback_answer_sound (m : str) :
  (forall c, In c categories ->
             get_fallback_response m = snd c ->
             matches (lower m) c = true)
  /\ (get_fallback_response m = greeting_answer ->
      forall c, In c categories -> matches (lower m) c = false).
Proof.
  unfold get_fallback_response, matches.
  destruct (any_in schedule_words (lower m)) eqn:H1;
    [|destruct (any_in quality_words (lower m)) eqn:H2;
      [|destruct (any_in setup_words (lower m)) eqn:H3;
        [|destruct (any_in contact_words (lower m)) eqn:H4;
          [|destruct (any_in advert_words (lower m)) eqn:H5]]]];
    (split;
     [ intros c Hin Hc; unfold categories in Hin;
       repeat (destruct Hin as [<-|Hin]; [try exact eq_refl; try assumption;
                                          try discriminate Hc|]);
       try destruct Hin
     | intros Hg; try discriminate Hg; intros c Hin; unfold categories in Hin;
       repeat (destruct Hin as [<-|Hin]; [assumption|]); destruct Hin ]).
Qed.

Lemma fallback_answer_sound_witness :
  matches (lower (utf8 "Хочу разместить рекламу, размещение на неделю"))
          (advert_words, advert_answer) = true.
Proof.
  apply (proj1 (fallback_answer_sound
                  (utf8 "Хочу разместить рекламу, размещение на неделю"))).
  - unfold categories. simpl. tauto.
  - vm_compute. reflexivity.
Defined.

Lemma startswith_length (w s : str) :
  startswith w s = true -> (length w <= length s)%nat.
Proof.
  revert s; induction w as [|a w IH]; intros [|b s]; simpl; try lia; try discriminate.
  intros H. apply andb_true_iff in H as [_ H]. apply IH in H. lia.
Qed.

Lemma contains_length (w s : str) :
  contains w s = true -> (length w <= length s)%nat.
Proof.
  induction s as [|b s IH]; simpl.
  - rewrite orb_false_r. apply startswith_length.
  - intros H. apply orb_true_iff in H as [H|H].
    + apply startswith_length in H. exact H.
    + apply IH in H. lia.
Qed.

Lemma any_in_short (n : nat) (words : list str) (s : str) :
  forallb (fun w => Nat.leb n (length w)) words = true ->
  (length s < n)%nat ->
  any_in words s = false.
Proof.
  intros Hall Hs. unfold any_in.
  destruct (existsb (fun word => contains word s) words) eqn:E; [|reflexivity].
  apply existsb_exists in E as (w & Hin & Hw).
  rewrite forallb_forall in Hall. specialize (Hall w Hin).
  apply Nat.leb_le in Hall. apply contains_length in Hw. lia.
Qed.

(** X16. Every keyword has at least five code points, so a message
    whose lower-cased form is shorter than that, the empty message
    included, always gets the greeting. *)
Theorem short_message_gets_greeting (m : str) :
  (length (lower m) < 5)%nat ->
  get_fallback_response m = greeting_answer.
Proof.
  intros H. unfold get_fallback_response.
  rewrite (any_in_short 5 schedule_words), (any_in_short 5 quality_words),
    (any_in_short 5 setup_words), (any_in_short 5 contact_words),
    (any_in_short 5 advert_words); auto.
Qed.

Lemma short_message_gets_greeting_witness :
  get_fallback_response [] = greeting_answer
  /\ get_fallback_response (utf8 "ТВ?") = greeting_answer.
Proof.
  split.
  - apply (short_message_gets_greeting []). vm_compute. lia.
  - apply (short_message_gets_greeting (utf8 "ТВ?")). vm_compute. lia.
Defined.

(** ** Construction *)

Section ConstructionProperties.

Variable int : str -> option Z.

Lemma admin_ids_some (fields : list str) (ids : list Z) :
  admin_ids int fields = Some ids <->
  Forall2 (fun x n => int x = Some n) (List.filter nonempty fields) ids.
Proof.
  revert ids; induction fields as [|x fields IH]; intros ids; simpl.
  - split.
    + intros [= <-]. constructor.
    + intros H. inversion H. reflexivity.
  - destruct (nonempty x); [|apply IH].
    destruct (int x) as [n|] eqn:Hx.
    + destruct (admin_ids int fields) as [ns|] eqn:Hrest.
      * split.
        -- intros [= <-]. constructor; [exact Hx|]. now apply IH.
        -- intros H. inversion H as [|? n' ? ns' Hn Hns]; subst.
           apply IH in Hns. congruence.
      * split; [discriminate|].
        intros H. inversion H as [|? n' ? ns' Hn Hns]; subst.
        apply IH in Hns. discriminate.
    + split; [discriminate|].
      intros H. inversion H as [|? n' ? ns' Hn Hns]; subst. congruence.
Qed.

Lemma admin_ids_none (fields : list str) :
  admin_ids int fields = None <->
  exists x, In x fields /\ nonempty x = true /\ int x = None.
Proof.
  induction fields as [|x fields IH]; simpl.
  - split; [discriminate|]. intros (x & [] & _).
  - destruct (nonempty x) eqn:Hne.
    + destruct (int x) as [n|] eqn:Hx.
      * destruct (admin_ids int fields) as [ns|] eqn:Hrest.
        -- split; [discriminate|].
           intros (y & [<-|Hin] & Hy & Hnone); [congruence|].
           destruct IH as [_ IH]. discriminate IH. eauto.
        -- split; [|reflexivity]. intros _.
           destruct IH as [IH _]. destruct (IH eq_refl) as (y & Hin & Hy).
           exists y. tauto.
      * split; [|reflexivity]. intros _. exists x. tauto.
    + rewrite IH. split.
      * intros (y & Hin & Hy). exists y. tauto.
      * intros (y & [<-|Hin] & Hy & Hnone); [congruence|]. eauto.
Qed.

(** X17. The allow-list is read from ADMIN_IDS field by field: empty
    fields (an unset or empty variable, a doubled or trailing comma)
    are skipped, the others are converted by [int] in their order, and
    the constructor raises exactly when [int] refuses one of the
    non-empty fields; the two credentials are taken over as they are
    and never make it raise. *)
Theorem init_reads_admin_ids (getenv : str -> option str) :
  let fields := split_comma (default [] (getenv (utf8 "ADMIN_IDS"))) in
  (forall cfg,
      __init__ int getenv = Some cfg <->
      BOT_TOKEN cfg = getenv (utf8 "BOT_TOKEN")
      /\ GEMINI_API_KEY cfg = getenv (utf8 "GEMINI_API_KEY")
      /\ Forall2 (fun x n => int x = Some n)
                 (List.filter nonempty fields) (ADMIN_IDS cfg))
  /\ (__init__ int getenv = None <->
      exists x, In x fields /\ nonempty x = true /\ int x = None)
  /\ (unset (getenv (utf8 "ADMIN_IDS")) = true ->
      __init__ int getenv
      = Some (mkConfig (getenv (utf8 "BOT_TOKEN"))
                       (getenv (utf8 "GEMINI_API_KEY")) [])).
Proof.
  intros fields. unfold __init__. fold fields. split; [|split].
  - intros [token key ids]. simpl.
    destruct (admin_ids int fields) as [ns|] eqn:H.
    + split.
      * intros [= <- <- <-]. repeat split. now apply admin_ids_some.
      * intros (<- & <- & Hids). apply admin_ids_some in Hids. congruence.
    + split; [discriminate|].
      intros (_ & _ & Hids). apply admin_ids_some in Hids. congruence.
  - rewrite <- admin_ids_none.
    destruct (admin_ids int fields); split; congruence.
  - intros Hunset. subst fields.
    destruct (getenv (utf8 "ADMIN_IDS")) as [[|c s]|]; try discriminate;
      reflexivity.
Qed.


End ConstructionProperties.

Lemma init_reads_admin_ids_witness :
  let int := fun x : str =>
    if str_eqb x (utf8 "1001") then Some 1001
    else if str_eqb x (utf8 "1002") then Some 1002 else None in
  let getenv := fun k : str =>
    if str_eqb k (utf8 "ADMIN_IDS") then Some (utf8 "1001,,1002,") else None in
  __init__ int getenv = Some (mkConfig None None [1001; 1002]).
Proof.
  intros int getenv.
  apply (proj1 (init_reads_admin_ids int getenv)
           (mkConfig None None [1001; 1002])).
  repeat split. vm_compute. repeat constructor.
Defined.


(** ** What the statistics say *)

Lemma filter_all {A : Type} (P : A -> Prop) `{forall x, Decision (P x)}
    (l : list A) :
  Forall P l -> filter P l = l.
Proof.
  induction 1 as [|x l Hx Hl IH]; [reflexivity|].
  rewrite filter_cons_True by assumption. now rewrite IH.
Qed.

Lemma count_rows_all {A : Type} (p : A -> bool) (t : gmap Z A) :
  (forall i r, t !! i = Some r -> p r = true) ->
  count_rows p t = Z.of_nat (size t).
Proof.
  intros Hall. unfold count_rows. rewrite filter_all, length_map_to_list; [reflexivity|].
  apply List.Forall_forall. intros [i r] Hin. simpl.
  apply (Hall i), elem_of_map_to_list, list_elem_of_In, Hin.
Qed.

Lemma count_rows_bounds {A : Type} (p : A -> bool) (t : gmap Z A) :
  0 <= count_rows p t <= Z.of_nat (size t).
Proof.
  unfold count_rows. rewrite <- (length_map_to_list t).
  pose proof (length_filter (fun kv : Z * A => p (snd kv) = true) (map_to_list t)).
  lia.
Qed.

(** A table whose keys are 1, ..., n has n rows. *)
Lemma size_dense {A : Type} (t : gmap Z A) (n : Z) :
  0 <= n ->
  (forall i, is_Some (t !! i) <-> 1 <= i <= n) ->
  Z.of_nat (size t) = n.
Proof.
  intros Hn Hkeys.
  assert (Hperm : (map_to_list t).*1 ≡ₚ seqZ 1 n).
  { apply NoDup_Permutation.
    - apply NoDup_fst_map_to_list.
    - apply NoDup_seqZ.
    - intros i. rewrite elem_of_seqZ, list_elem_of_fmap. split.
      + intros ([j r] & -> & Hin). apply elem_of_map_to_list in Hin.
        simpl. assert (1 <= j <= n) by (apply Hkeys; eauto). lia.
      + intros Hi. assert (is_Some (t !! i)) as [r Hr] by (apply Hkeys; lia).
        exists (i, r). split; [reflexivity|].
        now apply elem_of_map_to_list. }
  apply Permutation_length in Hperm.
  rewrite length_fmap, length_map_to_list, length_seqZ in Hperm. lia.
Qed.

Lemma is_open_status (r : ticket_row) :
  t_status r = status_open -> is_open r = true.
Proof. unfold is_open. intros ->. reflexivity. Qed.

(** X19. On a database whose tickets the bot alone has written, an
    administrator who sends [/stats] is told the number of rows of the
    users table and, as open tickets, the number of all tickets ever
    created, which is the last ticket key (no handler ever closes a
    ticket); the count for today lies between 0 and that number.  The
    three queries change nothing. *)
Theorem stats_on_bot_database (cfg : config) (e : env) (update : Update)
    (w : world) :
  stats_request update ->
  In (tg_id (effective_user update)) (ADMIN_IDS cfg) ->
  tickets_dense (db w) ->
  exists today t1 t2 t3 t4 t5,
    dispatch cfg e update w
    = (Ok tt,
       mkWorld (db w)
         (trace w
          ++ [EvSql CountUsers; EvSql CountOpenTickets; EvSql CountTicketsToday;
              EvReply (effective_chat_id update)
                [Lit t1; Int (Z.of_nat (size (users (db w))));
                 Lit t2; Int (tickets_seq (db w));
                 Lit t3; Int today;
                 Lit t4; Strftime (now e); Lit t5]
                None false]))
    /\ 0 <= today <= tickets_seq (db w).
Proof.
  intros Hreq Hadmin (Hseq & Hkeys & Hrows).
  rewrite (dispatch_stats cfg e update Hreq).
  apply is_command_inv in Hreq as (m & Hm & _).
  apply admin_check in Hadmin.
  pose proof (size_dense (tickets (db w)) _ Hseq Hkeys) as Hsize.
  assert (Hopen : count_rows is_open (tickets (db w)) = tickets_seq (db w)).
  { rewrite count_rows_all; [exact Hsize|].
    intros i r Hr. apply is_open_status. now apply (Hrows i r). }
  pose proof (count_rows_bounds
                (fun r => date (t_created_at r) =? date (current_timestamp e))
                (tickets (db w))) as Htoday.
  rewrite Hsize in Htoday.
  unfold get_stats, reply_text. rewrite Hm, Hadmin.
  unfold bind, execute, emit, get_db. simpl. rewrite Hopen.
  eexists _, _, _, _, _, _. split; [|exact Htoday].
  rewrite <- !app_assoc. reflexivity.
Qed.

Lemma stats_on_bot_database_witness :
  let cfg := mkConfig (Some (utf8 "token")) (Some (utf8 "key")) [1001] in
  let e := mkEnv 0 0 (PostRaises ClientError) in
  let update :=
    mkUpdate (mkUser 1001 None (utf8 "Dana") None) 7
             (NewMessage (mkMessage (utf8 "/stats") (Some (utf8 "stats")))) in
  let w := mkWorld empty_store [] in
  exists today t1 t2 t3 t4 t5,
    dispatch cfg e update w
    = (Ok tt,
       mkWorld (db w)
         (trace w
          ++ [EvSql CountUsers; EvSql CountOpenTickets; EvSql CountTicketsToday;
              EvReply (effective_chat_id update)
                [Lit t1; Int (Z.of_nat (size (users (db w))));
                 Lit t2; Int (tickets_seq (db w));
                 Lit t3; Int today;
                 Lit t4; Strftime (now e); Lit t5]
                None false]))
    /\ 0 <= today <= tickets_seq (db w).
Proof.
  intros cfg e update w.
  apply (stats_on_bot_database cfg e update w).
  - reflexivity.
  - left. reflexivity.
  - apply tickets_dense_empty.
Defined.
